(** * NewsHub client script ([static/js/script.js]): model and properties

    The script binds click handlers to favourite, reaction and comment
    controls, sends [fetch] POST requests and patches the page when the
    answer arrives.  The development below embeds

    - the string helpers ([escapeHtml], [getCookie]) as functions on strings,
    - the page as a forest of element and text nodes with stable element
      identities,
    - each handler as a program in a state-and-exception monad over the page,
      the cookie jar, the dialogs shown and the requests sent,

    and proves the properties of the handlers from these definitions. *)

From Stdlib Require Import String Ascii List Bool Arith ZArith Lia.
From Stdlib Require Import DecimalString Permutation.
Import ListNotations.
Open Scope string_scope.

(** ** Strings

    A JavaScript string is modelled by the UTF-8 bytes of its text.  Every
    character the script singles out ([&], [<], [>], the two quotes, [;], [=],
    [%]) is ASCII, so splitting, prefix tests and replacement act on bytes
    exactly as they act on UTF-16 code units. *)

Module Str.

Local Open Scope nat_scope.

Definition dquote : ascii := "034"%char.
Definition tab : ascii := "009"%char.
Definition newline : ascii := "010"%char.

Definition of_char (c : ascii) : string := String c EmptyString.

Fixpoint to_list (s : string) : list ascii :=
  match s with
  | EmptyString => []
  | String c r => c :: to_list r
  end.

Fixpoint of_list (l : list ascii) : string :=
  match l with
  | [] => EmptyString
  | c :: r => String c (of_list r)
  end.

Definition is_empty (s : string) : bool :=
  match s with EmptyString => true | String _ _ => false end.

(** [s.substring(n)]: what follows the first [n] positions. *)
Fixpoint substring_from (n : nat) (s : string) : string :=
  match n, s with
  | O, _ => s
  | S _, EmptyString => EmptyString
  | S n', String _ r => substring_from n' r
  end.

(** [s.split(d)] for a one-character separator. *)
Fixpoint split (d : ascii) (s : string) : list string :=
  match s with
  | EmptyString => [EmptyString]
  | String c r =>
      if Ascii.eqb c d then EmptyString :: split d r
      else match split d r with
           | h :: t => String c h :: t
           | [] => [of_char c]
           end
  end.

(** White space and line terminators of ECMAScript, by their UTF-8 bytes:
    U+0009..U+000D, U+0020; U+00A0; U+1680, U+2000..U+200A, U+2028, U+2029,
    U+202F, U+205F, U+3000, U+FEFF. *)
Definition ws1 (a : nat) : bool := ((9 <=? a) && (a <=? 13)) || (a =? 32).

Definition ws2 (a b : nat) : bool := (a =? 194) && (b =? 160).

Definition ws3 (a b c : nat) : bool :=
  ((a =? 225) && (b =? 154) && (c =? 128))
  || ((a =? 226) && (b =? 128)
      && (((128 <=? c) && (c <=? 138)) || (c =? 168) || (c =? 169) || (c =? 175)))
  || ((a =? 226) && (b =? 129) && (c =? 159))
  || ((a =? 227) && (b =? 128) && (c =? 128))
  || ((a =? 239) && (b =? 187) && (c =? 191)).

(** Drop the white space a byte list starts with.  With [back] set the list
    is a reversed string and each character is met last byte first. *)
Fixpoint strip (back : bool) (l : list ascii) : list ascii :=
  match l with
  | [] => []
  | a :: r1 =>
      if ws1 (nat_of_ascii a) then strip back r1
      else
        match r1 with
        | [] => l
        | b :: r2 =>
            if (if back then ws2 (nat_of_ascii b) (nat_of_ascii a)
                else ws2 (nat_of_ascii a) (nat_of_ascii b))
            then strip back r2
            else
              match r2 with
              | [] => l
              | c :: r3 =>
                  if (if back
                      then ws3 (nat_of_ascii c) (nat_of_ascii b) (nat_of_ascii a)
                      else ws3 (nat_of_ascii a) (nat_of_ascii b) (nat_of_ascii c))
                  then strip back r3
                  else l
              end
        end
  end.

(** [s.trim()]. *)
Definition trim (s : string) : string :=
  of_list (rev (strip true (rev (strip false (to_list s))))).

Arguments trim : simpl never.

(** [s.replace(/[...]/g, f)] for a character class [p]: every character of
    the class is replaced by what the callback returns for it. *)
Fixpoint replace_class (p : ascii -> bool) (f : ascii -> string) (s : string)
  : string :=
  match s with
  | EmptyString => EmptyString
  | String c r =>
      (if p c then f c else of_char c) ++ replace_class p f r
  end.

(** The UTF-16 code units of a string, each as a string of its own: a
    character of one, two or three bytes is one unit; a character of four
    bytes is two units, its surrogate halves, each written as the three
    bytes of its code point. *)
Definition three_bytes (u : N) : string :=
  of_list [ascii_of_N (224 + u / 4096); ascii_of_N (128 + (u / 64) mod 64);
           ascii_of_N (128 + u mod 64)]%N.

Fixpoint code_units (l : list ascii) : list string :=
  match l with
  | [] => []
  | a :: r1 =>
      if (N_of_ascii a <? 192)%N then of_list [a] :: code_units r1
      else
        match r1 with
        | [] => [of_list [a]]
        | b :: r2 =>
            if (N_of_ascii a <? 224)%N then of_list [a; b] :: code_units r2
            else
              match r2 with
              | [] => [of_list [a; b]]
              | c :: r3 =>
                  if (N_of_ascii a <? 240)%N
                  then of_list [a; b; c] :: code_units r3
                  else
                    match r3 with
                    | [] => [of_list [a; b; c]]
                    | d :: r4 =>
                        let cp := ((N_of_ascii a mod 8) * 262144
                                   + (N_of_ascii b mod 64) * 4096
                                   + (N_of_ascii c mod 64) * 64
                                   + N_of_ascii d mod 64 - 65536)%N in
                        three_bytes (55296 + cp / 1024)
                        :: three_bytes (56320 + cp mod 1024)
                        :: code_units r4
                    end
              end
        end
  end.

(** A natural number in decimal, as an array index is written. *)
Definition decimal (n : nat) : string := NilZero.string_of_uint (Nat.to_uint n).

Definition hex_digit (c : ascii) : option nat :=
  let n := nat_of_ascii c in
  if (48 <=? n) && (n <=? 57) then Some (n - 48)
  else if (65 <=? n) && (n <=? 70) then Some (n - 55)
  else if (97 <=? n) && (n <=? 102) then Some (n - 87)
  else None.

(** First pass of [decodeURIComponent]: every [%XY] becomes the octet it
    names (flagged [true]), any other character stays (flagged [false]).
    [None] when a [%] is not followed by two hexadecimal digits. *)
Fixpoint unescape (s : string) : option (list (bool * nat)) :=
  match s with
  | EmptyString => Some []
  | String c r =>
      if Ascii.eqb c "%" then
        match r with
        | String h1 (String h2 r') =>
            match hex_digit h1, hex_digit h2 with
            | Some a, Some b =>
                option_map (cons (true, 16 * a + b)) (unescape r')
            | _, _ => None
            end
        | _ => None
        end
      else option_map (cons (false, nat_of_ascii c)) (unescape r)
  end.

Definition between (lo hi x : nat) : bool := (lo <=? x) && (x <=? hi).

(** Range of the second octet of a well-formed UTF-8 sequence, by its first
    octet, with the number of octets that follow the second. *)
Definition utf8_lead (b : nat) : option (nat * nat * nat) :=
  if between 194 223 b then Some (128, 191, 0)
  else if b =? 224 then Some (160, 191, 1)
  else if between 225 236 b then Some (128, 191, 1)
  else if b =? 237 then Some (128, 159, 1)
  else if between 238 239 b then Some (128, 191, 1)
  else if b =? 240 then Some (144, 191, 2)
  else if between 241 243 b then Some (128, 191, 2)
  else if b =? 244 then Some (128, 143, 2)
  else None.

(** Second pass: an escaped octet above 127 must start a well-formed UTF-8
    sequence made of escaped octets only. *)
Fixpoint utf8_check (l : list (bool * nat)) : option (list nat) :=
  match l with
  | [] => Some []
  | (false, b) :: r => option_map (cons b) (utf8_check r)
  | (true, b) :: r =>
      if b <? 128 then option_map (cons b) (utf8_check r)
      else
        match utf8_lead b, r with
        | Some (lo, hi, 0), (true, b2) :: r2 =>
            if between lo hi b2
            then option_map (fun t => b :: b2 :: t) (utf8_check r2)
            else None
        | Some (lo, hi, 1), (true, b2) :: (true, b3) :: r3 =>
            if between lo hi b2 && between 128 191 b3
            then option_map (fun t => b :: b2 :: b3 :: t) (utf8_check r3)
            else None
        | Some (lo, hi, 2), (true, b2) :: (true, b3) :: (true, b4) :: r4 =>
            if between lo hi b2 && between 128 191 b3 && between 128 191 b4
            then option_map (fun t => b :: b2 :: b3 :: b4 :: t) (utf8_check r4)
            else None
        | _, _ => None
        end
  end.

(** [decodeURIComponent(s)]; [None] stands for the [URIError] it throws. *)
Definition decodeURIComponent (s : string) : option string :=
  match unescape s with
  | None => None
  | Some items => option_map (fun bs => of_list (map ascii_of_nat bs)) (utf8_check items)
  end.

End Str.

(** ** The page: a forest of nodes

    An element carries what the script reads or writes of it: its class list,
    its attributes ([dataset.x] is the attribute [data-x], [title] the
    attribute [title]), the [display] property of its inline style and, for a
    form control, its [value].  [eid] is the identity of the element: the
    script keeps references to elements across calls and across removals, and
    a reference is the [eid]. *)

Record elem : Type := mkElem {
  eid : nat;
  tag : string;
  classes : list string;
  attrs : list (string * string);
  display : string;
  ctl_value : option string
}.

Unset Elimination Schemes.
Inductive node : Type :=
| Text (data : string)
| Elem (e : elem) (kids : list node).
Set Elimination Schemes.

Module Tree.

Local Open Scope nat_scope.

Section FirstSome.
Variables A B : Type.
Variable f : A -> option B.

Fixpoint first_some (l : list A) : option B :=
  match l with
  | [] => None
  | a :: r => match f a with Some b => Some b | None => first_some r end
  end.
End FirstSome.

Arguments first_some {A B} f l.

Definition has_id (x : nat) (n : node) : bool :=
  match n with Text _ => false | Elem e _ => eid e =? x end.

Definition has_class (c : string) (e : elem) : bool :=
  existsb (String.eqb c) (classes e).

Fixpoint lookup (k : string) (l : list (string * string)) : option string :=
  match l with
  | [] => None
  | (k', v) :: r => if String.eqb k k' then Some v else lookup k r
  end.

Fixpoint update (k v : string) (l : list (string * string))
  : list (string * string) :=
  match l with
  | [] => [(k, v)]
  | (k', v') :: r =>
      if String.eqb k k' then (k', v) :: r else (k', v') :: update k v r
  end.

(** Element identities of a tree, in document order. *)
Fixpoint ids (n : node) : list nat :=
  match n with
  | Text _ => []
  | Elem e ks => eid e :: flat_map ids ks
  end.

Definition ids_f (f : list node) : list nat := flat_map ids f.

(** The subtree rooted at element [x]. *)
Fixpoint find (x : nat) (n : node) : option node :=
  match n with
  | Text _ => None
  | Elem e ks => if eid e =? x then Some n else first_some (find x) ks
  end.

Definition find_f (x : nat) (f : list node) : option node :=
  first_some (find x) f.

(** Apply [g] to the data of element [x]. *)
Fixpoint map_elem (x : nat) (g : elem -> elem) (n : node) : node :=
  match n with
  | Text _ => n
  | Elem e ks =>
      Elem (if eid e =? x then g e else e) (map (map_elem x g) ks)
  end.

(** Replace the children of element [x]. *)
Fixpoint set_kids (x : nat) (new : list node) (n : node) : node :=
  match n with
  | Text _ => n
  | Elem e ks =>
      if eid e =? x then Elem e new else Elem e (map (set_kids x new) ks)
  end.

(** Add [c] after the last child of element [x]. *)
Fixpoint add_kid (x : nat) (c : node) (n : node) : node :=
  match n with
  | Text _ => n
  | Elem e ks =>
      if eid e =? x then Elem e (ks ++ [c])%list
      else Elem e (map (add_kid x c) ks)
  end.

(** Cut the subtree of element [x] out of its parent. *)
Fixpoint prune (x : nat) (n : node) : node :=
  match n with
  | Text _ => n
  | Elem e ks =>
      Elem e (flat_map (fun k => if has_id x k then [] else [prune x k]) ks)
  end.

Definition prune_f (x : nat) (f : list node) : list node :=
  flat_map (fun k => if has_id x k then [] else [prune x k]) f.

(** The elements from the root of the tree down to [x], [x] included. *)
Fixpoint path_to (x : nat) (n : node) : option (list elem) :=
  match n with
  | Text _ => None
  | Elem e ks =>
      if eid e =? x then Some [e]
      else option_map (cons e) (first_some (path_to x) ks)
  end.

(** The elements of a tree that satisfy [p], in document order. *)
Fixpoint select (p : elem -> bool) (n : node) : list nat :=
  match n with
  | Text _ => []
  | Elem e ks => ((if p e then [eid e] else []) ++ flat_map (select p) ks)%list
  end.

Definition select_f (p : elem -> bool) (f : list node) : list nat :=
  flat_map (select p) f.

(** [textContent] of a node: the text of its descendants, concatenated. *)
Fixpoint text (n : node) : string :=
  match n with
  | Text s => s
  | Elem _ ks => String.concat "" (map text ks)
  end.

(** The nodes that precede [x] among the children of its parent. *)
Fixpoint split_at (x : nat) (ks : list node) : option (list node) :=
  match ks with
  | [] => None
  | k :: r =>
      if has_id x k then Some []
      else option_map (cons k) (split_at x r)
  end.

Fixpoint before (x : nat) (n : node) : option (list node) :=
  match n with
  | Text _ => None
  | Elem _ ks =>
      match split_at x ks with
      | Some pre => Some pre
      | None => first_some (before x) ks
      end
  end.

(** The last element of a list of nodes. *)
Fixpoint last_elem (ks : list node) : option nat :=
  match ks with
  | [] => None
  | k :: r =>
      match last_elem r with
      | Some y => Some y
      | None => match k with Elem e _ => Some (eid e) | Text _ => None end
      end
  end.

End Tree.

(** ** Values, exceptions and the host

    [value] is what [response.json()] can resolve to, plus what reading a
    property of such a value can give besides: [undefined] for an absent
    property and, for a name that a built-in prototype defines, the function
    or prototype object found there ([VNative], with the name).  Numbers are
    kept abstract: the script only tests them for truth, compares them with
    zero and prints them. *)

Unset Elimination Schemes.
Inductive value (num : Type) : Type :=
| VUndefined
| VNull
| VBool (b : bool)
| VNum (n : num)
| VStr (s : string)
| VArr (items : list (value num))
| VObj (fields : list (string * value num))
| VNative (name : string).
Set Elimination Schemes.

Arguments VUndefined {num}.
Arguments VNull {num}.
Arguments VBool {num} b.
Arguments VNum {num} n.
Arguments VStr {num} s.
Arguments VArr {num} items.
Arguments VObj {num} fields.
Arguments VNative {num} name.

Inductive exn : Type :=
| TypeError
| SyntaxError
| URIError
| HierarchyRequestError
| NetworkError.

(** A selector without combinators: a list of alternatives, each a list of
    conditions on one element. *)
Inductive simple_selector : Type :=
| SelClass (c : string)
| SelAttr (name val : string).

Definition selector : Type := list (list simple_selector).

(** What the browser supplies: number primitives, the members of the
    built-in prototypes ([proto_has v k]: the prototype chain of [v] defines
    the name [k]) and how they print, [JSON.parse] and [JSON.stringify], the
    HTML parser behind [innerHTML] (it is given the first unused element
    identity and returns the next one) and the parser of selector strings.
    [None] is the [SyntaxError] of a parser. *)
Class Host (num : Type) : Type := {
  num_truthy : num -> bool;
  num_gt0 : num -> bool;
  num_to_string : num -> string;
  num_of_string : string -> num;
  num_of_nat : nat -> num;
  num_zero : num;
  num_zero_gt0 : num_gt0 num_zero = false;
  proto_has : value num -> string -> bool;
  native_to_string : string -> string;
  JSON_parse : string -> option (value num);
  JSON_stringify : value num -> string;
  parseHTML : nat -> string -> list node * nat;
  css_parse : string -> option selector
}.

Module Js.

Section Values.
Context {num : Type} {H : Host num}.

Fixpoint field (k : string) (fs : list (string * value num)) : value num :=
  match fs with
  | [] => VUndefined
  | (k', v) :: r => if String.eqb k k' then v else field k r
  end.

Definition has_field (k : string) (fs : list (string * value num)) : bool :=
  existsb (fun kv => String.eqb k (fst kv)) fs.

(** [ToString], with [ToPrimitive] on the way.  An object that
    [JSON.parse] has made holds no function: when it has a [toString] of its
    own the conversion finds nothing to call and throws a [TypeError], and
    otherwise it prints as [Object.prototype.toString] prints it.  An array
    is joined with commas, [null] and [undefined] items printing as the
    empty string. *)
Fixpoint to_string (v : value num) : exn + string :=
  match v with
  | VUndefined => inr "undefined"
  | VNull => inr "null"
  | VBool true => inr "true"
  | VBool false => inr "false"
  | VNum n => inr (num_to_string n)
  | VStr s => inr s
  | VArr items =>
      match
        (fix join (l : list (value num)) : exn + list string :=
           match l with
           | [] => inr []
           | i :: r =>
               match
                 match i with
                 | VUndefined | VNull => inr ""
                 | _ => to_string i
                 end
               with
               | inl e => inl e
               | inr s =>
                   match join r with
                   | inl e => inl e
                   | inr t => inr (s :: t)
                   end
               end
           end) items
      with
      | inl e => inl e
      | inr parts => inr (String.concat "," parts)
      end
  | VObj fs =>
      if has_field "toString" fs then inl TypeError else inr "[object Object]"
  | VNative k => inr (native_to_string k)
  end.

(** [ToString] of a [dataset] entry: a string, or [undefined]. *)
Definition attr_string (a : option string) : string :=
  match a with Some s => s | None => "undefined" end.

(** [ToBoolean]. *)
Definition truthy (v : value num) : bool :=
  match v with
  | VUndefined | VNull => false
  | VBool b => b
  | VNum n => num_truthy n
  | VStr s => negb (Str.is_empty s)
  | VArr _ | VObj _ | VNative _ => true
  end.

(** [v > 0]: [v] is made a primitive, then a number.  A plain object
    prints as [[object Object]] and a built-in function as its source text,
    neither of which is a number; a built-in prototype object is worth zero
    or is not a number either. *)
Definition gt0 (v : value num) : exn + bool :=
  match v with
  | VUndefined | VNull => inr false
  | VBool b => inr b
  | VNum n => inr (num_gt0 n)
  | VStr s => inr (num_gt0 (num_of_string s))
  | VArr _ =>
      match to_string v with
      | inl e => inl e
      | inr s => inr (num_gt0 (num_of_string s))
      end
  | VObj fs => if has_field "toString" fs then inl TypeError else inr false
  | VNative _ => inr false
  end.

(** [v.k] for the names the script writes out ([success], [error],
    [comment], [id], ...): none of them is an index, [length] or a member of
    a built-in prototype, so the result is the own property of an object and
    [undefined] on anything else, but for the [TypeError] on [null] and
    [undefined]. *)
Definition get (v : value num) (k : string) : exn + value num :=
  match v with
  | VUndefined | VNull => inl TypeError
  | VObj fs => inr (field k fs)
  | _ => inr VUndefined
  end.

(** The item of [l] whose index, written in decimal, is [k]. *)
Fixpoint item_at {A} (k : string) (i : nat) (l : list A) : option A :=
  match l with
  | [] => None
  | a :: r => if String.eqb (Str.decimal i) k then Some a else item_at k (S i) r
  end.

(** [v[k]] for a key computed at run time: an own property first (a field
    of an object; an item or the [length] of an array; a code unit or the
    [length] of a string), then what the prototype chain defines. *)
Definition get_computed (v : value num) (k : string) : exn + value num :=
  let inherited := if proto_has v k then VNative k else VUndefined in
  match v with
  | VUndefined | VNull => inl TypeError
  | VObj fs => inr (if has_field k fs then field k fs else inherited)
  | VArr items =>
      inr (match item_at k 0 items with
           | Some i => i
           | None =>
               if String.eqb k "length"
               then VNum (num_of_nat (length items))
               else inherited
           end)
  | VStr s =>
      let units := Str.code_units (Str.to_list s) in
      inr (match item_at k 0 units with
           | Some u => VStr u
           | None =>
               if String.eqb k "length"
               then VNum (num_of_nat (length units))
               else inherited
           end)
  | VBool _ | VNum _ | VNative _ => inr inherited
  end.

(** [v || d]. *)
Definition or_else (v d : value num) : value num :=
  if truthy v then v else d.

(** [v === a] where [a] is a [dataset] entry: a string, or [undefined]. *)
Definition strict_eq (v : value num) (a : option string) : bool :=
  match v, a with
  | VUndefined, None => true
  | VStr s, Some t => String.eqb s t
  | _, _ => false
  end.

Definition of_attr (a : option string) : value num :=
  match a with Some s => VStr s | None => VUndefined end.

(** The string an element takes for [textContent = v]: [null] and
    [undefined] give the empty string, anything else goes through
    [ToString]. *)
Definition text_of_value (v : value num) : exn + string :=
  match v with
  | VUndefined | VNull => inr ""
  | _ => to_string v
  end.
End Values.

End Js.

(** ** State and effects

    A [fetch] call is recorded with the URL and the [init] object the script
    passes.  A header value is a string or [null] ([None]), as [getCookie]
    returns it.  Dialogs are logged in the order they are shown; what the
    user answers to [prompt] and [confirm] is an input of the handler. *)

Record fetch_call : Type := mkFetch {
  f_url : string;
  f_method : string;
  f_headers : list (string * option string);
  f_body : option string
}.

Inductive dialog : Type :=
| Alert (msg : string)
| Prompt (msg default : string)
| Confirm (msg : string).

Record state : Type := mkState {
  document : list node;
  detached : list node;
  next_id : nat;
  cookie : string;
  dialogs : list dialog;
  console : list exn;
  requests : list fetch_call
}.

Inductive result (A : Type) : Type :=
| Ok (a : A)
| Throw (e : exn).

Arguments Ok {A} a.
Arguments Throw {A} e.

(** A computation reads and writes the state and may throw; what it wrote
    before throwing stays written. *)
Definition M (A : Type) : Type := state -> result A * state.

Definition ret {A} (a : A) : M A := fun st => (Ok a, st).

Definition bind {A B} (m : M A) (k : A -> M B) : M B :=
  fun st =>
    match m st with
    | (Ok a, st') => k a st'
    | (Throw e, st') => (Throw e, st')
    end.

Definition throw {A} (e : exn) : M A := fun st => (Throw e, st).

Definition try_catch {A} (m : M A) (h : exn -> M A) : M A :=
  fun st =>
    match m st with
    | (Ok a, st') => (Ok a, st')
    | (Throw e, st') => h e st'
    end.

Definition gets {A} (f : state -> A) : M A := fun st => (Ok (f st), st).

Definition modify (f : state -> state) : M unit := fun st => (Ok tt, f st).

Declare Scope js_scope.
Delimit Scope js_scope with js.
Notation "x <- m ;; k" := (bind m (fun x => k))
  (at level 61, m at next level, right associativity) : js_scope.
Notation "m ;; k" := (bind m (fun _ => k))
  (at level 61, right associativity) : js_scope.
Open Scope js_scope.

Definition lift {A} (r : exn + A) : M A :=
  match r with inl e => throw e | inr a => ret a end.

(** Use of a reference that may be [null]. *)
Definition deref (r : option nat) : M nat :=
  match r with Some x => ret x | None => throw TypeError end.

(** [list.forEach(f)]. *)
Fixpoint forEach {A} (l : list A) (f : A -> M unit) : M unit :=
  match l with
  | [] => ret tt
  | a :: r => f a ;; forEach r f
  end.

Definition with_document (d : list node) (st : state) : state :=
  mkState d (detached st) (next_id st) (cookie st) (dialogs st) (console st)
          (requests st).

Definition with_detached (d : list node) (st : state) : state :=
  mkState (document st) d (next_id st) (cookie st) (dialogs st) (console st)
          (requests st).

Definition with_next_id (n : nat) (st : state) : state :=
  mkState (document st) (detached st) n (cookie st) (dialogs st) (console st)
          (requests st).

Definition alert (msg : string) : M unit :=
  modify (fun st =>
    mkState (document st) (detached st) (next_id st) (cookie st)
            (dialogs st ++ [Alert msg]) (console st) (requests st)).

Definition prompt (msg default : string) (answer : option string)
  : M (option string) :=
  modify (fun st =>
    mkState (document st) (detached st) (next_id st) (cookie st)
            (dialogs st ++ [Prompt msg default]) (console st) (requests st)) ;;
  ret answer.

Definition confirm (msg : string) (answer : bool) : M bool :=
  modify (fun st =>
    mkState (document st) (detached st) (next_id st) (cookie st)
            (dialogs st ++ [Confirm msg]) (console st) (requests st)) ;;
  ret answer.

Definition console_error (e : exn) : M unit :=
  modify (fun st =>
    mkState (document st) (detached st) (next_id st) (cookie st)
            (dialogs st) (console st ++ [e]) (requests st)).

Definition fetch (url : string) (init_method : string)
    (init_headers : list (string * option string)) (init_body : option string)
  : M unit :=
  modify (fun st =>
    mkState (document st) (detached st) (next_id st) (cookie st)
            (dialogs st) (console st)
            (requests st ++ [mkFetch url init_method init_headers init_body])).

(** ** DOM operations *)

Module Dom.

Definition with_classes (cs : list string) (e : elem) : elem :=
  mkElem (eid e) (tag e) cs (attrs e) (display e) (ctl_value e).

Definition with_attrs (a : list (string * string)) (e : elem) : elem :=
  mkElem (eid e) (tag e) (classes e) a (display e) (ctl_value e).

Definition with_display (d : string) (e : elem) : elem :=
  mkElem (eid e) (tag e) (classes e) (attrs e) d (ctl_value e).

Definition with_ctl_value (v : option string) (e : elem) : elem :=
  mkElem (eid e) (tag e) (classes e) (attrs e) (display e) v.

(** Every tree of the store: the document first, then the detached ones. *)
Definition roots (st : state) : list node := (document st ++ detached st)%list.

Definition node_at (x : nat) (st : state) : option node :=
  Tree.find_f x (roots st).

Definition elem_at (x : nat) (st : state) : option elem :=
  match node_at x st with
  | Some (Elem e _) => Some e
  | _ => None
  end.

Definition kids_at (x : nat) (st : state) : list node :=
  match node_at x st with
  | Some (Elem _ ks) => ks
  | _ => []
  end.

Definition update_elem (x : nat) (g : elem -> elem) : M unit :=
  modify (fun st =>
    with_detached (map (Tree.map_elem x g) (detached st))
      (with_document (map (Tree.map_elem x g) (document st)) st)).

(** [x.querySelectorAll('.c')]: a static list. *)
Definition querySelectorAll (x : nat) (c : string) : M (list nat) :=
  gets (fun st => Tree.select_f (Tree.has_class c) (kids_at x st)).

(** [x.querySelector('.c')]. *)
Definition querySelector (x : nat) (c : string) : M (option nat) :=
  gets (fun st => hd_error (Tree.select_f (Tree.has_class c) (kids_at x st))).

(** [x.closest('.c')]: [x] or its nearest ancestor with the class. *)
Definition closest (x : nat) (c : string) : M (option nat) :=
  gets (fun st =>
    match Tree.first_some (Tree.path_to x) (roots st) with
    | Some chain => option_map eid (List.find (Tree.has_class c) (rev chain))
    | None => None
    end).

Definition getAttribute (x : nat) (name : string) : M (option string) :=
  gets (fun st =>
    match elem_at x st with
    | Some e => Tree.lookup name (attrs e)
    | None => None
    end).

Definition setAttribute (x : nat) (name v : string) : M unit :=
  update_elem x (fun e => with_attrs (Tree.update name v (attrs e)) e).

Definition classList_contains (x : nat) (c : string) : M bool :=
  gets (fun st =>
    match elem_at x st with
    | Some e => Tree.has_class c e
    | None => false
    end).

(** The token set of a class attribute: every class once, at its first
    place. *)
Fixpoint token_set (cs : list string) : list string :=
  match cs with
  | [] => []
  | c :: r => c :: filter (fun c' => negb (String.eqb c c')) (token_set r)
  end.

(** [x.classList.remove(c)] and [x.classList.add(c)]: the token is taken
    out of the token set, or put last when it is not in it, and the class
    attribute is written anew from the set. *)
Definition without_class (c : string) (e : elem) : elem :=
  with_classes
    (filter (fun c' => negb (String.eqb c c')) (token_set (classes e))) e.

Definition with_class (c : string) (e : elem) : elem :=
  with_classes
    (if existsb (String.eqb c) (token_set (classes e))
     then token_set (classes e)
     else token_set (classes e) ++ [c])%list e.

Definition classList_remove (x : nat) (c : string) : M unit :=
  update_elem x (without_class c).

Definition classList_add (x : nat) (c : string) : M unit :=
  update_elem x (with_class c).

(** [x.className = c], for the class names the script assigns: a single
    name without white space. *)
Definition set_className (x : nat) (c : string) : M unit :=
  update_elem x (with_classes [c]).

Definition set_display (x : nat) (d : string) : M unit :=
  update_elem x (with_display d).

Definition get_value (x : nat) : M (option string) :=
  gets (fun st =>
    match elem_at x st with
    | Some e => ctl_value e
    | None => None
    end).

Definition set_value (x : nat) (v : string) : M unit :=
  update_elem x (with_ctl_value (Some v)).

Definition get_textContent (x : nat) : M string :=
  gets (fun st =>
    match node_at x st with
    | Some n => Tree.text n
    | None => ""
    end).

(** The children of [x] are replaced by [new]; the former children stay in
    the store as detached trees. *)
Definition replace_children (x : nat) (new : list node) (st : state) : state :=
  with_detached
    (map (Tree.set_kids x new) (detached st) ++ kids_at x st)%list
    (with_document (map (Tree.set_kids x new) (document st)) st).

Definition set_textContent (x : nat) (s : string) : M unit :=
  modify (replace_children x (if Str.is_empty s then [] else [Text s])).

Definition set_innerHTML {num} {H : Host num} (x : nat) (s : string) : M unit :=
  modify (fun st =>
    let (new, n) := parseHTML (next_id st) s in
    with_next_id n (replace_children x new st)).

(** [x.remove()]: nothing happens when [x] has no parent. *)
Definition remove (x : nat) : M unit :=
  modify (fun st =>
    if existsb (Tree.has_id x) (detached st) then st
    else
      match node_at x st with
      | Some sub =>
          with_detached (Tree.prune_f x (detached st) ++ [sub])%list
            (with_document (Tree.prune_f x (document st)) st)
      | None => st
      end).

(** [p.appendChild(c)]: [c] leaves its place and becomes the last child of
    [p]; refused when [p] is inside [c]. *)
Definition appendChild (p c : nat) : M unit :=
  fun st =>
    match node_at c st with
    | None => (Ok tt, st)
    | Some sub =>
        if existsb (Nat.eqb p) (Tree.ids sub)
        then (Throw HierarchyRequestError, st)
        else
          (Ok tt,
           with_detached
             (map (Tree.add_kid p sub) (Tree.prune_f c (detached st)))
             (with_document
                (map (Tree.add_kid p sub) (Tree.prune_f c (document st))) st))
    end.

Definition createElement (t : string) : M nat :=
  fun st =>
    let x := next_id st in
    (Ok x,
     with_next_id (S x)
       (with_detached (detached st ++ [Elem (mkElem x t [] [] "" None) []])%list
          st)).

Definition previousElementSibling (x : nat) : M (option nat) :=
  gets (fun st =>
    match
      match Tree.split_at x (document st) with
      | Some pre => Some pre
      | None => Tree.first_some (Tree.before x) (roots st)
      end
    with
    | Some pre => Tree.last_elem pre
    | None => None
    end).

Definition matches (sel : selector) (e : elem) : bool :=
  existsb
    (forallb (fun s =>
       match s with
       | SelClass c => Tree.has_class c e
       | SelAttr n v =>
           match Tree.lookup n (attrs e) with
           | Some v' => String.eqb v v'
           | None => false
           end
       end)) sel.

(** [document.querySelector(s)] for a selector given as a string. *)
Definition document_querySelector {num} {H : Host num} (s : string)
  : M (option nat) :=
  match css_parse s with
  | None => throw SyntaxError
  | Some sel =>
      gets (fun st => hd_error (Tree.select_f (matches sel) (document st)))
  end.

End Dom.

(** ** The script *)

(** [escapeHtml]: the table [map] and the replacement of every character of
    the class (ampersand, angle brackets, double quote, apostrophe) by its
    entry. *)
Definition escape_map (m : ascii) : option string :=
  if Ascii.eqb m "&" then Some "&amp;"
  else if Ascii.eqb m "<" then Some "&lt;"
  else if Ascii.eqb m ">" then Some "&gt;"
  else if Ascii.eqb m Str.dquote then Some "&quot;"
  else if Ascii.eqb m "'" then Some "&#039;"
  else None.

Definition escape_class (c : ascii) : bool :=
  Ascii.eqb c "&" || Ascii.eqb c "<" || Ascii.eqb c ">"
  || Ascii.eqb c Str.dquote || Ascii.eqb c "'".

Definition escapeHtml (text : string) : string :=
  Str.replace_class escape_class
    (fun m => match escape_map m with Some s => s | None => "undefined" end)
    text.

(** The loop of [getCookie] over the pieces of [document.cookie]: the first
    piece that, once trimmed, starts with [name=] decides. *)
Fixpoint scan_cookies (name : string) (cookies : list string)
  : result (option string) :=
  match cookies with
  | [] => Ok None
  | c :: r =>
      let cookie := Str.trim c in
      if String.eqb (String.substring 0 (String.length name + 1) cookie)
                    (name ++ "=")
      then
        match Str.decodeURIComponent
                (Str.substring_from (String.length name + 1) cookie) with
        | Some v => Ok (Some v)
        | None => Throw URIError
        end
      else scan_cookies name r
  end.

(** [getCookie(name)] on a given value of [document.cookie]. *)
Definition read_cookie (name : string) (jar : string) : result (option string) :=
  if Str.is_empty jar then Ok None
  else scan_cookies name (Str.split ";" jar).

Arguments read_cookie : simpl never.

Definition getCookie (name : string) : M (option string) :=
  fun st => (read_cookie name (cookie st), st).

(** The response of a request as the handler meets it: the promise chain is
    rejected (by [fetch] or by [response.json()]), or [data] is parsed. *)
Inductive outcome (num : Type) : Type :=
| Rejected (e : exn)
| Parsed (data : value num).

Arguments Rejected {num} e.
Arguments Parsed {num} data.

Definition json_headers (token : option string)
  : list (string * option string) :=
  [("Content-Type", Some "application/json"); ("X-CSRFToken", token)].

Definition unknown_error : string := "Неизвестная ошибка".

Section Script.
Context {num : Type} {H : Host num}.

(** [.then(r => r.json()).then(on_data).catch(e => { console.error(e);
    alert(msg) })]: the handler of [catch] also receives what [on_data]
    throws. *)
Definition settle (on_data : value num -> M unit) (msg : string)
    (o : outcome num) : M unit :=
  let on_error e := console_error e ;; alert msg in
  match o with
  | Rejected e => on_error e
  | Parsed data => try_catch (on_data data) on_error
  end.

(** The [else] branch shared by the five handlers:
    [alert('Ошибка: ' + (data.error || 'Неизвестная ошибка'))]. *)
Definition alert_failure (data : value num) : M unit :=
  err <- lift (Js.get data "error") ;;
  text <- lift (Js.to_string (Js.or_else err (VStr unknown_error))) ;;
  alert ("Ошибка: " ++ text).

(** *** Favourites ([initFavoriteButtons]) *)

Definition favorite_click (this : nat) : M unit :=
  url <- Dom.getAttribute this "data-url" ;;
  title <- Dom.getAttribute this "data-title" ;;
  description <- Dom.getAttribute this "data-description" ;;
  image <- Dom.getAttribute this "data-image" ;;
  source <- Dom.getAttribute this "data-source" ;;
  parsed <- match JSON_parse (Js.attr_string source) with
            | Some v => ret v
            | None => throw SyntaxError
            end ;;
  published <- Dom.getAttribute this "data-published" ;;
  let articleData :=
    VObj [("url", Js.of_attr url); ("title", Js.of_attr title);
          ("description", Js.of_attr description);
          ("urlToImage", Js.of_attr image); ("source", parsed);
          ("publishedAt", Js.of_attr published)] in
  token <- getCookie "csrftoken" ;;
  fetch "/api/toggle-favorite/" "POST" (json_headers token)
        (Some (JSON_stringify articleData)).

Definition favorite_data (this : nat) (data : value num) : M unit :=
  success <- lift (Js.get data "success") ;;
  if Js.truthy success then
    icon <- Dom.querySelector this "favorite-icon" ;;
    is_favorite <- lift (Js.get data "is_favorite") ;;
    if Js.truthy is_favorite then
      i <- deref icon ;;
      Dom.set_textContent i "⭐" ;;
      Dom.setAttribute this "title" "Удалить из избранного"
    else
      i <- deref icon ;;
      Dom.set_textContent i "☆" ;;
      Dom.setAttribute this "title" "Добавить в избранное"
  else alert_failure data.

Definition favorite_response (this : nat) : outcome num -> M unit :=
  settle (favorite_data this) "Произошла ошибка при сохранении в избранное".

(** *** Reactions ([initReactionButtons], [updateReactionButtons]) *)

Definition reaction_click (this : nat) : M unit :=
  reactionType <- Dom.getAttribute this "data-reaction" ;;
  articleUrl <- Dom.getAttribute this "data-url" ;;
  token <- getCookie "csrftoken" ;;
  fetch "/api/add-reaction/" "POST" (json_headers token)
        (Some (JSON_stringify
                 (VObj [("url", Js.of_attr articleUrl);
                        ("reaction_type", Js.of_attr reactionType)]))).

(** [reactionsCount && reactionsCount[reactionType]
      ? reactionsCount[reactionType] : 0]. *)
Definition reaction_count (reactionsCount : value num)
    (reactionType : option string) : value num :=
  if Js.truthy reactionsCount then
    match Js.get_computed reactionsCount (Js.attr_string reactionType) with
    | inr c => if Js.truthy c then c else VNum num_zero
    | inl _ => VNum num_zero
    end
  else VNum num_zero.

Definition update_button (reactionsCount userReaction : value num) (btn : nat)
  : M unit :=
  reactionType <- Dom.getAttribute btn "data-reaction" ;;
  countElement <- Dom.querySelector btn "reaction-count" ;;
  Dom.classList_remove btn "active" ;;
  (if Js.strict_eq userReaction reactionType
   then Dom.classList_add btn "active" else ret tt) ;;
  let count := reaction_count reactionsCount reactionType in
  positive <- lift (Js.gt0 count) ;;
  if positive then
    c <- deref countElement ;;
    text <- lift (Js.text_of_value count) ;;
    Dom.set_textContent c text ;;
    Dom.set_display c "inline"
  else
    c <- deref countElement ;;
    Dom.set_textContent c "" ;;
    Dom.set_display c "none".

Definition updateReactionButtons (articleCard : option nat)
    (reactionsCount userReaction : value num) : M unit :=
  card <- deref articleCard ;;
  reactionButtons <- Dom.querySelectorAll card "reaction-btn" ;;
  forEach reactionButtons (update_button reactionsCount userReaction).

Definition reaction_data (this : nat) (data : value num) : M unit :=
  success <- lift (Js.get data "success") ;;
  if Js.truthy success then
    articleCard <- Dom.closest this "news-card" ;;
    reactions_count <- lift (Js.get data "reactions_count") ;;
    reaction_type <- lift (Js.get data "reaction_type") ;;
    updateReactionButtons articleCard reactions_count reaction_type
  else alert_failure data.

Definition reaction_response (this : nat) : outcome num -> M unit :=
  settle (reaction_data this) "Произошла ошибка при добавлении реакции".

(** *** Comments ([initCommentHandlers], [addCommentToDOM]) *)

(** The markup [addCommentToDOM] assigns to [innerHTML], with the four
    interpolated strings as arguments. *)
Definition comment_markup (text created_at id id' : string) : string :=
  let q := Str.of_char Str.dquote in
  let nl := Str.of_char Str.newline in
  let t := Str.of_char Str.tab in
  nl ++ t ++ t ++ "<div class=" ++ q ++ "comment-content" ++ q ++ ">"
  ++ nl ++ t ++ t ++ t ++ "<p class=" ++ q ++ "comment-text" ++ q ++ ">"
  ++ text ++ "</p>"
  ++ nl ++ t ++ t ++ t ++ "<span class=" ++ q ++ "comment-date" ++ q ++ ">"
  ++ created_at ++ "</span>"
  ++ nl ++ t ++ t ++ "</div>"
  ++ nl ++ t ++ t ++ "<div class=" ++ q ++ "comment-actions" ++ q ++ ">"
  ++ nl ++ t ++ t ++ t ++ "<button class=" ++ q ++ "edit-comment-btn" ++ q
  ++ " data-comment-id=" ++ q ++ id ++ q ++ ">Редактировать</button>"
  ++ nl ++ t ++ t ++ t ++ "<button class=" ++ q ++ "delete-comment-btn" ++ q
  ++ " data-comment-id=" ++ q ++ id' ++ q ++ ">Удалить</button>"
  ++ nl ++ t ++ t ++ "</div>"
  ++ nl ++ t.

(** [escapeHtml(v)] on a value: [v.replace] exists on strings only. *)
Definition escapeHtml_value (v : value num) : M string :=
  match v with
  | VStr s => ret (escapeHtml s)
  | _ => throw TypeError
  end.

Definition addCommentToDOM (articleId : option string) (comment : value num)
  : M unit :=
  commentsList <- Dom.document_querySelector
    (".comments-list[data-article-id=" ++ Str.of_char Str.dquote
     ++ Js.attr_string articleId ++ Str.of_char Str.dquote ++ "]") ;;
  lst <- deref commentsList ;;
  noComments <- Dom.querySelector lst "no-comments" ;;
  match noComments with
  | Some n => Dom.remove n
  | None => ret tt
  end ;;
  commentItem <- Dom.createElement "div" ;;
  Dom.set_className commentItem "comment-item" ;;
  id <- lift (Js.get comment "id") ;;
  commentId <- lift (Js.to_string id) ;;
  Dom.setAttribute commentItem "data-comment-id" commentId ;;
  text <- lift (Js.get comment "text") ;;
  escaped <- escapeHtml_value text ;;
  created_at <- lift (Js.get comment "created_at") ;;
  created <- lift (Js.to_string created_at) ;;
  id1 <- lift (Js.get comment "id") ;;
  edit_id <- lift (Js.to_string id1) ;;
  id2 <- lift (Js.get comment "id") ;;
  delete_id <- lift (Js.to_string id2) ;;
  Dom.set_innerHTML commentItem
    (comment_markup escaped created edit_id delete_id) ;;
  Dom.appendChild lst commentItem.

Definition add_comment_click (this : nat) : M (option (option string * nat)) :=
  articleId <- Dom.getAttribute this "data-article-id" ;;
  commentInput <- Dom.previousElementSibling this ;;
  input <- deref commentInput ;;
  v <- Dom.get_value input ;;
  text <- match v with
          | Some s => ret (Str.trim s)
          | None => throw TypeError
          end ;;
  if Str.is_empty text then
    alert "Введите текст комментария" ;;
    ret None
  else
    token <- getCookie "csrftoken" ;;
    fetch "/api/add-comment/" "POST" (json_headers token)
          (Some (JSON_stringify
                   (VObj [("article_id", Js.of_attr articleId);
                          ("text", VStr text)]))) ;;
    ret (Some (articleId, input)).

Definition add_comment_data (articleId : option string) (commentInput : nat)
    (data : value num) : M unit :=
  success <- lift (Js.get data "success") ;;
  if Js.truthy success then
    comment <- lift (Js.get data "comment") ;;
    addCommentToDOM articleId comment ;;
    Dom.set_value commentInput ""
  else alert_failure data.

Definition add_comment_response (articleId : option string)
    (commentInput : nat) : outcome num -> M unit :=
  settle (add_comment_data articleId commentInput)
         "Произошла ошибка при добавлении комментария".

(** The [click] listener on [document] for editing.  [answer] is what the
    user gives to [prompt] ([None] when the dialog is cancelled).  The
    result is what the response handler closes over: [commentItem] and
    [commentText]. *)
Definition edit_comment_click (target : nat) (answer : option string)
  : M (option (nat * nat)) :=
  is_edit <- Dom.classList_contains target "edit-comment-btn" ;;
  if is_edit then
    commentId <- Dom.getAttribute target "data-comment-id" ;;
    commentItem <- Dom.closest target "comment-item" ;;
    item <- deref commentItem ;;
    commentText <- Dom.querySelector item "comment-text" ;;
    ctext <- deref commentText ;;
    content <- Dom.get_textContent ctext ;;
    let currentText := Str.trim content in
    newText <- prompt "Редактировать комментарий:" currentText answer ;;
    match newText with
    | Some new =>
        if negb (Str.is_empty new) && negb (String.eqb new currentText) then
          token <- getCookie "csrftoken" ;;
          fetch ("/api/edit-comment/" ++ Js.attr_string commentId ++ "/")
                "POST" (json_headers token)
                (Some (JSON_stringify (VObj [("text", VStr new)]))) ;;
          ret (Some (item, ctext))
        else ret None
    | None => ret None
    end
  else ret None.

Definition edit_comment_data (commentItem commentText : nat)
    (data : value num) : M unit :=
  success <- lift (Js.get data "success") ;;
  if Js.truthy success then
    comment <- lift (Js.get data "comment") ;;
    text <- lift (Js.get comment "text") ;;
    shown <- lift (Js.text_of_value text) ;;
    Dom.set_textContent commentText shown ;;
    commentDate <- Dom.querySelector commentItem "comment-date" ;;
    comment' <- lift (Js.get data "comment") ;;
    created_at <- lift (Js.get comment' "created_at") ;;
    date <- deref commentDate ;;
    created <- lift (Js.text_of_value created_at) ;;
    Dom.set_textContent date created
  else alert_failure data.

Definition edit_comment_response (commentItem commentText : nat)
  : outcome num -> M unit :=
  settle (edit_comment_data commentItem commentText)
         "Произошла ошибка при редактировании комментария".

(** The [click] listener on [document] for deletion.  [answer] is what the
    user gives to [confirm].  The result is the [commentItem] the response
    handler closes over, which may be [null]. *)
Definition delete_comment_click (target : nat) (answer : bool)
  : M (option (option nat)) :=
  is_delete <- Dom.classList_contains target "delete-comment-btn" ;;
  if is_delete then
    ok <- confirm "Вы уверены, что хотите удалить этот комментарий?" answer ;;
    if negb ok then ret None
    else
      commentId <- Dom.getAttribute target "data-comment-id" ;;
      commentItem <- Dom.closest target "comment-item" ;;
      token <- getCookie "csrftoken" ;;
      fetch ("/api/delete-comment/" ++ Js.attr_string commentId ++ "/")
            "POST" (json_headers token) None ;;
      ret (Some commentItem)
  else ret None.

Definition delete_comment_data (commentItem : option nat) (data : value num)
  : M unit :=
  success <- lift (Js.get data "success") ;;
  if Js.truthy success then
    item <- deref commentItem ;;
    Dom.remove item ;;
    commentsList <- Dom.closest item "comments-list" ;;
    match commentsList with
    | Some lst =>
        remaining <- Dom.querySelectorAll lst "comment-item" ;;
        if Nat.eqb (length remaining) 0 then
          noComments <- Dom.createElement "p" ;;
          Dom.set_className noComments "no-comments" ;;
          Dom.set_textContent noComments "Пока нет комментариев" ;;
          Dom.appendChild lst noComments
        else ret tt
    | None => ret tt
    end
  else alert_failure data.

Definition delete_comment_response (commentItem : option nat)
  : outcome num -> M unit :=
  settle (delete_comment_data commentItem)
         "Произошла ошибка при удалении комментария".
End Script.

(** * Vocabulary of the properties

    The definitions in which the properties of the script are stated and
    proved: contexts of a forest, decidable checks on identities, what a
    computation leaves unchanged, the steps of the script, observations of
    the page, and a concrete browser with two pages. *)

(** ** One-hole contexts

    A context is a forest with a hole among the children of one of its
    elements (or among its top-level trees).  An element of a forest with
    distinct identities sits in exactly one context, and the operations of
    the page aimed at it act inside the hole. *)

Module Ctx.
Import Tree.

Local Open Scope list_scope.


Inductive ctx : Type :=
| Here (pre post : list node)
| Under (pre : list node) (e : elem) (c : ctx) (post : list node).

Fixpoint plug (c : ctx) (h : list node) : list node :=
  match c with
  | Here pre post => pre ++ h ++ post
  | Under pre e c' post => pre ++ Elem e (plug c' h) :: post
  end.

(** Identities met before and after the hole, in document order. *)
Fixpoint cpre (c : ctx) : list nat :=
  match c with
  | Here pre _ => ids_f pre
  | Under pre e c' _ => ids_f pre ++ eid e :: cpre c'
  end.

Fixpoint cpost (c : ctx) : list nat :=
  match c with
  | Here _ post => ids_f post
  | Under _ _ c' post => cpost c' ++ ids_f post
  end.

Definition ctx_cons (n : node) (c : ctx) : ctx :=
  match c with
  | Here pre post => Here (n :: pre) post
  | Under pre e c' post => Under (n :: pre) e c' post
  end.

(** The selection before and after the hole of a context. *)
Fixpoint spre (p : elem -> bool) (c : ctx) : list nat :=
  match c with
  | Here pre _ => select_f p pre
  | Under pre e c' _ =>
      select_f p pre ++ (if p e then [eid e] else []) ++ spre p c'
  end.

Fixpoint spost (p : elem -> bool) (c : ctx) : list nat :=
  match c with
  | Here _ post => select_f p post
  | Under _ _ c' post => spost p c' ++ select_f p post
  end.

End Ctx.

(** ** Checks on identities *)

Module Checks.

Local Open Scope list_scope.

(** Decidable forms of the hypotheses on identities. *)
Fixpoint nodupb (l : list nat) : bool :=
  match l with
  | [] => true
  | x :: r => negb (existsb (Nat.eqb x) r) && nodupb r
  end.

Definition disjointb (l1 l2 : list nat) : bool :=
  forallb (fun x => negb (existsb (Nat.eqb x) l2)) l1.

End Checks.

(** ** The pieces of [escapeHtml] *)

Module Entities.

Definition entities : list string :=
  ["&amp;"; "&lt;"; "&gt;"; "&quot;"; "&#039;"].

Definition escape_chunk (c : ascii) : string :=
  if escape_class c
  then match escape_map c with Some s => s | None => "undefined" end
  else Str.of_char c.

Definition markup_char (c : ascii) : bool :=
  Ascii.eqb c "<" || Ascii.eqb c ">" || Ascii.eqb c Str.dquote
  || Ascii.eqb c "'".

Definition is_amp (c : ascii) : bool := Ascii.eqb c "&".

End Entities.

(** ** White space

    What [trim] takes off, said on the bytes of the string. *)

(** [white l]: the bytes [l] are white-space characters, one after
    another. *)
Fixpoint white (l : list ascii) : bool :=
  match l with
  | [] => true
  | a :: r1 =>
      if Str.ws1 (nat_of_ascii a) then white r1
      else
        match r1 with
        | [] => false
        | b :: r2 =>
            if Str.ws2 (nat_of_ascii a) (nat_of_ascii b) then white r2
            else
              match r2 with
              | [] => false
              | c :: r3 =>
                  Str.ws3 (nat_of_ascii a) (nat_of_ascii b) (nat_of_ascii c)
                  && white r3
              end
        end
  end.

(** The string is empty or holds white space only. *)
Definition only_space (s : string) : bool := white (Str.to_list s).

(** ** What a computation leaves unchanged *)

Module Frame.

(** [keeps f m]: running [m] does not change the part [f] of the state,
    whether [m] returns or throws. *)
Definition keeps {A X : Type} (f : state -> X) (m : M A) : Prop :=
  forall st, f (snd (m st)) = f st.

(** The part of the state that only [fetch] touches. *)
Definition net (st : state) : string * list fetch_call :=
  (cookie st, requests st).

(** The page. *)
Definition page_of (st : state) : list node * list node * nat :=
  (document st, detached st, next_id st).

End Frame.

(** ** The steps of the script

    Everything the script does after start-up is one of ten steps: a click
    reaches one of the five listeners, or the response of one of the five
    requests arrives.  A response step carries what the listener closed
    over. *)

Inductive action (num : Type) : Type :=
| FavoriteClick (this : nat)
| FavoriteResponse (this : nat) (o : outcome num)
| ReactionClick (this : nat)
| ReactionResponse (this : nat) (o : outcome num)
| AddCommentClick (this : nat)
| AddCommentResponse (articleId : option string) (commentInput : nat)
    (o : outcome num)
| EditCommentClick (target : nat) (answer : option string)
| EditCommentResponse (commentItem commentText : nat) (o : outcome num)
| DeleteCommentClick (target : nat) (answer : bool)
| DeleteCommentResponse (commentItem : option nat) (o : outcome num).

Arguments FavoriteClick {num} this.
Arguments FavoriteResponse {num} this o.
Arguments ReactionClick {num} this.
Arguments ReactionResponse {num} this o.
Arguments AddCommentClick {num} this.
Arguments AddCommentResponse {num} articleId commentInput o.
Arguments EditCommentClick {num} target answer.
Arguments EditCommentResponse {num} commentItem commentText o.
Arguments DeleteCommentClick {num} target answer.
Arguments DeleteCommentResponse {num} commentItem o.

Definition step {num} {H : Host num} (a : action num) (st : state) : state :=
  match a with
  | FavoriteClick this => snd (favorite_click this st)
  | FavoriteResponse this o => snd (favorite_response this o st)
  | ReactionClick this => snd (reaction_click this st)
  | ReactionResponse this o => snd (reaction_response this o st)
  | AddCommentClick this => snd (add_comment_click this st)
  | AddCommentResponse a i o => snd (add_comment_response a i o st)
  | EditCommentClick t ans => snd (edit_comment_click t ans st)
  | EditCommentResponse i t o => snd (edit_comment_response i t o st)
  | DeleteCommentClick t ans => snd (delete_comment_click t ans st)
  | DeleteCommentResponse i o => snd (delete_comment_response i o st)
  end.

Definition is_response {num} (a : action num) : option (outcome num) :=
  match a with
  | FavoriteResponse _ o | ReactionResponse _ o | AddCommentResponse _ _ o
  | EditCommentResponse _ _ o | DeleteCommentResponse _ o => Some o
  | _ => None
  end.

(** The response did not take the success branch: the promise chain was
    rejected, or [data.success] is falsy (or cannot be read). *)
Definition not_success {num} {H : Host num} (o : outcome num) : Prop :=
  match o with
  | Rejected _ => True
  | Parsed data =>
      match Js.get data "success" with
      | inl _ => True
      | inr s => Js.truthy s = false
      end
  end.

(** [st'] is [st] after one more alert and nothing else of the page, the
    cookies or the requests changed. *)
Definition one_alert (st st' : state) : Prop :=
  (exists msg, dialogs st' = (dialogs st ++ [Alert msg])%list)
  /\ document st' = document st
  /\ detached st' = detached st
  /\ next_id st' = next_id st
  /\ cookie st' = cookie st
  /\ requests st' = requests st.

(** ** The page as a store *)

Module Store.
Import Tree.

Local Open Scope nat_scope.
Local Open Scope list_scope.

(** All element identities of the store are distinct. *)
Definition wf (st : state) : Prop := NoDup (ids_f (Dom.roots st)).

(** Identities of the subtree of [x]. *)
Definition subtree_ids (x : nat) (st : state) : list nat :=
  match Dom.node_at x st with
  | Some n => ids n
  | None => []
  end.

(** A function on element data that keeps the identity. *)
Definition keeps_eid (g : elem -> elem) : Prop := forall e, eid (g e) = eid e.

Definition apply_elem (x : nat) (g : elem -> elem) (st : state) : state :=
  with_detached (map (map_elem x g) (detached st))
    (with_document (map (map_elem x g) (document st)) st).

Definition text_kids (s : string) : list node :=
  if Str.is_empty s then [] else [Text s].

End Store.

(** ** Where two forests differ

    [alike S n n']: the tree [n'] is the tree [n] but for what lies at and
    below the elements whose identity is in [S]; each of these is still in
    its place, with its identity. *)

Module Differ.

Unset Elimination Schemes.
Inductive alike (S : list nat) : node -> node -> Prop :=
| alike_text s : alike S (Text s) (Text s)
| alike_at e e' ks ks' :
    In (eid e) S -> eid e' = eid e -> alike S (Elem e ks) (Elem e' ks')
| alike_off e ks ks' :
    ~ In (eid e) S -> Forall2 (alike S) ks ks' ->
    alike S (Elem e ks) (Elem e ks').
Set Elimination Schemes.

Definition alike_f (S : list nat) : list node -> list node -> Prop :=
  Forall2 (alike S).

(** The elements of a tree that lie neither at nor below an element of
    [S]. *)
Fixpoint exposed (S : list nat) (n : node) : list nat :=
  match n with
  | Text _ => []
  | Elem e ks =>
      if existsb (Nat.eqb (eid e)) S then []
      else eid e :: flat_map (exposed S) ks
  end.

Definition exposed_f (S : list nat) (f : list node) : list nat :=
  flat_map (exposed S) f.

End Differ.

(** ** Observations of the page *)

Section Observations.
Import Tree.

(** [x.querySelector('.c')] as a function of the state. *)
Definition first_of (c : string) (x : nat) (st : state) : option nat :=
  hd_error (Tree.select_f (Tree.has_class c) (Dom.kids_at x st)).

Definition attribute (name : string) (x : nat) (st : state) : option string :=
  match Dom.elem_at x st with
  | Some e => Tree.lookup name (attrs e)
  | None => None
  end.

Definition shown_text (x : nat) (st : state) : string :=
  match Dom.node_at x st with
  | Some n => text n
  | None => ""
  end.

Definition shown_display (x : nat) (st : state) : string :=
  match Dom.elem_at x st with
  | Some e => display e
  | None => ""
  end.

(** Element identities are distinct, and all below [next_id]. *)
Definition distinct_ids (st : state) : bool :=
  Checks.nodupb (Tree.ids_f (Dom.roots st)).

Definition fresh_ids (st : state) : bool :=
  forallb (fun x => Nat.ltb x (next_id st)) (Tree.ids_f (Dom.roots st)).

End Observations.

(** ** Reaction buttons *)

Section ReactionModel.
Context {num : Type} {H : Host num}.
Import Tree Checks Store.

Local Open Scope list_scope.

Definition drop_active (e : elem) : elem := Dom.without_class "active" e.

Definition add_active (e : elem) : elem := Dom.with_class "active" e.

Definition button_classes (ur : value num) (attr : option string) (e : elem)
  : elem :=
  if Js.strict_eq ur attr then add_active (drop_active e) else drop_active e.

(** What a round that returns makes of the data of an element: the classes
    of the button [b] are set, the display of its count element [c] is
    written. *)
Definition round_elem (ur : value num) (attr : option string) (b c : nat)
    (d : string) (e : elem) : elem :=
  let e1 := if (eid e =? b)%nat then button_classes ur attr e else e in
  if (eid e1 =? c)%nat then Dom.with_display d e1 else e1.

(** The count of a button whose [data-reaction] is [attr] compares with
    zero without an error. *)
Definition comparable (rc : value num) (attr : option string) : bool :=
  match Js.gt0 (reaction_count rc attr) with
  | inr _ => true
  | inl _ => false
  end.

(** The text and the [display] that [updateReactionButtons] gives to the
    count element of a button whose [data-reaction] is [attr], when the
    count compares with zero. *)
Definition count_text (rc : value num) (attr : option string) : string :=
  match Js.gt0 (reaction_count rc attr) with
  | inr true =>
      match Js.text_of_value (reaction_count rc attr) with
      | inr s => s
      | inl _ => ""
      end
  | _ => ""
  end.

Definition count_display (rc : value num) (attr : option string) : string :=
  match Js.gt0 (reaction_count rc attr) with
  | inr true => "inline"
  | _ => "none"
  end.

(** The state after one round of the loop, on button [b] with count element
    [c]. *)
Definition button_state (rc ur : value num) (attr : option string)
    (b c : nat) (st : state) : state :=
  apply_elem c (Dom.with_display (count_display rc attr))
    (Dom.replace_children c (text_kids (count_text rc attr))
       (if Js.strict_eq ur attr
        then apply_elem b add_active (apply_elem b drop_active st)
        else apply_elem b drop_active st)).

(** The same round, seen on a subtree. *)
Definition button_after (rc ur : value num) (attr : option string)
    (b c : nat) (n : node) : node :=
  map_elem c (Dom.with_display (count_display rc attr))
    (set_kids c (text_kids (count_text rc attr))
       (if Js.strict_eq ur attr
        then map_elem b add_active (map_elem b drop_active n)
        else map_elem b drop_active n)).

Definition node_attr (n : node) : option string :=
  match n with
  | Elem e _ => lookup "data-reaction" (attrs e)
  | Text _ => None
  end.

Definition node_count (n : node) : option nat :=
  match n with
  | Elem _ ks => hd_error (select_f (has_class "reaction-count") ks)
  | Text _ => None
  end.

(** No identity of [n] occurs in the subtree of a button of [l]. *)
Definition apart (st : state) (l : list nat) (n : node) : Prop :=
  forall b, In b l -> forall x, In x (ids n) -> ~ In x (subtree_ids b st).

(** No two buttons of [l] share an element: none lies inside another. *)
Definition flat (st : state) (l : list nat) : Prop :=
  forall b b', In b l -> In b' l -> b <> b' ->
  forall x, In x (subtree_ids b st) -> ~ In x (subtree_ids b' st).

Definition counted (st : state) (l : list nat) : Prop :=
  forall b, In b l ->
  exists n c, Dom.node_at b st = Some n /\ node_count n = Some c.

(** The reaction buttons below the root of a subtree. *)
Definition buttons_in (n : node) : list nat :=
  match n with
  | Elem _ ks => select_f (has_class "reaction-btn") ks
  | Text _ => []
  end.

(** No reaction button lies inside the count element of a button of [l]. *)
Definition clean (st : state) (l : list nat) : Prop :=
  forall b n c,
    In b l -> Dom.node_at b st = Some n -> node_count n = Some c ->
    select_f (has_class "reaction-btn") (Dom.kids_at c st) = [].

(** Element [y] is not inside the count element of a button of [l]. *)
Definition outside_counts (st : state) (l : list nat) (y : nat) : Prop :=
  forall b n c,
    In b l -> Dom.node_at b st = Some n -> node_count n = Some c ->
    ~ In y (ids_f (Dom.kids_at c st)).

Definition buttons_of (card : nat) (st : state) : list nat :=
  select_f (has_class "reaction-btn") (Dom.kids_at card st).

Definition count_of (b : nat) (st : state) : option nat :=
  hd_error (select_f (has_class "reaction-count") (Dom.kids_at b st)).

Definition reaction_of (b : nat) (st : state) : option string :=
  match Dom.elem_at b st with
  | Some e => lookup "data-reaction" (attrs e)
  | None => None
  end.

Definition is_active (b : nat) (st : state) : bool :=
  match Dom.elem_at b st with
  | Some e => has_class "active" e
  | None => false
  end.

(** The card is as the page templates build it: element identities are
    distinct, every reaction button has a count element, and no reaction
    button lies inside another. *)
Definition card_ok (card : nat) (st : state) : bool :=
  nodupb (ids_f (Dom.roots st))
  && forallb (fun b => match count_of b st with Some _ => true | None => false end)
       (buttons_of card st)
  && forallb (fun b =>
       forallb (fun b' =>
         Nat.eqb b b' || disjointb (subtree_ids b st) (subtree_ids b' st))
         (buttons_of card st))
       (buttons_of card st).


(** Every count that the response gives to a button of the card compares
    with zero without an error. *)
Definition counts_compare (card : nat) (rc : value num) (st : state) : bool :=
  forallb (fun b => comparable rc (reaction_of b st)) (buttons_of card st).




End ReactionModel.

(** ** Favourite buttons *)

Section FavoriteModel.
Context {num : Type} {H : Host num}.

Definition favorite_star (fav : bool) : string := if fav then "⭐" else "☆".

Definition favorite_label (fav : bool) : string :=
  if fav then "Удалить из избранного" else "Добавить в избранное".

Definition is_favorite (data : value num) : bool :=
  match Js.get data "is_favorite" with
  | inr v => Js.truthy v
  | inl _ => false
  end.

End FavoriteModel.

(** ** Cookies and responses *)

(** The piece of [document.cookie] names the cookie: trimmed, it starts with
    [name=]. *)
Definition names (name piece : string) : bool :=
  String.prefix (name ++ "=") (Str.trim piece).

Definition percent_free (v : string) : bool :=
  forallb (fun c => negb (Ascii.eqb c "%")) (Str.to_list v).


(** The message of the [catch] handler of each request. *)
Definition failure_message {num} (a : action num) : option string :=
  match a with
  | FavoriteResponse _ _ => Some "Произошла ошибка при сохранении в избранное"
  | ReactionResponse _ _ => Some "Произошла ошибка при добавлении реакции"
  | AddCommentResponse _ _ _ =>
      Some "Произошла ошибка при добавлении комментария"
  | EditCommentResponse _ _ _ =>
      Some "Произошла ошибка при редактировании комментария"
  | DeleteCommentResponse _ _ => Some "Произошла ошибка при удалении комментария"
  | _ => None
  end.

(** What the response step does with parsed data, before [catch]. *)
Definition data_handler {num} {H : Host num} (a : action num)
  : option (value num -> M unit) :=
  match a with
  | FavoriteResponse this _ => Some (favorite_data this)
  | ReactionResponse this _ => Some (reaction_data this)
  | AddCommentResponse articleId input _ =>
      Some (add_comment_data articleId input)
  | EditCommentResponse item ctext _ => Some (edit_comment_data item ctext)
  | DeleteCommentResponse item _ => Some (delete_comment_data item)
  | _ => None
  end.

(** [st'] is [st] after [console.error] of [e] and the alert [msg]. *)
Definition reported (e : exn) (msg : string) (st st' : state) : Prop :=
  console st' = (console st ++ [e])%list
  /\ dialogs st' = (dialogs st ++ [Alert msg])%list
  /\ document st' = document st
  /\ detached st' = detached st
  /\ next_id st' = next_id st
  /\ cookie st' = cookie st
  /\ requests st' = requests st.

(** What the user and the server see of the state. *)
Definition talk (st : state)
  : list dialog * list exn * string * list fetch_call :=
  (dialogs st, console st, cookie st, requests st).

(** The element [addCommentToDOM] creates, before it is given children. *)
Definition comment_element (x : nat) (id : string) : elem :=
  mkElem x "div" ["comment-item"] [("data-comment-id", id)] "" None.

(** The selector [addCommentToDOM] looks the comments list up with. *)
Definition list_selector (articleId : option string) : string :=
  ".comments-list[data-article-id=" ++ Str.of_char Str.dquote
  ++ Js.attr_string articleId ++ Str.of_char Str.dquote ++ "]".

(** The children of the list once its first placeholder, if it has one, is
    removed. *)
Definition without_placeholder (lst : nat) (st : state) : list node :=
  match first_of "no-comments" lst st with
  | Some p => Tree.prune_f p (Dom.kids_at lst st)
  | None => Dom.kids_at lst st
  end.

(** ** The window: listeners and timers

    What the script registers when it is loaded and when
    [DOMContentLoaded] fires: click listeners on elements and on the
    document, and timers.  A click listener on an element is one of the
    three functions the [init] functions pass to [addEventListener]; the
    two listeners on [document] are those of [initCommentHandlers]. *)

Inductive listener : Type :=
| OnFavorite
| OnReaction
| OnAddComment.

Inductive delegate : Type :=
| OnEdit
| OnDelete.

(** The two callbacks given to [setTimeout] for a message. *)
Inductive task : Type :=
| Fade (msg : nat)
| Drop (msg : nat).

Record window : Type := mkWindow {
  dom : state;
  log : list string;
  ready : bool;
  opacity : list (nat * string);
  bound : list (nat * listener);
  delegated : list delegate;
  timers : list (nat * task);
  clock : nat;
  uncaught : list exn
}.

Definition with_dom (st : state) (w : window) : window :=
  mkWindow st (log w) (ready w) (opacity w) (bound w) (delegated w)
           (timers w) (clock w) (uncaught w).

Definition with_bound (b : list (nat * listener)) (w : window) : window :=
  mkWindow (dom w) (log w) (ready w) (opacity w) b (delegated w)
           (timers w) (clock w) (uncaught w).

Definition with_timers (t : list (nat * task)) (w : window) : window :=
  mkWindow (dom w) (log w) (ready w) (opacity w) (bound w) (delegated w)
           t (clock w) (uncaught w).

(** A window in which no script has run yet. *)
Definition blank (st : state) : window :=
  mkWindow st [] false [] [] [] [] 0 [].

(** [setTimeout(t, delay)]. *)
Definition setTimeout (t : task) (delay : nat) (w : window) : window :=
  with_timers (timers w ++ [(clock w + delay, t)])%list w.

(** [document.querySelectorAll('.c')]. *)
Definition document_querySelectorAll (c : string) (w : window) : list nat :=
  Tree.select_f (Tree.has_class c) (document (dom w)).

(** [list.forEach(btn => btn.addEventListener('click', l))]. *)
Definition bind_all (l : listener) (btns : list nat) (w : window) : window :=
  with_bound (bound w ++ map (fun b => (b, l)) btns)%list w.

Definition initFavoriteButtons (w : window) : window :=
  bind_all OnFavorite (document_querySelectorAll "favorite-btn" w) w.

Definition initReactionButtons (w : window) : window :=
  bind_all OnReaction (document_querySelectorAll "reaction-btn" w) w.

Definition initCommentHandlers (w : window) : window :=
  let w1 := bind_all OnAddComment (document_querySelectorAll "add-comment-btn" w) w in
  mkWindow (dom w1) (log w1) (ready w1) (opacity w1) (bound w1)
           (delegated w1 ++ [OnEdit; OnDelete])%list
           (timers w1) (clock w1) (uncaught w1).

(** The top level of the script: the log line and the registration of the
    [DOMContentLoaded] listener. *)
Definition script (w : window) : window :=
  mkWindow (dom w) (log w ++ ["NewsHub loaded"])%list true (opacity w)
           (bound w) (delegated w) (timers w) (clock w) (uncaught w).

(** The [DOMContentLoaded] listener. *)
Definition on_ready (w : window) : window :=
  let messages := document_querySelectorAll "alert" w in
  let w1 := fold_left (fun w msg => setTimeout (Fade msg) 5000 w) messages w in
  initCommentHandlers (initReactionButtons (initFavoriteButtons w1)).

Definition DOMContentLoaded (w : window) : window :=
  if ready w then on_ready w else w.

(** The callbacks of the timers: [msg.style.opacity = '0'] followed by
    [setTimeout(() => msg.remove(), 300)], and [msg.remove()]. *)
Definition run_task (t : task) (w : window) : window :=
  match t with
  | Fade msg =>
      setTimeout (Drop msg) 300
        (mkWindow (dom w) (log w) (ready w) ((msg, "0") :: opacity w)
                  (bound w) (delegated w) (timers w) (clock w) (uncaught w))
  | Drop msg => with_dom (snd (Dom.remove msg (dom w))) w
  end.

(** The timer that fires next: the earliest due, the first registered among
    those; with it, the timers that stay. *)
Fixpoint pick (l : list (nat * task))
  : option ((nat * task) * list (nat * task)) :=
  match l with
  | [] => None
  | x :: r =>
      match pick r with
      | None => Some (x, [])
      | Some (y, r') =>
          if Nat.leb (fst x) (fst y) then Some (x, r) else Some (y, x :: r')
      end
  end.

(** One timer fires, when it is due or later. *)
Definition fire (w : window) : option window :=
  match pick (timers w) with
  | None => None
  | Some ((due, t), rest) =>
      Some (run_task t
              (mkWindow (dom w) (log w) (ready w) (opacity w) (bound w)
                        (delegated w) rest (Nat.max (clock w) due)
                        (uncaught w)))
  end.

Fixpoint fire_all (fuel : nat) (w : window) : window :=
  match fuel with
  | O => w
  | S n => match fire w with Some w' => fire_all n w' | None => w end
  end.

Definition opacity_of (x : nat) (w : window) : option string :=
  option_map snd (List.find (fun p => Nat.eqb (fst p) x) (opacity w)).

(** *** Clicks *)

Definition listeners_at (x : nat) (w : window) : list listener :=
  map snd (filter (fun b => Nat.eqb (fst b) x) (bound w)).

(** The listeners that call [e.stopPropagation()]. *)
Definition stops (l : listener) : bool :=
  match l with
  | OnFavorite | OnReaction => true
  | OnAddComment => false
  end.

(** A listener runs on the page; what it throws is reported and does not
    reach the other listeners. *)
Definition invoke {A} (m : M A) (w : window) : window :=
  match m (dom w) with
  | (Ok _, st) => with_dom st w
  | (Throw e, st) =>
      mkWindow st (log w) (ready w) (opacity w) (bound w) (delegated w)
               (timers w) (clock w) (uncaught w ++ [e])%list
  end.

Section Dispatch.
Context {num : Type} {H : Host num}.

Definition listener_body (l : listener) (this : nat) : M unit :=
  match l with
  | OnFavorite => favorite_click this
  | OnReaction => reaction_click this
  | OnAddComment => add_comment_click this ;; ret tt
  end.

Definition delegate_body (d : delegate) (target : nat)
    (answer : option string) (confirmed : bool) : M unit :=
  match d with
  | OnEdit => edit_comment_click target answer ;; ret tt
  | OnDelete => delete_comment_click target confirmed ;; ret tt
  end.

(** The listeners of one element, in the order of their registration; the
    flag tells whether one of them stopped the propagation. *)
Fixpoint run_listeners (ls : list listener) (this : nat) (w : window)
  : window * bool :=
  match ls with
  | [] => (w, false)
  | l :: r =>
      let (w', s) := run_listeners r this (invoke (listener_body l this) w) in
      (w', stops l || s)
  end.

(** The event goes from the target up to the root, until a listener stops
    it. *)
Fixpoint bubble (path : list nat) (w : window) : window * bool :=
  match path with
  | [] => (w, false)
  | x :: up =>
      let (w', s) := run_listeners (listeners_at x w) x w in
      if s then (w', true) else bubble up w'
  end.

(** A click on [target], an element of the document.  [answer] and
    [confirmed] are what the user gives to [prompt] and [confirm], should
    they be shown. *)
Definition click (target : nat) (answer : option string) (confirmed : bool)
    (w : window) : window :=
  match Tree.first_some (Tree.path_to target) (document (dom w)) with
  | None => w
  | Some chain =>
      let (w', stopped) := bubble (rev (map eid chain)) w in
      if stopped then w'
      else fold_left
             (fun w d => invoke (delegate_body d target answer confirmed) w)
             (delegated w') w'
  end.

End Dispatch.

(** The window once the script has run and [DOMContentLoaded] has fired. *)
Definition loaded (st : state) : window :=
  DOMContentLoaded (script (blank st)).

(** The class of the buttons a listener is bound to. *)
Definition button_class (l : listener) : string :=
  match l with
  | OnFavorite => "favorite-btn"
  | OnReaction => "reaction-btn"
  | OnAddComment => "add-comment-btn"
  end.

(** [x] is an element of the document with class [c]. *)
Definition in_document_with (c : string) (x : nat) (st : state) : bool :=
  existsb (Nat.eqb x) (Tree.select_f (Tree.has_class c) (document st)).

(** The listeners [x] was given at load, on the page [st0] of that time. *)
Definition bound_at_load (x : nat) (st0 : state) : list listener :=
  filter (fun l => in_document_with (button_class l) x st0)
    [OnFavorite; OnReaction; OnAddComment].

Definition unbound_at_load (st0 : state) (x : nat) : bool :=
  match bound_at_load x st0 with [] => true | _ :: _ => false end.

(** ** A host to run the script on examples

    Numbers are integers, with [None] for NaN.  The parsers are small
    stand-ins: they are enough to run the handlers on the pages below and
    play no part in the general theorems. *)

Module Example.

Definition num : Type := option Z.

Definition z_to_string (z : Z) : string := NilEmpty.string_of_int (Z.to_int z).

Definition digit (c : ascii) : option Z :=
  let n := nat_of_ascii c in
  if ((48 <=? n) && (n <=? 57))%nat then Some (Z.of_nat (n - 48)) else None.

Fixpoint digits (acc : Z) (s : string) : option Z :=
  match s with
  | EmptyString => Some acc
  | String c r =>
      match digit c with
      | Some d => digits (10 * acc + d)%Z r
      | None => None
      end
  end.

Fixpoint json_string (s : string) : string :=
  match s with
  | EmptyString => EmptyString
  | String c r =>
      (if Ascii.eqb c Str.dquote || Ascii.eqb c "\"
       then String "\" (Str.of_char c) else Str.of_char c) ++ json_string r
  end.

Definition json_atom (v : value num) : option string :=
  match v with
  | VUndefined => None
  | VNull => Some "null"
  | VBool true => Some "true"
  | VBool false => Some "false"
  | VNum (Some z) => Some (z_to_string z)
  | VNum None => Some "null"
  | VStr s => Some (Str.of_char Str.dquote ++ json_string s ++ Str.of_char Str.dquote)
  | VArr _ => Some "[]"
  | VObj _ => Some "{}"
  | VNative _ => None
  end.

Definition json_object (v : value num) : string :=
  match v with
  | VObj fs =>
      "{" ++ String.concat ","
               (flat_map (fun kv =>
                  match json_atom (snd kv) with
                  | Some s => [Str.of_char Str.dquote ++ json_string (fst kv)
                               ++ Str.of_char Str.dquote ++ ":" ++ s]
                  | None => []
                  end) fs) ++ "}"
  | _ => match json_atom v with Some s => s | None => "" end
  end.

Definition json_parse (s : string) : option (value num) :=
  if String.eqb s "{}" then Some (VObj [])
  else if String.eqb s "null" then Some VNull
  else None.

Fixpoint until_quote (s : string) : option (string * string) :=
  match s with
  | EmptyString => None
  | String c r =>
      if Ascii.eqb c Str.dquote then Some (EmptyString, r)
      else match until_quote r with
           | Some (v, rest) => Some (String c v, rest)
           | None => None
           end
  end.

Definition css (s : string) : option selector :=
  let head := ".comments-list[data-article-id=" ++ Str.of_char Str.dquote in
  if String.prefix head s then
    match until_quote (Str.substring_from (String.length head) s) with
    | Some (v, rest) =>
        if String.eqb rest "]"
        then Some [[SelClass "comments-list"; SelAttr "data-article-id" v]]
        else None
    | None => None
    end
  else None.

#[export] Instance host : Host num := {
  num_truthy n := match n with Some z => negb (Z.eqb z 0) | None => false end;
  num_gt0 n := match n with Some z => Z.ltb 0 z | None => false end;
  num_to_string n := match n with Some z => z_to_string z | None => "NaN" end;
  num_of_string s := if Str.is_empty s then Some 0%Z else digits 0 s;
  num_of_nat n := Some (Z.of_nat n);
  num_zero := Some 0%Z;
  num_zero_gt0 := eq_refl;
  proto_has _ k :=
    existsb (String.eqb k)
      ["constructor"; "hasOwnProperty"; "isPrototypeOf";
       "propertyIsEnumerable"; "toLocaleString"; "toString"; "valueOf";
       "__proto__"];
  native_to_string k := "function " ++ k ++ "() { [native code] }";
  JSON_parse := json_parse;
  JSON_stringify := json_object;
  parseHTML n s := ([Text s], n);
  css_parse := css
}.

Definition el (x : nat) (t : string) (cs : list string)
    (a : list (string * string)) : elem :=
  mkElem x t cs a "" None.

Definition page (doc : list node) (n : nat) (ck : string) : state :=
  mkState doc [] n ck [] [] [].

(** A news card with a favourite button and two reaction buttons. *)
Definition card : node :=
  Elem (el 1 "div" ["news-card"] [])
    [ Elem (el 2 "button" ["favorite-btn"]
              [("data-url", "u"); ("data-source", "{}")])
        [Elem (el 3 "span" ["favorite-icon"] []) [Text "☆"]];
      Elem (el 4 "button" ["reaction-btn"; "active"]
              [("data-reaction", "liked"); ("data-url", "u")])
        [Text "x"; Elem (el 5 "span" ["reaction-count"] []) [Text "1"]];
      Elem (el 6 "button" ["reaction-btn"]
              [("data-reaction", "useful"); ("data-url", "u")])
        [Elem (el 7 "span" ["reaction-count"] []) []] ].

(** A list with one comment, and the form to add one. *)
Definition comments : node :=
  Elem (el 10 "div" ["comments-list"] [("data-article-id", "7")])
    [ Elem (el 11 "div" ["comment-item"] [("data-comment-id", "3")])
        [ Elem (el 12 "p" ["comment-text"] []) [Text " hello "];
          Elem (el 13 "span" ["comment-date"] []) [Text "01.03.2025 20:00"];
          Elem (el 14 "button" ["edit-comment-btn"] [("data-comment-id", "3")]) [];
          Elem (el 15 "button" ["delete-comment-btn"] [("data-comment-id", "3")])
            [] ] ].

Definition form : node :=
  Elem (el 20 "div" [] [])
    [ Elem (mkElem 21 "textarea" [] [] "" (Some "  hi ")) [];
      Text " ";
      Elem (el 22 "button" ["add-comment-btn"] [("data-article-id", "7")]) [] ].

Definition news_page : state := page [card] 50 "a=b; csrftoken=abc%20d".

Definition comments_page : state := page [comments; form] 50 "csrftoken=tok".

Definition useful_counts : value num := VObj [("useful", VNum (Some 3%Z))].

Definition favorite_added : value num :=
  VObj [("success", VBool true); ("is_favorite", VBool true)].

Definition saved_comment : value num :=
  VObj [("id", VNum (Some 3%Z)); ("text", VStr "new text");
        ("created_at", VStr "01.03.2025 20:00")].

Definition edit_saved : value num :=
  VObj [("success", VBool true); ("comment", saved_comment)].

(** A page with two messages, one inside a banner. *)
Definition flash_page : state :=
  page [ Elem (el 30 "div" ["banner"] [])
           [Elem (el 31 "div" ["alert"] []) [Text "saved"]];
         Elem (el 32 "div" ["alert"; "alert-error"] []) [Text "failed"];
         card ] 50 "csrftoken=tok".

(** A comment without a date, and a delete button outside any comment. *)
Definition bare_page : state :=
  page [ Elem (el 40 "div" ["comment-item"] [])
           [ Elem (el 41 "p" ["comment-text"] []) [Text "old"] ];
         Elem (el 42 "button" ["delete-comment-btn"]
                 [("data-comment-id", "9")]) [] ] 50 "csrftoken=tok".

Definition comment_added : value num :=
  VObj [("success", VBool true); ("comment", saved_comment)].

Definition refused : value num :=
  VObj [("success", VBool false); ("error", VStr "Комментарий не найден")].

(** The page of comments with a cookie that cannot be decoded. *)
Definition bad_cookie_page : state := page [comments; form] 50 "csrftoken=%".

(** The page of comments with white space only in the form: a space, a tab
    and a no-break space. *)
Definition blank_text : string :=
  String " " (String Str.tab
    (String (ascii_of_nat 194) (String (ascii_of_nat 160) ""))).

Definition blank_form : node :=
  Elem (el 20 "div" [] [])
    [ Elem (mkElem 21 "textarea" [] [] "" (Some blank_text)) [];
      Elem (el 22 "button" ["add-comment-btn"] [("data-article-id", "7")]) [] ].

Definition blank_page : state := page [comments; blank_form] 50 "csrftoken=tok".

(** A card with two buttons for the same reaction. *)
Definition twin_card : node :=
  Elem (el 1 "div" ["news-card"] [])
    [ Elem (el 2 "button" ["reaction-btn"] [("data-reaction", "liked")])
        [Elem (el 3 "span" ["reaction-count"] []) []];
      Elem (el 4 "button" ["reaction-btn"] [("data-reaction", "liked")])
        [Elem (el 5 "span" ["reaction-count"] []) []] ].

Definition twin_page : state := page [twin_card] 50 "csrftoken=tok".

(** A card whose first reaction button has no count element. *)
Definition bare_card : node :=
  Elem (el 1 "div" ["news-card"] [])
    [ Elem (el 2 "button" ["reaction-btn"] [("data-reaction", "liked")]) [];
      Elem (el 4 "button" ["reaction-btn"; "active"]
              [("data-reaction", "useful")])
        [Elem (el 5 "span" ["reaction-count"] []) [Text "1"]] ].

Definition bare_card_page : state := page [bare_card] 50 "csrftoken=tok".

(** A card with a favourite button that shows the full star. *)
Definition starred_page : state :=
  page [ Elem (el 1 "div" ["news-card"] [])
           [ Elem (el 2 "button" ["favorite-btn"]
                     [("data-url", "u"); ("title", "Удалить из избранного")])
               [Elem (el 3 "span" ["favorite-icon"] []) [Text "⭐"]; Text "!"] ] ]
    50 "csrftoken=tok".

Definition favorite_removed : value num :=
  VObj [("success", VBool true); ("is_favorite", VBool false)].

(** An edited comment with a later date, and a comment with markup in each
    of its fields. *)
Definition edited_comment : value num :=
  VObj [("id", VNum (Some 3%Z)); ("text", VStr "new text");
        ("created_at", VStr "02.03.2025 10:00")].

Definition edit_dated : value num :=
  VObj [("success", VBool true); ("comment", edited_comment)].

Definition markup_comment : value num :=
  VObj [("id", VStr "<u>"); ("text", VStr "a<b & 'c'");
        ("created_at", VStr "<i>now</i>")].

(** A response whose [error] has a [toString] that is no function. *)
Definition refused_oddly : value num :=
  VObj [("success", VBool false);
        ("error", VObj [("toString", VNum (Some 1%Z))])].

End Example.

(** * Properties *)

(** ** Trees and forests *)

Module TreeFacts.
Import Tree Ctx Checks.

Local Open Scope nat_scope.
Local Open Scope list_scope.

(** Induction on a node together with its list of children. *)
Lemma node_forest_ind (P : node -> Prop) (Q : list node -> Prop) :
  (forall s, P (Text s)) ->
  (forall e ks, Q ks -> P (Elem e ks)) ->
  Q [] ->
  (forall n ks, P n -> Q ks -> Q (n :: ks)) ->
  (forall n, P n) /\ (forall ks, Q ks).
Proof.
  intros HT HE HN HC.
  assert (HP : forall n, P n).
  { fix IH 1. intros [s | e ks].
    - apply HT.
    - apply HE. induction ks as [| k r IHr].
      + exact HN.
      + apply HC; [apply IH | exact IHr]. }
  split; [exact HP |].
  induction ks as [| k r IHr]; [exact HN | apply HC; auto].
Qed.

Lemma ids_f_cons n f : ids_f (n :: f) = ids n ++ ids_f f.
Proof. reflexivity. Qed.

Lemma ids_f_app f g : ids_f (f ++ g) = ids_f f ++ ids_f g.
Proof. unfold ids_f. apply flat_map_app. Qed.

Lemma find_f_cons x n f :
  find_f x (n :: f) =
  match find x n with Some t => Some t | None => find_f x f end.
Proof. reflexivity. Qed.

Lemma find_f_app x f g :
  find_f x (f ++ g) =
  match find_f x f with Some t => Some t | None => find_f x g end.
Proof.
  induction f as [| n f IH]; [reflexivity |].
  rewrite <- app_comm_cons, !find_f_cons.
  destruct (find x n); [reflexivity | exact IH].
Qed.

(** An identity that does not occur is not found, and operations aimed at it
    change nothing. *)
Lemma absent_find x :
  (forall n, ~ In x (ids n) -> find x n = None)
  /\ (forall f, ~ In x (ids_f f) -> find_f x f = None).
Proof.
  apply node_forest_ind.
  - reflexivity.
  - intros e ks IH Hn. simpl in *.
    destruct (Nat.eqb_spec (eid e) x) as [Heq | Hne].
    + exfalso. apply Hn. now left.
    + apply IH. intro Hin. apply Hn. now right.
  - reflexivity.
  - intros n ks IHn IHks Hn. rewrite find_f_cons. rewrite ids_f_cons in Hn.
    rewrite IHn by (intro; apply Hn, in_or_app; now left).
    apply IHks. intro; apply Hn, in_or_app; now right.
Qed.

Lemma find_root x :
  (forall n t, find x n = Some t -> exists e ks, t = Elem e ks /\ eid e = x)
  /\ (forall f t, find_f x f = Some t -> exists e ks, t = Elem e ks /\ eid e = x).
Proof.
  apply node_forest_ind.
  - discriminate.
  - intros e ks IH t. simpl.
    destruct (Nat.eqb_spec (eid e) x) as [Heq | Hne].
    + intros [= <-]. eauto.
    + apply IH.
  - discriminate.
  - intros n ks IHn IHks t. rewrite find_f_cons.
    destruct (find x n) eqn:E; [intros [= <-]; eauto | apply IHks].
Qed.

Lemma find_incl x :
  (forall n t, find x n = Some t -> incl (ids t) (ids n))
  /\ (forall f t, find_f x f = Some t -> incl (ids t) (ids_f f)).
Proof.
  apply node_forest_ind.
  - discriminate.
  - intros e ks IH t. simpl.
    destruct (Nat.eqb_spec (eid e) x) as [Heq | Hne].
    + intros [= <-]. apply incl_refl.
    + intros Hf. apply incl_tl. now apply IH.
  - discriminate.
  - intros n ks IHn IHks t. rewrite find_f_cons, ids_f_cons.
    destruct (find x n) eqn:E.
    + intros [= <-]. apply incl_appl. now apply IHn.
    + intros Hf. apply incl_appr. now apply IHks.
Qed.

Lemma found_in x f t : find_f x f = Some t -> In x (ids_f f).
Proof.
  intros Hf. destruct (proj2 (find_root x) _ _ Hf) as (e & ks & -> & <-).
  apply (proj2 (find_incl (eid e)) _ _ Hf). now left.
Qed.

Lemma in_found x f : In x (ids_f f) -> exists t, find_f x f = Some t.
Proof.
  intros Hin. destruct (find_f x f) eqn:E; [eauto |].
  exfalso. revert Hin. 
  assert (Hc : forall g, find_f x g = None -> ~ In x (ids_f g)).
  { clear. 
    assert (Hboth :
      (forall n, find x n = None -> ~ In x (ids n))
      /\ (forall g, find_f x g = None -> ~ In x (ids_f g))).
    { apply node_forest_ind.
      - intros s _ [].
      - intros e ks IH. simpl.
        destruct (Nat.eqb_spec (eid e) x) as [Heq | Hne]; [discriminate |].
        intros Hf [Heq | Hin]; [contradiction | now apply IH in Hf].
      - intros _ [].
      - intros n ks IHn IHks. rewrite find_f_cons, ids_f_cons.
        destruct (find x n) eqn:E; [discriminate |].
        intros Hf Hin. apply in_app_or in Hin as [Hin | Hin].
        + now apply IHn in Hin.
        + now apply IHks in Hin. }
    apply Hboth. }
  now apply Hc.
Qed.

Lemma absent_map_elem x g :
  (forall n, ~ In x (ids n) -> map_elem x g n = n)
  /\ (forall f, ~ In x (ids_f f) -> map (map_elem x g) f = f).
Proof.
  apply node_forest_ind.
  - reflexivity.
  - intros e ks IH Hn. simpl in *.
    destruct (Nat.eqb_spec (eid e) x) as [Heq | Hne].
    + exfalso. apply Hn. now left.
    + f_equal. apply IH. intro Hin. apply Hn. now right.
  - reflexivity.
  - intros n ks IHn IHks Hn. rewrite ids_f_cons in Hn. simpl.
    rewrite IHn by (intro; apply Hn, in_or_app; now left).
    f_equal. apply IHks. intro; apply Hn, in_or_app; now right.
Qed.

Lemma absent_set_kids x new :
  (forall n, ~ In x (ids n) -> set_kids x new n = n)
  /\ (forall f, ~ In x (ids_f f) -> map (set_kids x new) f = f).
Proof.
  apply node_forest_ind.
  - reflexivity.
  - intros e ks IH Hn. simpl in *.
    destruct (Nat.eqb_spec (eid e) x) as [Heq | Hne].
    + exfalso. apply Hn. now left.
    + f_equal. apply IH. intro Hin. apply Hn. now right.
  - reflexivity.
  - intros n ks IHn IHks Hn. rewrite ids_f_cons in Hn. simpl.
    rewrite IHn by (intro; apply Hn, in_or_app; now left).
    f_equal. apply IHks. intro; apply Hn, in_or_app; now right.
Qed.

Lemma absent_add_kid x c :
  (forall n, ~ In x (ids n) -> add_kid x c n = n)
  /\ (forall f, ~ In x (ids_f f) -> map (add_kid x c) f = f).
Proof.
  apply node_forest_ind.
  - reflexivity.
  - intros e ks IH Hn. simpl in *.
    destruct (Nat.eqb_spec (eid e) x) as [Heq | Hne].
    + exfalso. apply Hn. now left.
    + f_equal. apply IH. intro Hin. apply Hn. now right.
  - reflexivity.
  - intros n ks IHn IHks Hn. rewrite ids_f_cons in Hn. simpl.
    rewrite IHn by (intro; apply Hn, in_or_app; now left).
    f_equal. apply IHks. intro; apply Hn, in_or_app; now right.
Qed.

Lemma prune_f_cons x n f :
  prune_f x (n :: f) = (if has_id x n then [] else [prune x n]) ++ prune_f x f.
Proof. reflexivity. Qed.

Lemma absent_prune x :
  (forall n, ~ In x (ids n) -> prune x n = n)
  /\ (forall f, ~ In x (ids_f f) -> prune_f x f = f).
Proof.
  apply node_forest_ind.
  - reflexivity.
  - intros e ks IH Hn. simpl in *. f_equal.
    apply IH. intro Hin. apply Hn. now right.
  - reflexivity.
  - intros n ks IHn IHks Hn. rewrite ids_f_cons in Hn. rewrite prune_f_cons.
    assert (Hid : has_id x n = false).
    { destruct n as [s | e ks']; [reflexivity |]. simpl.
      apply Nat.eqb_neq. intros Heq. apply Hn. simpl. now left. }
    rewrite Hid, IHn by (intro; apply Hn, in_or_app; now left).
    simpl. f_equal. apply IHks. intro; apply Hn, in_or_app; now right.
Qed.

Lemma absent_path_to x :
  (forall n, ~ In x (ids n) -> path_to x n = None)
  /\ (forall f, ~ In x (ids_f f) -> first_some (path_to x) f = None).
Proof.
  apply node_forest_ind.
  - reflexivity.
  - intros e ks IH Hn. simpl in *.
    destruct (Nat.eqb_spec (eid e) x) as [Heq | Hne].
    + exfalso. apply Hn. now left.
    + rewrite IH; [reflexivity |]. intro Hin. apply Hn. now right.
  - reflexivity.
  - intros n ks IHn IHks Hn. rewrite ids_f_cons in Hn. simpl.
    rewrite IHn by (intro; apply Hn, in_or_app; now left).
    apply IHks. intro; apply Hn, in_or_app; now right.
Qed.

Lemma find_none x :
  (forall n, find x n = None -> ~ In x (ids n))
  /\ (forall f, find_f x f = None -> ~ In x (ids_f f)).
Proof.
  apply node_forest_ind.
  - intros s _ [].
  - intros e ks IH. simpl.
    destruct (Nat.eqb_spec (eid e) x) as [Heq | Hne]; [discriminate |].
    intros Hf [Heq | Hin]; [contradiction | now apply IH in Hf].
  - intros _ [].
  - intros n ks IHn IHks. rewrite find_f_cons, ids_f_cons.
    destruct (find x n) eqn:E; [discriminate |].
    intros Hf Hin. apply in_app_or in Hin as [Hin | Hin].
    + now apply IHn in Hin.
    + now apply IHks in Hin.
Qed.

(** *** Contexts *)

Lemma plug_ctx_cons n c h : plug (ctx_cons n c) h = n :: plug c h.
Proof. destruct c; reflexivity. Qed.

Lemma cpre_ctx_cons n c : cpre (ctx_cons n c) = ids n ++ cpre c.
Proof. destruct c; simpl; [reflexivity | now rewrite <- app_assoc]. Qed.

Lemma ids_plug c h : ids_f (plug c h) = cpre c ++ ids_f h ++ cpost c.
Proof.
  induction c as [pre post | pre e c IH post]; simpl.
  - now rewrite !ids_f_app.
  - rewrite ids_f_app, ids_f_cons. simpl. fold (ids_f (plug c h)).
    rewrite IH. repeat (rewrite <- app_assoc; simpl). reflexivity.
Qed.

(** Where an element is found, the forest is a context around it. *)
Lemma find_decompose x :
  (forall n t, find x n = Some t ->
     t = n \/ exists e ks c, n = Elem e ks /\ eid e <> x
                             /\ ks = plug c [t] /\ ~ In x (cpre c))
  /\ (forall f t, find_f x f = Some t ->
        exists c, f = plug c [t] /\ ~ In x (cpre c)).
Proof.
  apply node_forest_ind.
  - discriminate.
  - intros e ks IH t. simpl.
    destruct (Nat.eqb_spec (eid e) x) as [Heq | Hne].
    + intros [= <-]. now left.
    + intros Hf. right. destruct (IH _ Hf) as (c & -> & Hc).
      exists e, (plug c [t]), c. auto.
  - discriminate.
  - intros n ks IHn IHks t. rewrite find_f_cons.
    destruct (find x n) eqn:E.
    + intros [= <-]. destruct (IHn _ eq_refl) as [-> | (e & ks' & c & -> & Hne & -> & Hc)].
      * exists (Here [] ks). split; [reflexivity | intros []].
      * exists (Under [] e c ks). split; [reflexivity |].
        simpl. intros [Heq | Hin]; contradiction.
    + intros Hf. destruct (IHks _ Hf) as (c & -> & Hc).
      exists (ctx_cons n c). rewrite plug_ctx_cons, cpre_ctx_cons.
      split; [reflexivity |]. intros Hin. apply in_app_or in Hin as [Hin | Hin].
      * now apply (proj1 (find_none x)) in E.
      * contradiction.
Qed.

Lemma find_plug x c h t :
  ~ In x (cpre c) -> find_f x h = Some t -> find_f x (plug c h) = Some t.
Proof.
  intros Hc Hf. induction c as [pre post | pre e c IH post]; simpl in *.
  - rewrite !find_f_app, (proj2 (absent_find x) pre Hc), Hf. reflexivity.
  - rewrite find_f_app, find_f_cons.
    rewrite (proj2 (absent_find x) pre) by (intro; apply Hc, in_or_app; now left).
    simpl. destruct (Nat.eqb_spec (eid e) x) as [Heq | Hne].
    + exfalso. apply Hc, in_or_app. right. now left.
    + fold (find_f x (plug c h)). rewrite IH; [reflexivity |].
      intro. apply Hc, in_or_app. right. now right.
Qed.

Lemma hd_error_in {A} (l : list A) a : hd_error l = Some a -> In a l.
Proof. destruct l; [discriminate | intros [= ->]; now left]. Qed.

Lemma nodup_app_inv {A} (a b : list A) :
  NoDup (a ++ b) -> NoDup a /\ NoDup b /\ (forall x, In x a -> ~ In x b).
Proof.
  intros Hn. split; [now apply NoDup_app_remove_r in Hn |].
  split; [now apply NoDup_app_remove_l in Hn |].
  induction a as [| y a IH]; [intros x [] |].
  simpl in Hn. inversion Hn as [| ? ? Hy Hn']; subst.
  intros x [-> | Hin] Hb.
  - apply Hy, in_or_app. now right.
  - now apply (IH Hn' x).
Qed.

Section MapLike.
Variable x : nat.
Variable op : node -> node.
Hypothesis op_absent : forall f, ~ In x (ids_f f) -> map op f = f.
Hypothesis op_elem :
  forall e ks, eid e <> x -> op (Elem e ks) = Elem e (map op ks).

Lemma op_plug c h :
  ~ In x (cpre c) -> ~ In x (cpost c) ->
  map op (plug c h) = plug c (map op h).
Proof.
  induction c as [pre post | pre e c IH post]; simpl; intros Hpre Hpost.
  - rewrite !map_app, (op_absent pre Hpre), (op_absent post Hpost).
    reflexivity.
  - rewrite map_app. simpl.
    rewrite op_absent by (intro; apply Hpre, in_or_app; now left).
    rewrite op_elem by (intro; apply Hpre, in_or_app; right; now left).
    rewrite IH.
    + rewrite (op_absent post); [reflexivity |].
      intro; apply Hpost, in_or_app; now right.
    + intro; apply Hpre, in_or_app; right; now right.
    + intro; apply Hpost, in_or_app; now left.
Qed.
End MapLike.

Lemma map_elem_plug x g c h :
  ~ In x (cpre c) -> ~ In x (cpost c) ->
  map (map_elem x g) (plug c h) = plug c (map (map_elem x g) h).
Proof.
  apply op_plug.
  - apply absent_map_elem.
  - intros e ks Hne. simpl. now rewrite (proj2 (Nat.eqb_neq _ _) Hne).
Qed.

Lemma set_kids_plug x new c h :
  ~ In x (cpre c) -> ~ In x (cpost c) ->
  map (set_kids x new) (plug c h) = plug c (map (set_kids x new) h).
Proof.
  apply op_plug.
  - apply absent_set_kids.
  - intros e ks Hne. simpl. now rewrite (proj2 (Nat.eqb_neq _ _) Hne).
Qed.

Lemma add_kid_plug x k c h :
  ~ In x (cpre c) -> ~ In x (cpost c) ->
  map (add_kid x k) (plug c h) = plug c (map (add_kid x k) h).
Proof.
  apply op_plug.
  - apply absent_add_kid.
  - intros e ks Hne. simpl. now rewrite (proj2 (Nat.eqb_neq _ _) Hne).
Qed.

Lemma prune_f_app x f g : prune_f x (f ++ g) = prune_f x f ++ prune_f x g.
Proof. unfold prune_f. apply flat_map_app. Qed.

Lemma prune_plug x c h :
  ~ In x (cpre c) -> ~ In x (cpost c) ->
  prune_f x (plug c h) = plug c (prune_f x h).
Proof.
  induction c as [pre post | pre e c IH post]; simpl; intros Hpre Hpost.
  - rewrite !prune_f_app.
    now rewrite (proj2 (absent_prune x) pre Hpre),
                (proj2 (absent_prune x) post Hpost).
  - rewrite prune_f_app, prune_f_cons. simpl.
    rewrite (proj2 (absent_prune x) pre)
      by (intro; apply Hpre, in_or_app; now left).
    assert (Hne : (eid e =? x) = false).
    { apply Nat.eqb_neq. intro. apply Hpre, in_or_app. right. now left. }
    rewrite Hne. simpl. fold (prune_f x (plug c h)).
    rewrite IH.
    + rewrite (proj2 (absent_prune x) post); [reflexivity |].
      intro; apply Hpost, in_or_app; now right.
    + intro; apply Hpre, in_or_app; right; now right.
    + intro; apply Hpost, in_or_app; now left.
Qed.

(** In a forest with distinct identities an element is neither before nor
    after itself, nor among its own descendants. *)
Lemma nodup_hole x c e ks :
  NoDup (ids_f (plug c [Elem e ks])) -> eid e = x ->
  ~ In x (cpre c) /\ ~ In x (cpost c) /\ ~ In x (ids_f ks).
Proof.
  intros Hn <-. rewrite ids_plug in Hn. simpl in Hn. rewrite app_nil_r in Hn.
  destruct (nodup_app_inv _ _ Hn) as (_ & Hr & Hd).
  simpl in Hr. inversion Hr as [| ? ? Hx _]; subst.
  repeat split.
  - intros Hin. apply (Hd _ Hin). now left.
  - intros Hin. apply Hx, in_or_app. now right.
  - intros Hin. apply Hx, in_or_app. now left.
Qed.

Lemma nodup_hole_inside y c h :
  NoDup (ids_f (plug c h)) -> In y (ids_f h) ->
  ~ In y (cpre c) /\ ~ In y (cpost c).
Proof.
  intros Hn Hin. rewrite ids_plug in Hn.
  destruct (nodup_app_inv _ _ Hn) as (_ & Hr & Hd).
  destruct (nodup_app_inv _ _ Hr) as (_ & _ & Hd').
  split.
  - intros Hp. apply (Hd _ Hp), in_or_app. now left.
  - now apply Hd'.
Qed.

(** What is found inside a found subtree is found from the top. *)
Lemma find_inside f b n c :
  NoDup (ids_f f) -> find_f b f = Some n -> In c (ids n) ->
  find_f c f = find c n.
Proof.
  intros Hn Hb Hc.
  destruct (proj2 (find_decompose b) _ _ Hb) as (cx & -> & _).
  assert (Hin : In c (ids_f [n])) by (simpl; now rewrite app_nil_r).
  destruct (nodup_hole_inside _ _ _ Hn Hin) as (Hpre & _).
  destruct (in_found _ _ Hin) as (t & Ht).
  rewrite (find_plug _ _ _ _ Hpre Ht).
  rewrite find_f_cons in Ht. destruct (find c n); [now symmetry | discriminate].
Qed.

Lemma find_map_elem x g (Hg : forall e, eid (g e) = eid e) y :
  (forall n, find y (map_elem x g n) = option_map (map_elem x g) (find y n))
  /\ (forall f, find_f y (map (map_elem x g) f)
                = option_map (map_elem x g) (find_f y f)).
Proof.
  apply node_forest_ind.
  - reflexivity.
  - intros e ks IH. simpl.
    assert (He : eid (if eid e =? x then g e else e) = eid e)
      by (destruct (eid e =? x); auto).
    rewrite He. destruct (eid e =? y); [reflexivity | apply IH].
  - reflexivity.
  - intros n ks IHn IHks. simpl map. rewrite !find_f_cons, IHn.
    destruct (find y n); [reflexivity | apply IHks].
Qed.

Lemma ids_map_elem x g (Hg : forall e, eid (g e) = eid e) :
  (forall n, ids (map_elem x g n) = ids n)
  /\ (forall f, ids_f (map (map_elem x g) f) = ids_f f).
Proof.
  apply node_forest_ind.
  - reflexivity.
  - intros e ks IH. simpl.
    assert (He : eid (if eid e =? x then g e else e) = eid e)
      by (destruct (eid e =? x); auto).
    rewrite He. f_equal. apply IH.
  - reflexivity.
  - intros n ks IHn IHks. simpl map. rewrite !ids_f_cons, IHn. f_equal.
    apply IHks.
Qed.

(** Effect of replacing the children of [x] on the subtree found at [y],
    when [y] is not a descendant of [x]. *)
Lemma find_set_kids x new y :
  ~ In y (ids_f new) ->
  (forall n, NoDup (ids n) ->
     (forall e ks, find x n = Some (Elem e ks) -> ~ In y (ids_f ks)) ->
     find y (set_kids x new n) = option_map (set_kids x new) (find y n))
  /\ (forall f, NoDup (ids_f f) ->
        (forall e ks, find_f x f = Some (Elem e ks) -> ~ In y (ids_f ks)) ->
        find_f y (map (set_kids x new) f)
        = option_map (set_kids x new) (find_f y f)).
Proof.
  intros Hnew. apply node_forest_ind.
  - reflexivity.
  - intros e ks IH Hn Hb. simpl in *.
    destruct (Nat.eqb_spec (eid e) x) as [Hx | Hx]; simpl.
    + destruct (Nat.eqb_spec (eid e) y) as [Hy | Hy]; simpl.
      * now rewrite (proj2 (Nat.eqb_eq _ _) Hx).
      * fold (find_f y new). fold (find_f y ks).
        rewrite (proj2 (absent_find y) new Hnew).
        now rewrite (proj2 (absent_find y) ks (Hb _ _ eq_refl)).
    + destruct (Nat.eqb_spec (eid e) y) as [Hy | Hy]; simpl.
      * now rewrite (proj2 (Nat.eqb_neq _ _) Hx).
      * apply IH; [now inversion Hn | exact Hb].
  - reflexivity.
  - intros n ks IHn IHks Hn Hb. simpl map. rewrite ids_f_cons in Hn.
    destruct (nodup_app_inv _ _ Hn) as (Hn1 & Hn2 & Hd).
    rewrite !find_f_cons.
    rewrite IHn; [| exact Hn1 |].
    + destruct (find y n); [reflexivity |].
      apply IHks; [exact Hn2 |].
      intros e ks' Hf. apply (Hb e ks'). rewrite find_f_cons.
      destruct (find x n) eqn:E; [| exact Hf].
      exfalso. apply (Hd x).
      * destruct (in_dec Nat.eq_dec x (ids n)) as [Hi | Hi]; [exact Hi |].
        rewrite (proj1 (absent_find x) n Hi) in E. discriminate.
      * now apply found_in in Hf.
    + intros e ks' Hf. apply (Hb e ks'). now rewrite find_f_cons, Hf.
Qed.

Lemma select_incl p :
  (forall n, incl (select p n) (ids n))
  /\ (forall f, incl (select_f p f) (ids_f f)).
Proof.
  apply node_forest_ind.
  - intros s. apply incl_refl.
  - intros e ks IH. simpl. destruct (p e); simpl.
    + intros y [-> | Hin]; [now left | right; now apply IH].
    + intros y Hin. right. now apply IH.
  - apply incl_refl.
  - intros n ks IHn IHks. unfold select_f. simpl.
    apply incl_app; [apply incl_appl, IHn | apply incl_appr, IHks].
Qed.

Lemma find_self x n t : find x n = Some t -> In x (ids t).
Proof.
  intros Hf. destruct (proj1 (find_root x) _ _ Hf) as (e & ks & -> & <-).
  now left.
Qed.

Lemma find_f_self x f t : find_f x f = Some t -> In x (ids t).
Proof.
  intros Hf. destruct (proj2 (find_root x) _ _ Hf) as (e & ks & -> & <-).
  now left.
Qed.

(** A found subtree has distinct identities when the forest has. *)
Lemma nodup_found x f t :
  NoDup (ids_f f) -> find_f x f = Some t -> NoDup (ids t).
Proof.
  intros Hn Hf. destruct (proj2 (find_decompose x) _ _ Hf) as (c & -> & _).
  rewrite ids_plug in Hn. apply NoDup_app_remove_l in Hn.
  apply NoDup_app_remove_r in Hn.
  change (ids_f [t]) with (ids t ++ []) in Hn. now rewrite app_nil_r in Hn.
Qed.

Lemma nodup_select p :
  (forall n, NoDup (ids n) -> NoDup (select p n))
  /\ (forall f, NoDup (ids_f f) -> NoDup (select_f p f)).
Proof.
  apply node_forest_ind.
  - intros s _. constructor.
  - intros e ks IH Hn. simpl in *. inversion Hn as [| ? ? Hroot Hks]; subst.
    destruct (p e); simpl; [| now apply IH].
    constructor; [| now apply IH].
    intros Hin. apply Hroot. now apply (proj2 (select_incl p) ks).
  - intros _. constructor.
  - intros n ks IHn IHks Hn. rewrite ids_f_cons in Hn.
    destruct (nodup_app_inv _ _ Hn) as (Hn1 & Hn2 & Hd).
    unfold select_f. simpl. apply NoDup_app; auto.
    intros x Hx Hx'. apply (Hd x).
    + now apply (proj1 (select_incl p) n).
    + now apply (proj2 (select_incl p) ks).
Qed.

Lemma find_set_kids_same x new :
  (forall n e ks, find x n = Some (Elem e ks) ->
     find x (set_kids x new n) = Some (Elem e new))
  /\ (forall f e ks, find_f x f = Some (Elem e ks) ->
        find_f x (map (set_kids x new) f) = Some (Elem e new)).
Proof.
  apply node_forest_ind.
  - discriminate.
  - intros e ks IH e' ks'. simpl.
    destruct (Nat.eqb_spec (eid e) x) as [Heq | Hne]; simpl.
    + intros [= <- <-]. now rewrite (proj2 (Nat.eqb_eq _ _) Heq).
    + rewrite (proj2 (Nat.eqb_neq _ _) Hne). apply IH.
  - discriminate.
  - intros n ks IHn IHks e ks'. simpl map. rewrite !find_f_cons.
    destruct (find x n) eqn:E.
    + intros [= ->]. now rewrite (IHn _ _ eq_refl).
    + intros Hf.
      rewrite (proj1 (absent_set_kids x new) n)
        by (now apply (proj1 (find_none x))).
      rewrite E. now apply (IHks e ks').
Qed.

Lemma select_f_app p f g : select_f p (f ++ g) = select_f p f ++ select_f p g.
Proof. unfold select_f. apply flat_map_app. Qed.

Lemma select_plug p c h :
  select_f p (plug c h) = spre p c ++ select_f p h ++ spost p c.
Proof.
  induction c as [pre post | pre e c IH post]; simpl.
  - now rewrite !select_f_app.
  - rewrite select_f_app. unfold select_f at 2. simpl.
    fold (select_f p (plug c h)). fold (select_f p post).
    rewrite IH. now rewrite <- !app_assoc.
Qed.

Lemma spre_incl p c : incl (spre p c) (cpre c).
Proof.
  induction c as [pre post | pre e c IH post]; simpl.
  - apply (proj2 (select_incl p)).
  - apply incl_app; [apply incl_appl, (proj2 (select_incl p)) |].
    apply incl_appr. destruct (p e); simpl.
    + intros y [-> | Hy]; [now left | right; now apply IH].
    + intros y Hy. right. now apply IH.
Qed.

Lemma spost_incl p c : incl (spost p c) (cpost c).
Proof.
  induction c as [pre post | pre e c IH post]; simpl.
  - apply (proj2 (select_incl p)).
  - apply incl_app; [apply incl_appl, IH |].
    apply incl_appr, (proj2 (select_incl p)).
Qed.

(** The first selected element stays the first one when its children are
    replaced. *)
Lemma select_head_stable p x f e ks new :
  NoDup (ids_f f) -> find_f x f = Some (Elem e ks) ->
  hd_error (select_f p f) = Some x ->
  hd_error (select_f p (map (set_kids x new) f)) = Some x.
Proof.
  intros Hn Hf Hh.
  destruct (proj2 (find_root x) _ _ Hf) as (e' & ks' & [= <- <-] & He).
  destruct (proj2 (find_decompose x) _ _ Hf) as (c & -> & Hpre).
  destruct (nodup_hole x c e ks Hn He) as (_ & Hpost & Hks).
  rewrite set_kids_plug by assumption. simpl.
  rewrite (proj2 (Nat.eqb_eq _ _) He).
  rewrite select_plug in *.
  destruct (spre p c) as [| y r] eqn:Es.
  - simpl in *. unfold select_f in *. simpl in *.
    destruct (p e) eqn:Ep; simpl in *; [now rewrite He |].
    exfalso. apply hd_error_in in Hh. rewrite app_nil_r in Hh.
    apply in_app_or in Hh as [Hh | Hh].
    + apply Hks. now apply (proj2 (select_incl p) ks).
    + apply Hpost. now apply (spost_incl p c).
  - simpl in *. injection Hh as ->. exfalso. apply Hpre.
    apply (spre_incl p c). rewrite Es. now left.
Qed.

Lemma select_f_single p e ks :
  select_f p [Elem e ks] = (if p e then [eid e] else []) ++ select_f p ks.
Proof. unfold select_f. simpl. now rewrite app_nil_r. Qed.

(** The first selected element stays the first one when the children of
    another element, of which it is not a descendant, are replaced by nodes
    that are not selected. *)
Lemma select_head_other p x new f d :
  NoDup (ids_f f) -> select_f p new = [] ->
  (forall e ks, find_f x f = Some (Elem e ks) -> ~ In d (ids_f ks)) ->
  hd_error (select_f p f) = Some d ->
  hd_error (select_f p (map (set_kids x new) f)) = Some d.
Proof.
  intros Hn Hnew Hd Hh.
  destruct (find_f x f) as [t |] eqn:Hf.
  - destruct (proj2 (find_root x) _ _ Hf) as (e & ks & -> & He).
    specialize (Hd e ks eq_refl).
    destruct (proj2 (find_decompose x) _ _ Hf) as (c & -> & Hpre).
    destruct (nodup_hole x c e ks Hn He) as (_ & Hpost & Hks).
    rewrite set_kids_plug by assumption. simpl.
    rewrite (proj2 (Nat.eqb_eq _ _) He).
    rewrite select_plug, select_f_single in *.
    rewrite Hnew. rewrite app_nil_r.
    destruct (spre p c) as [| y r]; simpl in *; [| exact Hh].
    destruct (p e); simpl in *; [exact Hh |].
    destruct (select_f p ks) as [| y r] eqn:Es; simpl in *; [exact Hh |].
    injection Hh as ->. exfalso. apply Hd.
    apply (proj2 (select_incl p) ks). rewrite Es. now left.
  - rewrite (proj2 (absent_set_kids x new)); [exact Hh |].
    now apply (proj2 (find_none x)).
Qed.

(** What is selected inside a found element is selected in the forest. *)
Lemma select_found_incl p x f e k :
  find_f x f = Some (Elem e k) -> incl (select_f p k) (select_f p f).
Proof.
  intros Hf. destruct (proj2 (find_decompose x) _ _ Hf) as (c & -> & _).
  rewrite select_plug, select_f_single.
  intros y Hy. apply in_or_app. right. apply in_or_app. left.
  apply in_or_app. now right.
Qed.

(** Replacing children among which nothing is selected, by nodes among which
    nothing is selected, does not change the selection. *)
Lemma select_set_kids_none p x new f :
  NoDup (ids_f f) -> select_f p new = [] ->
  (forall e k, find_f x f = Some (Elem e k) -> select_f p k = []) ->
  select_f p (map (set_kids x new) f) = select_f p f.
Proof.
  intros Hn Hnew Hk.
  destruct (find_f x f) as [t |] eqn:Hf.
  - destruct (proj2 (find_root x) _ _ Hf) as (e & ks & -> & He).
    specialize (Hk e ks eq_refl).
    destruct (proj2 (find_decompose x) _ _ Hf) as (c & -> & Hpre).
    destruct (nodup_hole x c e ks Hn He) as (_ & Hpost & Hks).
    rewrite set_kids_plug by assumption. simpl.
    rewrite (proj2 (Nat.eqb_eq _ _) He).
    rewrite !select_plug, !select_f_single. now rewrite Hnew, Hk.
  - rewrite (proj2 (absent_set_kids x new)); [reflexivity |].
    now apply (proj2 (find_none x)).
Qed.

Lemma select_map_elem p x g :
  (forall e, p (g e) = p e) -> (forall e, eid (g e) = eid e) ->
  (forall n, select p (map_elem x g n) = select p n)
  /\ (forall f, select_f p (map (map_elem x g) f) = select_f p f).
Proof.
  intros Hp Hg. apply node_forest_ind.
  - reflexivity.
  - intros e ks IH. simpl.
    assert (E : (if p (if eid e =? x then g e else e)
                 then [eid (if eid e =? x then g e else e)] else [])
                = (if p e then [eid e] else [])).
    { destruct (eid e =? x); [now rewrite Hp, Hg | reflexivity]. }
    rewrite E. f_equal. apply IH.
  - reflexivity.
  - intros n ks IHn IHks. unfold select_f in *. simpl. now rewrite IHn, IHks.
Qed.

Lemma prune_removes x :
  (forall n, has_id x n = false -> ~ In x (ids (prune x n)))
  /\ (forall f, ~ In x (ids_f (prune_f x f))).
Proof.
  apply node_forest_ind.
  - intros s _ [].
  - intros e ks IH Hid. simpl in *. fold (prune_f x ks).
    intros [Heq | Hin]; [| now apply IH].
    apply Nat.eqb_neq in Hid. contradiction.
  - intros [].
  - intros n ks IHn IHks. rewrite prune_f_cons.
    destruct (has_id x n) eqn:Hid; cbn [app]; [exact IHks |].
    rewrite ids_f_cons. intros Hin. apply in_app_or in Hin as [Hin | Hin].
    + now apply IHn in Hin.
    + now apply IHks in Hin.
Qed.

Lemma prune_incl x :
  (forall n, incl (ids (prune x n)) (ids n))
  /\ (forall f, incl (ids_f (prune_f x f)) (ids_f f)).
Proof.
  apply node_forest_ind.
  - intros s. apply incl_refl.
  - intros e ks IH. simpl. fold (prune_f x ks).
    intros y [-> | Hin]; [now left | right; now apply IH].
  - apply incl_refl.
  - intros n ks IHn IHks. rewrite prune_f_cons, ids_f_cons.
    destruct (has_id x n); cbn [app].
    + now apply incl_appr.
    + rewrite ids_f_cons.
      apply incl_app; [apply incl_appl, IHn | apply incl_appr, IHks].
Qed.

Lemma first_some_app {A B} (g : A -> option B) l1 l2 :
  first_some g (l1 ++ l2)
  = match first_some g l1 with Some b => Some b | None => first_some g l2 end.
Proof.
  induction l1 as [| a l1 IH]; [reflexivity |]. simpl.
  destruct (g a); [reflexivity | exact IH].
Qed.

Lemma has_id_in x f : existsb (has_id x) f = true -> In x (ids_f f).
Proof.
  induction f as [| n f IH]; [discriminate |]. cbn [existsb].
  rewrite ids_f_cons. intros Hb. apply in_or_app.
  apply orb_prop in Hb as [Hn | Hf]; [left | right; auto].
  destruct n as [s | e ks]; [discriminate |]. simpl in *.
  apply Nat.eqb_eq in Hn. now left.
Qed.

Lemma find_add_kid_new p c sub :
  find c sub = Some sub ->
  (forall n, ~ In c (ids n) -> In p (ids n) ->
     find c (add_kid p sub n) = Some sub)
  /\ (forall f, ~ In c (ids_f f) -> In p (ids_f f) ->
        find_f c (map (add_kid p sub) f) = Some sub).
Proof.
  intros Hsub. apply node_forest_ind.
  - intros s _ [].
  - intros e ks IH Hc Hp. simpl in *.
    assert (Hec : (eid e =? c) = false).
    { apply Nat.eqb_neq. intros Heq. apply Hc. now left. }
    destruct (Nat.eqb_spec (eid e) p) as [Hep | Hep]; simpl; rewrite Hec.
    + fold (find_f c (ks ++ [sub])). rewrite find_f_app.
      rewrite (proj2 (absent_find c) ks) by (intro; apply Hc; now right).
      rewrite find_f_cons, Hsub. reflexivity.
    + apply IH; [intro; apply Hc; now right |].
      destruct Hp as [Hp | Hp]; [contradiction | exact Hp].
  - intros _ [].
  - intros n ks IHn IHks Hc Hp. rewrite ids_f_cons in Hc, Hp.
    simpl map. rewrite find_f_cons.
    destruct (in_dec Nat.eq_dec p (ids n)) as [Hin | Hin].
    + rewrite IHn; auto. intro; apply Hc, in_or_app; now left.
    + rewrite (proj1 (absent_add_kid p sub) n Hin).
      rewrite (proj1 (absent_find c) n)
        by (intro; apply Hc, in_or_app; now left).
      apply IHks; [intro; apply Hc, in_or_app; now right |].
      apply in_app_or in Hp as [Hp | Hp]; [contradiction | exact Hp].
Qed.

(** Cutting out a descendant of an element leaves the element in place. *)
Lemma prune_keeps_ancestor x n f e ks :
  NoDup (ids_f f) -> find_f x f = Some (Elem e ks) -> In n (ids_f ks) ->
  In x (ids_f (prune_f n f)).
Proof.
  intros Hn Hf Hin.
  destruct (proj2 (find_root x) _ _ Hf) as (e' & ks' & [= <- <-] & He).
  destruct (proj2 (find_decompose x) _ _ Hf) as (c & -> & Hpre).
  destruct (nodup_hole x c e ks Hn He) as (_ & _ & Hks).
  assert (Hin' : In n (ids_f [Elem e ks])).
  { unfold ids_f. simpl. rewrite app_nil_r. now right. }
  destruct (nodup_hole_inside n c _ Hn Hin') as (Hnpre & Hnpost).
  rewrite prune_plug by assumption. rewrite ids_plug.
  apply in_or_app. right. apply in_or_app. left.
  rewrite prune_f_cons. simpl.
  assert (Hne : (eid e =? n) = false).
  { apply Nat.eqb_neq. intros Heq. apply Hks. now rewrite <- He, Heq. }
  rewrite Hne. unfold ids_f. simpl. now left.
Qed.

Lemma existsb_eqb_in x l : existsb (Nat.eqb x) l = true <-> In x l.
Proof.
  rewrite existsb_exists. split.
  - intros (y & Hy & Heq). apply Nat.eqb_eq in Heq. now subst.
  - intros Hin. exists x. split; [exact Hin | apply Nat.eqb_refl].
Qed.

Lemma nodupb_sound l : nodupb l = true -> NoDup l.
Proof.
  induction l as [| x r IH]; simpl; [constructor |].
  intros Hb. apply andb_prop in Hb as (Hx & Hr).
  constructor; [| now apply IH].
  intros Hin. apply existsb_eqb_in in Hin. now rewrite Hin in Hx.
Qed.

Lemma disjointb_sound l1 l2 :
  disjointb l1 l2 = true -> forall x, In x l1 -> ~ In x l2.
Proof.
  unfold disjointb. rewrite forallb_forall. intros Hd x Hx Hx'.
  apply Hd in Hx. apply existsb_eqb_in in Hx'. now rewrite Hx' in Hx.
Qed.

End TreeFacts.

(** ** [escapeHtml] *)

Module EscapeFacts.
Import Entities.

Lemma escapeHtml_cons c r :
  escapeHtml (String c r) = escape_chunk c ++ escapeHtml r.
Proof. reflexivity. Qed.

Lemma to_list_app s t : Str.to_list (s ++ t) = (Str.to_list s ++ Str.to_list t)%list.
Proof. induction s as [| c s IH]; simpl; [reflexivity | now rewrite IH]. Qed.

(** A chunk is the character itself, which is then none of the five, or one
    of the five entities. *)
Lemma escape_chunk_cases c :
  (escape_class c = false /\ escape_chunk c = Str.of_char c)
  \/ In (escape_chunk c) entities.
Proof.
  unfold escape_chunk, escape_class, escape_map, entities.
  destruct (Ascii.eqb c "&") eqn:E1; [right; simpl; tauto |].
  destruct (Ascii.eqb c "<") eqn:E2; [right; simpl; tauto |].
  destruct (Ascii.eqb c ">") eqn:E3; [right; simpl; tauto |].
  destruct (Ascii.eqb c Str.dquote) eqn:E4; [right; simpl; tauto |].
  destruct (Ascii.eqb c "'") eqn:E5; [right; simpl; tauto |].
  left. split; reflexivity.
Qed.

Lemma entity_shape ent :
  In ent entities ->
  exists tl, ent = String "&" tl
             /\ forallb (fun c => negb (is_amp c) && negb (markup_char c))
                        (Str.to_list tl) = true.
Proof.
  unfold entities. simpl.
  intros [<- | [<- | [<- | [<- | [<- | []]]]]]; eexists; split;
    try reflexivity; reflexivity.
Qed.

Lemma plain_shape c :
  escape_class c = false -> is_amp c = false /\ markup_char c = false.
Proof.
  unfold escape_class, is_amp, markup_char.
  destruct (Ascii.eqb c "&"), (Ascii.eqb c "<"), (Ascii.eqb c ">"),
    (Ascii.eqb c Str.dquote), (Ascii.eqb c "'"); simpl; auto; discriminate.
Qed.

Lemma escapeHtml_no_markup text c :
  In c (Str.to_list (escapeHtml text)) -> markup_char c = false.
Proof.
  induction text as [| a r IH]; [intros [] |].
  rewrite escapeHtml_cons, to_list_app. intros Hin.
  apply in_app_or in Hin as [Hin | Hin]; [| now apply IH].
  destruct (escape_chunk_cases a) as [(Hp & Hc) | Hent].
  - rewrite Hc in Hin. destruct Hin as [<- | []]. now apply plain_shape.
  - destruct (entity_shape _ Hent) as (tl & Htl & Hno).
    rewrite Htl in Hin. destruct Hin as [<- | Hin]; [reflexivity |].
    rename Hno into Htl'. pose proof Htl' as Htl0. clear Htl. rename Htl0 into Htl.
    rewrite forallb_forall in Htl. apply Htl in Hin.
    apply andb_prop in Hin as (_ & Hm). now apply negb_true_iff in Hm.
Qed.

(** A text without ampersand in front of [rest]: an ampersand of the whole
    lies in [rest]. *)
Lemma split_after tl rest pre post :
  forallb (fun c => negb (is_amp c)) (Str.to_list tl) = true ->
  tl ++ rest = pre ++ String "&" post ->
  exists pre', pre = tl ++ pre' /\ rest = pre' ++ String "&" post.
Proof.
  revert pre. induction tl as [| a tl IH]; intros pre Hno Heq.
  - exists pre. auto.
  - simpl in Hno. apply andb_prop in Hno as (Ha & Hno).
    destruct pre as [| p pre]; simpl in Heq.
    + injection Heq as -> _. discriminate.
    + injection Heq as -> Heq. destruct (IH _ Hno Heq) as (pre' & -> & ->).
      exists pre'. auto.
Qed.

Lemma prefix_app s t : String.prefix s (s ++ t) = true.
Proof.
  induction s as [| c s IH]; simpl; [now destruct t |].
  destruct (ascii_dec c c); [exact IH | contradiction].
Qed.

Lemma escapeHtml_amp text pre post :
  escapeHtml text = pre ++ String "&" post ->
  exists ent, In ent entities /\ String.prefix ent (String "&" post) = true.
Proof.
  revert pre. induction text as [| a r IH]; intros pre Heq.
  - destruct pre; discriminate.
  - rewrite escapeHtml_cons in Heq.
    destruct (escape_chunk_cases a) as [(Hp & Hc) | Hent].
    + rewrite Hc in Heq. destruct pre as [| p pre]; simpl in Heq.
      * injection Heq as -> _. apply plain_shape in Hp. now destruct Hp.
      * injection Heq as _ Heq. now apply (IH pre).
    + destruct (entity_shape _ Hent) as (tl & Htl & Hno).
      rewrite Htl in Heq. destruct pre as [| p pre]; simpl in Heq.
      * injection Heq as Heq. exists (escape_chunk a). split; [exact Hent |].
        rewrite Htl, <- Heq. apply (prefix_app (String "&" tl)).
      * injection Heq as _ Heq.
        assert (Hno' : forallb (fun c => negb (is_amp c)) (Str.to_list tl) = true).
        { rewrite forallb_forall in *. intros c Hc. apply Hno in Hc.
          now apply andb_prop in Hc. }
        destruct (split_after _ _ _ _ Hno' Heq) as (pre' & _ & Hr).
        now apply (IH pre').
Qed.

End EscapeFacts.

(** ** What a computation leaves alone *)

Module FrameFacts.
Import Frame.

Section Keeps.
Context {X : Type} (f : state -> X).

Lemma keeps_ret {A} (a : A) : keeps f (ret a).
Proof. intros st. reflexivity. Qed.

Lemma keeps_throw {A} e : keeps f (@throw A e).
Proof. intros st. reflexivity. Qed.

Lemma keeps_gets {A} (g : state -> A) : keeps f (gets g).
Proof. intros st. reflexivity. Qed.

Lemma keeps_lift {A} (r : exn + A) : keeps f (lift r).
Proof. destruct r; intros st; reflexivity. Qed.

Lemma keeps_deref r : keeps f (deref r).
Proof. destruct r; intros st; reflexivity. Qed.

Lemma keeps_bind {A B} (m : M A) (k : A -> M B) :
  keeps f m -> (forall a, keeps f (k a)) -> keeps f (bind m k).
Proof.
  intros Hm Hk st. unfold bind. specialize (Hm st).
  destruct (m st) as [[a | e] st1]; simpl in *.
  - now rewrite Hk.
  - exact Hm.
Qed.

Lemma keeps_try_catch {A} (m : M A) h :
  keeps f m -> (forall e, keeps f (h e)) -> keeps f (try_catch m h).
Proof.
  intros Hm Hh st. unfold try_catch. specialize (Hm st).
  destruct (m st) as [[a | e] st1]; simpl in *.
  - exact Hm.
  - now rewrite Hh.
Qed.

Lemma keeps_forEach {A} (l : list A) (k : A -> M unit) :
  (forall a, keeps f (k a)) -> keeps f (forEach l k).
Proof.
  intros Hk. induction l as [| a l IH]; simpl.
  - apply keeps_ret.
  - apply keeps_bind; auto.
Qed.

Lemma keeps_modify (g : state -> state) :
  (forall st, f (g st) = f st) -> keeps f (modify g).
Proof. intros Hg st. apply Hg. Qed.
End Keeps.

Create HintDb keeps.

#[export] Hint Resolve keeps_ret keeps_throw keeps_gets keeps_lift keeps_deref
  keeps_bind keeps_try_catch keeps_forEach : keeps.

Lemma net_update_elem x g : keeps net (Dom.update_elem x g).
Proof. intros st. reflexivity. Qed.

Lemma net_set_textContent x s : keeps net (Dom.set_textContent x s).
Proof. intros st. reflexivity. Qed.

Lemma net_set_innerHTML {num} {H : Host num} x s :
  keeps net (Dom.set_innerHTML x s).
Proof.
  intros st. unfold Dom.set_innerHTML, modify. simpl.
  destruct (parseHTML (next_id st) s). reflexivity.
Qed.

Lemma net_remove x : keeps net (Dom.remove x).
Proof.
  intros st. unfold Dom.remove, modify. simpl.
  destruct (existsb _ _); [reflexivity |].
  destruct (Dom.node_at x st); reflexivity.
Qed.

Lemma net_appendChild p c : keeps net (Dom.appendChild p c).
Proof.
  intros st. unfold Dom.appendChild.
  destruct (Dom.node_at c st); [| reflexivity].
  destruct (existsb _ _); reflexivity.
Qed.

Lemma net_createElement t : keeps net (Dom.createElement t).
Proof. intros st. reflexivity. Qed.

Lemma net_document_querySelector {num} {H : Host num} s :
  keeps net (Dom.document_querySelector s).
Proof.
  intros st. unfold Dom.document_querySelector.
  destruct (css_parse s); reflexivity.
Qed.

Lemma net_alert msg : keeps net (alert msg).
Proof. intros st. reflexivity. Qed.

Lemma net_console_error e : keeps net (console_error e).
Proof. intros st. reflexivity. Qed.

Lemma net_prompt msg d a : keeps net (prompt msg d a).
Proof. intros st. reflexivity. Qed.

Lemma net_confirm msg a : keeps net (confirm msg a).
Proof. intros st. reflexivity. Qed.

Lemma net_getCookie name : keeps net (getCookie name).
Proof. intros st. reflexivity. Qed.

#[export] Hint Resolve net_update_elem net_set_textContent net_set_innerHTML
  net_remove net_appendChild net_createElement net_document_querySelector
  net_alert net_console_error net_prompt net_confirm net_getCookie : keeps.

(** Computations that only look at the page, or only talk to the user. *)
Lemma page_alert msg : keeps page_of (alert msg).
Proof. intros st. reflexivity. Qed.

Lemma page_console_error e : keeps page_of (console_error e).
Proof. intros st. reflexivity. Qed.

Lemma page_getCookie name : keeps page_of (getCookie name).
Proof. intros st. reflexivity. Qed.

Lemma page_prompt msg d a : keeps page_of (prompt msg d a).
Proof. intros st. reflexivity. Qed.

Lemma page_confirm msg a : keeps page_of (confirm msg a).
Proof. intros st. reflexivity. Qed.

Lemma page_fetch u m h b : keeps page_of (fetch u m h b).
Proof. intros st. reflexivity. Qed.

#[export] Hint Resolve page_alert page_console_error page_getCookie
  page_prompt page_confirm page_fetch : keeps.

(** Solve a [keeps] goal by following the structure of the program. *)
Ltac keeps_step :=
  match goal with
  | |- keeps _ (bind _ _) => apply keeps_bind; [| intros ?]
  | |- keeps _ (try_catch _ _) => apply keeps_try_catch; [| intros ?]
  | |- keeps _ (forEach _ _) => apply keeps_forEach; intros ?
  | |- keeps _ (if ?b then _ else _) => destruct b
  | |- keeps _ (match ?x with _ => _ end) => destruct x
  | |- keeps _ _ => solve [auto with keeps]
  end.

Ltac keeps_auto := repeat keeps_step.

End FrameFacts.

(** ** The requests of the steps *)

Section Requests.
Context {num : Type} {H : Host num}.
Import Frame FrameFacts.

Lemma net_settle on_data msg (o : outcome num) :
  (forall d, keeps net (on_data d)) -> keeps net (settle on_data msg o).
Proof. intros Hd. unfold settle. destruct o; keeps_auto. Qed.

Lemma net_alert_failure (data : value num) : keeps net (alert_failure data).
Proof. unfold alert_failure. keeps_auto. Qed.

Hint Resolve net_settle net_alert_failure : keeps.

Lemma net_favorite_data this (d : value num) :
  keeps net (favorite_data this d).
Proof. unfold favorite_data, Dom.querySelector, Dom.setAttribute. keeps_auto. Qed.

Lemma net_updateReactionButtons card (rc ur : value num) :
  keeps net (updateReactionButtons card rc ur).
Proof.
  unfold updateReactionButtons, update_button, Dom.querySelectorAll,
    Dom.querySelector, Dom.getAttribute, Dom.classList_remove,
    Dom.classList_add, Dom.set_display.
  keeps_auto.
Qed.

Hint Resolve net_updateReactionButtons : keeps.

Lemma net_reaction_data this (d : value num) :
  keeps net (reaction_data this d).
Proof. unfold reaction_data, Dom.closest. keeps_auto. Qed.

Lemma net_addCommentToDOM a (c : value num) : keeps net (addCommentToDOM a c).
Proof.
  unfold addCommentToDOM, escapeHtml_value, Dom.querySelector,
    Dom.set_className, Dom.setAttribute.
  keeps_auto.
Qed.

Hint Resolve net_addCommentToDOM : keeps.

Lemma net_add_comment_data a i (d : value num) :
  keeps net (add_comment_data a i d).
Proof. unfold add_comment_data, Dom.set_value. keeps_auto. Qed.

Lemma net_edit_comment_data i t (d : value num) :
  keeps net (edit_comment_data i t d).
Proof. unfold edit_comment_data, Dom.querySelector. keeps_auto. Qed.

Lemma net_delete_comment_data i (d : value num) :
  keeps net (delete_comment_data i d).
Proof.
  unfold delete_comment_data, Dom.closest, Dom.querySelectorAll,
    Dom.set_className.
  keeps_auto.
Qed.

Hint Resolve net_favorite_data net_reaction_data net_add_comment_data
  net_edit_comment_data net_delete_comment_data : keeps.

(** A response step sends nothing and leaves the cookies alone. *)
Lemma response_keeps_net (a : action num) o st :
  is_response a = Some o -> net (step a st) = net st.
Proof.
  destruct a; try discriminate; intros _; unfold step.
  - apply (net_settle (favorite_data this)); auto with keeps.
  - apply (net_settle (reaction_data this)); auto with keeps.
  - apply (net_settle (add_comment_data articleId commentInput));
      auto with keeps.
  - apply (net_settle (edit_comment_data commentItem commentText));
      auto with keeps.
  - apply (net_settle (delete_comment_data commentItem)); auto with keeps.
Qed.

(** Unfold the plumbing of the monad in a click listener. *)
Ltac run_click :=
  unfold bind, ret, throw, gets, deref, lift, fetch, alert, prompt,
    confirm, getCookie, Dom.getAttribute, Dom.classList_contains,
    Dom.closest, Dom.querySelector, Dom.previousElementSibling,
    Dom.get_value, Dom.get_textContent;
  unfold modify; simpl.

Ltac cookie_case st :=
  let token := fresh "token" in
  let e := fresh "e" in
  let Hc := fresh "Hc" in
  destruct (read_cookie "csrftoken" (cookie st)) as [token | e] eqn:Hc;
  simpl;
  [ right; exists token; do 2 eexists;
    split; reflexivity
  | now left ].

(** C1.  Whatever step the script takes, it sends no request or exactly
    one, and a request it sends uses the method POST and has the two
    headers [Content-Type: application/json] and [X-CSRFToken], the latter
    with the value [getCookie('csrftoken')] returns in the state of the
    step. *)
Theorem every_request_is_csrf_post (a : action num) (st : state) :
  requests (step a st) = requests st
  \/ exists token url body,
       getCookie "csrftoken" st = (Ok token, st)
       /\ requests (step a st)
          = (requests st
             ++ [mkFetch url "POST"
                   [("Content-Type", Some "application/json");
                    ("X-CSRFToken", token)] body])%list.
Proof.
  destruct (is_response a) as [o |] eqn:Ho.
  - left. pose proof (response_keeps_net a o st Ho) as Hn.
    unfold net in Hn. now injection Hn.
  - destruct a; try discriminate; clear Ho; unfold step.
    + unfold favorite_click. run_click.
      destruct (JSON_parse _); simpl; [| now left].
      cookie_case st.
    + unfold reaction_click. run_click.
      cookie_case st.
    + unfold add_comment_click. run_click.
      destruct (match Tree.split_at this (document st) with
                | Some pre => Some pre
                | None => Tree.first_some (Tree.before this) (Dom.roots st)
                end) as [pre |]; simpl; [| now left].
      destruct (Tree.last_elem pre) as [input |]; simpl; [| now left].
      destruct (match Dom.elem_at input st with
                | Some e => ctl_value e
                | None => None
                end) as [v |]; simpl; [| now left].
      destruct (Str.is_empty (Str.trim v)); simpl; [now left |].
      cookie_case st.
    + unfold edit_comment_click. run_click.
      destruct (match Dom.elem_at target st with
                | Some e => Tree.has_class "edit-comment-btn" e
                | None => false
                end); simpl; [| now left].
      destruct (match Tree.first_some (Tree.path_to target) (Dom.roots st) with
                | Some chain =>
                    option_map eid
                      (find (Tree.has_class "comment-item") (rev chain))
                | None => None
                end) as [item |]; simpl; [| now left].
      destruct (hd_error _) as [ctext |]; simpl; [| now left].
      destruct answer as [new |]; simpl; [| now left].
      destruct (negb (Str.is_empty new) && negb (new =? _)%string); simpl;
        [| now left].
      cookie_case st.
    + unfold delete_comment_click. run_click.
      destruct (match Dom.elem_at target st with
                | Some e => Tree.has_class "delete-comment-btn" e
                | None => false
                end); simpl; [| now left].
      destruct answer; simpl; [| now left].
      cookie_case st.
Qed.
End Requests.

(** ** Failure paths *)

Section Failure.
Context {num : Type} {H : Host num}.

Lemma guarded_failure (k : value num -> M unit) msg (o : outcome num) st :
  not_success o ->
  one_alert st
    (snd (settle
            (fun data =>
               success <- lift (Js.get data "success") ;;
               if Js.truthy success then k data else alert_failure data)
            msg o st)).
Proof.
  intros Hf. unfold one_alert, settle.
  destruct o as [e | data]; simpl in Hf.
  - simpl. repeat split; eauto.
  - unfold try_catch, bind, lift.
    destruct (Js.get data "success") as [e | s] eqn:Hs; simpl.
    + repeat split; eauto.
    + rewrite Hf. unfold alert_failure, bind, lift.
      assert (He : exists v, Js.get data "error" = inr v).
      { destruct data; simpl in *; try discriminate; eauto. }
      destruct He as (v & ->). simpl.
      destruct (Js.to_string (Js.or_else v (VStr unknown_error)));
        simpl; repeat split; eauto.
Qed.

(** C3.  When a response arrives that is not a success (the chain was
    rejected, or [data.success] is falsy), the handler shows exactly one
    alert, changes nothing in the page and sends no request. *)
Theorem failure_shows_one_alert (a : action num) (o : outcome num) st :
  is_response a = Some o ->
  not_success o ->
  one_alert st (step a st).
Proof.
  intros Ha Hf.
  destruct a; try discriminate; injection Ha as ->; unfold step.
  - unfold favorite_response, favorite_data. apply guarded_failure, Hf.
  - unfold reaction_response, reaction_data. apply guarded_failure, Hf.
  - unfold add_comment_response, add_comment_data. apply guarded_failure, Hf.
  - unfold edit_comment_response, edit_comment_data.
    apply guarded_failure, Hf.
  - unfold delete_comment_response, delete_comment_data.
    apply guarded_failure, Hf.
Qed.

End Failure.

(** ** [trim] *)

Module TrimFacts.
Import Str.
Local Open Scope nat_scope.
Local Open Scope list_scope.

Lemma ws2_first a b : ws2 a b = true -> ws1 a = false.
Proof.
  unfold ws2. intros Hw. apply andb_prop in Hw as (Ha & _).
  apply Nat.eqb_eq in Ha. now subst.
Qed.

Lemma ws3_first a b c :
  ws3 a b c = true -> ws1 a = false /\ forall b', ws2 a b' = false.
Proof.
  unfold ws3. intros Hw.
  repeat match type of Hw with
         | (_ || _)%bool = true => apply orb_prop in Hw as [Hw | Hw]
         end;
    repeat match type of Hw with
           | (_ && _)%bool = true =>
               let H1 := fresh in apply andb_prop in Hw as (Hw & H1)
           end;
    apply Nat.eqb_eq in Hw; subst; split; reflexivity.
Qed.

Lemma to_list_of_list l : to_list (of_list l) = l.
Proof. induction l as [| a l IH]; simpl; congruence. Qed.

Lemma white_app x : forall y, white x = true -> white y = true -> white (x ++ y) = true.
Proof.
  assert (Hn : forall n x, length x <= n ->
                 forall y, white x = true -> white y = true ->
                           white (x ++ y) = true).
  { induction n as [| n IH]; intros l Hl y Hx Hy.
    - destruct l; [exact Hy | simpl in Hl; lia].
    - destruct l as [| a r1]; [exact Hy |]. simpl in Hl.
      cbn [white app] in *.
      destruct (ws1 (nat_of_ascii a)); [apply IH; [lia | assumption ..] |].
      destruct r1 as [| b r2]; [discriminate |]. simpl in Hl. cbn [app].
      destruct (ws2 (nat_of_ascii a) (nat_of_ascii b));
        [apply IH; [lia | assumption ..] |].
      destruct r2 as [| c r3]; [discriminate |]. simpl in Hl. cbn [app].
      apply andb_prop in Hx as (H3 & Hx). rewrite H3. cbn [andb].
      apply IH; [lia | assumption ..]. }
  intros y. now apply (Hn (length x)).
Qed.

(** Stripping takes white space off the front. *)
Lemma strip_front l :
  exists w, l = w ++ strip false l /\ white w = true.
Proof.
  assert (Hn : forall n l, length l <= n ->
                 exists w, l = w ++ strip false l /\ white w = true).
  { induction n as [| n IH]; intros x Hl.
    - destruct x; [now exists [] | simpl in Hl; lia].
    - destruct x as [| a r1]; [now exists [] |]. simpl in Hl.
      cbn [strip].
      destruct (ws1 (nat_of_ascii a)) eqn:E1.
      { destruct (IH r1) as (w & Hw & Hww); [lia |].
        exists (a :: w). split; [cbn [app]; now rewrite <- Hw |].
        cbn [white]. now rewrite E1. }
      destruct r1 as [| b r2]; [now exists [] |]. simpl in Hl.
      destruct (ws2 (nat_of_ascii a) (nat_of_ascii b)) eqn:E2.
      { destruct (IH r2) as (w & Hw & Hww); [lia |].
        exists (a :: b :: w). split; [cbn [app]; now rewrite <- Hw |].
        cbn [white]. now rewrite E1, E2. }
      destruct r2 as [| c r3]; [now exists [] |]. simpl in Hl.
      destruct (ws3 (nat_of_ascii a) (nat_of_ascii b) (nat_of_ascii c)) eqn:E3;
        [| now exists []].
      destruct (IH r3) as (w & Hw & Hww); [lia |].
      exists (a :: b :: c :: w). split; [cbn [app]; now rewrite <- Hw |].
      cbn [white]. now rewrite E1, E2, E3. }
  now apply (Hn (length l)).
Qed.

(** On a reversed string it takes white space off the end. *)
Lemma strip_back l :
  exists w, l = w ++ strip true l /\ white (rev w) = true.
Proof.
  assert (Hn : forall n l, length l <= n ->
                 exists w, l = w ++ strip true l /\ white (rev w) = true).
  { induction n as [| n IH]; intros x Hl.
    - destruct x; [now exists [] | simpl in Hl; lia].
    - destruct x as [| a r1]; [now exists [] |]. simpl in Hl.
      cbn [strip].
      destruct (ws1 (nat_of_ascii a)) eqn:E1.
      { destruct (IH r1) as (w & Hw & Hww); [lia |].
        exists (a :: w). split; [cbn [app]; now rewrite <- Hw |].
        cbn [rev]. apply white_app; [exact Hww |].
        cbn [white]. now rewrite E1. }
      destruct r1 as [| b r2]; [now exists [] |]. simpl in Hl.
      destruct (ws2 (nat_of_ascii b) (nat_of_ascii a)) eqn:E2.
      { destruct (IH r2) as (w & Hw & Hww); [lia |].
        exists (a :: b :: w). split; [cbn [app]; now rewrite <- Hw |].
        cbn [rev]. rewrite <- app_assoc. apply white_app; [exact Hww |].
        cbn [app white]. now rewrite (ws2_first _ _ E2), E2. }
      destruct r2 as [| c r3]; [now exists [] |]. simpl in Hl.
      destruct (ws3 (nat_of_ascii c) (nat_of_ascii b) (nat_of_ascii a)) eqn:E3;
        [| now exists []].
      destruct (IH r3) as (w & Hw & Hww); [lia |].
      exists (a :: b :: c :: w). split; [cbn [app]; now rewrite <- Hw |].
      cbn [rev]. rewrite <- !app_assoc. apply white_app; [exact Hww |].
      cbn [app white]. destruct (ws3_first _ _ _ E3) as (F1 & F2).
      now rewrite F1, F2, E3. }
  now apply (Hn (length l)).
Qed.

Lemma white_strip l : white l = true -> strip false l = [].
Proof.
  assert (Hn : forall n l, length l <= n -> white l = true ->
                           strip false l = []).
  { induction n as [| n IH]; intros x Hl Hx.
    - destruct x; [reflexivity | simpl in Hl; lia].
    - destruct x as [| a r1]; [reflexivity |]. simpl in Hl.
      cbn [strip white] in *.
      destruct (ws1 (nat_of_ascii a)); [apply IH; [lia | assumption] |].
      destruct r1 as [| b r2]; [discriminate |]. simpl in Hl.
      destruct (ws2 (nat_of_ascii a) (nat_of_ascii b));
        [apply IH; [lia | assumption] |].
      destruct r2 as [| c r3]; [discriminate |]. simpl in Hl.
      apply andb_prop in Hx as (H3 & Hx). rewrite H3.
      apply IH; [lia | assumption]. }
  now apply (Hn (length l)).
Qed.

(** [trim] takes white space off both ends. *)
Lemma trim_inside v :
  exists l r,
    to_list v = l ++ to_list (trim v) ++ r
    /\ white l = true /\ white r = true.
Proof.
  destruct (strip_front (to_list v)) as (wl & Hl & Hwl).
  destruct (strip_back (rev (strip false (to_list v)))) as (wr & Hr & Hwr).
  exists wl, (rev wr). split; [| split; assumption].
  unfold trim. rewrite to_list_of_list.
  rewrite <- rev_app_distr, <- Hr, rev_involutive. exact Hl.
Qed.

(** Nothing is left exactly when the string is white space only. *)
Lemma trim_blank v : is_empty (trim v) = only_space v.
Proof.
  unfold only_space. destruct (white (to_list v)) eqn:Hw.
  - unfold trim. now rewrite (white_strip _ Hw).
  - destruct (is_empty (trim v)) eqn:He; [| reflexivity].
    destruct (trim_inside v) as (l & r & Hv & Hl & Hr).
    destruct (trim v); [| discriminate].
    cbn [to_list app] in Hv. rewrite Hv, (white_app l r Hl Hr) in Hw.
    discriminate.
Qed.

End TrimFacts.

(** ** Adding a comment *)

Section AddComment.
Context {num : Type} {H : Host num}.

Lemma is_empty_iff s : Str.is_empty s = true <-> s = "".
Proof. destruct s; simpl; split; congruence. Qed.

(** C2, as amended.  The button has a form control before it whose value
    is [v].
    What [trim] leaves is [v] without the white space at its two ends, and
    it is empty exactly when [v] holds white space only.  If so the listener
    shows an alert and sends nothing.  If it is not and [getCookie] returns
    [token], the listener sends exactly one POST to [/api/add-comment/]
    whose body is the JSON text of the object with [article_id], the
    [data-article-id] of the button, and [text], the trimmed value, which is
    not empty.  If it is not and [getCookie] throws, the listener throws the
    same exception before [fetch]: nothing is sent and nothing else
    changes. *)
Theorem add_comment_click_spec (this input : nat) (v : string) (st : state) :
  Dom.previousElementSibling this st = (Ok (Some input), st) ->
  Dom.get_value input st = (Ok (Some v), st) ->
  (exists l r,
      Str.to_list v = (l ++ Str.to_list (Str.trim v) ++ r)%list
      /\ white l = true /\ white r = true)
  /\ (Str.trim v = "" <-> only_space v = true)
  /\ (only_space v = true ->
      exists st',
        add_comment_click this st = (Ok None, st')
        /\ dialogs st' = (dialogs st ++ [Alert "Введите текст комментария"])%list
        /\ requests st' = requests st)
  /\ (only_space v = false ->
      forall token, getCookie "csrftoken" st = (Ok token, st) ->
      exists st' articleId,
        Dom.getAttribute this "data-article-id" st = (Ok articleId, st)
        /\ add_comment_click this st = (Ok (Some (articleId, input)), st')
        /\ requests st'
           = (requests st
              ++ [mkFetch "/api/add-comment/" "POST"
                    [("Content-Type", Some "application/json");
                     ("X-CSRFToken", token)]
                    (Some (JSON_stringify
                             (VObj [("article_id", Js.of_attr articleId);
                                    ("text", VStr (Str.trim v))])))])%list
        /\ dialogs st' = dialogs st)
  /\ (only_space v = false ->
      forall e, getCookie "csrftoken" st = (Throw e, st) ->
      add_comment_click this st = (Throw e, st)).
Proof.
  intros Hprev Hval.
  split; [apply TrimFacts.trim_inside |].
  split.
  { rewrite <- TrimFacts.trim_blank. symmetry. apply is_empty_iff. }
  destruct (Dom.getAttribute this "data-article-id" st) as [r st0] eqn:Ha.
  assert (Hst : st0 = st) by (now injection Ha).
  destruct r as [articleId | e]; [subst st0 | discriminate].
  assert (Hrun : add_comment_click this st
                 = (if only_space v
                    then alert "Введите текст комментария" ;; ret None
                    else token <- getCookie "csrftoken" ;;
                         fetch "/api/add-comment/" "POST" (json_headers token)
                           (Some (JSON_stringify
                                    (VObj [("article_id", Js.of_attr articleId);
                                           ("text", VStr (Str.trim v))]))) ;;
                         ret (Some (articleId, input))) st).
  { rewrite <- TrimFacts.trim_blank. unfold add_comment_click.
    unfold bind at 1. rewrite Ha.
    unfold bind at 1. rewrite Hprev. unfold bind at 1, deref, ret.
    unfold bind at 1. rewrite Hval. unfold bind at 1. reflexivity. }
  rewrite Hrun. split; [| split].
  - intros Ht. rewrite Ht. simpl. eexists. split; [reflexivity |].
    split; reflexivity.
  - intros Ht token Hc. rewrite Ht. unfold bind at 1. rewrite Hc.
    exists (snd (fetch "/api/add-comment/" "POST" (json_headers token)
                   (Some (JSON_stringify
                            (VObj [("article_id", Js.of_attr articleId);
                                   ("text", VStr (Str.trim v))]))) st)),
      articleId.
    split; [reflexivity |]. split; [reflexivity |]. split; reflexivity.
  - intros Ht e Hc. rewrite Ht. unfold bind at 1. now rewrite Hc.
Qed.

End AddComment.

(** ** The store *)

Module DomFacts.
Import Tree Ctx Checks TreeFacts Store.

Local Open Scope nat_scope.
Local Open Scope list_scope.

Lemma keeps_eid_classes f : keeps_eid (fun e => Dom.with_classes (f e) e).
Proof. intros e. reflexivity. Qed.

Lemma keeps_eid_attrs f : keeps_eid (fun e => Dom.with_attrs (f e) e).
Proof. intros e. reflexivity. Qed.

Lemma keeps_eid_display d : keeps_eid (Dom.with_display d).
Proof. intros e. reflexivity. Qed.

Lemma keeps_eid_value v : keeps_eid (Dom.with_ctl_value v).
Proof. intros e. reflexivity. Qed.

Lemma keeps_eid_add c :
  keeps_eid (fun e => if has_class c e then e
                      else Dom.with_classes (classes e ++ [c]) e).
Proof. intros e. now destruct (has_class c e). Qed.

Lemma update_elem_run x g st :
  Dom.update_elem x g st = (Ok tt, apply_elem x g st).
Proof. reflexivity. Qed.

Lemma roots_apply_elem x g st :
  Dom.roots (apply_elem x g st) = map (map_elem x g) (Dom.roots st).
Proof. unfold Dom.roots. simpl. now rewrite map_app. Qed.

Lemma node_at_apply_elem x g st y :
  keeps_eid g ->
  Dom.node_at y (apply_elem x g st)
  = option_map (map_elem x g) (Dom.node_at y st).
Proof.
  intros Hg. unfold Dom.node_at. rewrite roots_apply_elem.
  apply (find_map_elem x g Hg y).
Qed.

Lemma wf_apply_elem x g st : keeps_eid g -> wf st -> wf (apply_elem x g st).
Proof.
  intros Hg Hw. unfold wf. rewrite roots_apply_elem.
  now rewrite (proj2 (ids_map_elem x g Hg)).
Qed.

Lemma roots_replace_children x new st :
  Dom.roots (Dom.replace_children x new st)
  = map (set_kids x new) (Dom.roots st) ++ Dom.kids_at x st.
Proof. unfold Dom.roots. simpl. now rewrite map_app, app_assoc. Qed.

Lemma kids_at_found x st e ks :
  Dom.node_at x st = Some (Elem e ks) -> Dom.kids_at x st = ks.
Proof. unfold Dom.kids_at. now intros ->. Qed.

(** After the children of [x] are replaced by nodes without elements, what
    is found at [y] is what was found before with the same replacement,
    unless [y] was a descendant of [x]. *)
Lemma node_at_replace_children x new st y :
  wf st -> ids_f new = [] -> ~ In y (ids_f (Dom.kids_at x st)) ->
  Dom.node_at y (Dom.replace_children x new st)
  = option_map (set_kids x new) (Dom.node_at y st).
Proof.
  intros Hw Hnew Hy. unfold Dom.node_at.
  rewrite roots_replace_children, find_f_app.
  assert (Hy' : ~ In y (ids_f new)) by (rewrite Hnew; intros []).
  rewrite (proj2 (find_set_kids x new y Hy') (Dom.roots st) Hw).
  - destruct (find_f y (Dom.roots st)); simpl; [reflexivity |].
    apply (proj2 (absent_find y)), Hy.
  - intros e ks Hf. now rewrite (kids_at_found x st e ks Hf) in Hy.
Qed.

Lemma wf_replace_children x new st :
  wf st -> ids_f new = [] -> wf (Dom.replace_children x new st).
Proof.
  intros Hw Hnew. unfold wf in *. rewrite roots_replace_children.
  unfold Dom.kids_at, Dom.node_at.
  destruct (find_f x (Dom.roots st)) as [[s | e ks] |] eqn:Hf.
  - destruct (proj2 (find_root x) _ _ Hf) as (? & ? & ? & _). discriminate.
  - destruct (proj2 (find_decompose x) _ _ Hf) as (c & Hc & Hpre).
    rewrite Hc in Hw |- *.
    destruct (proj2 (find_root x) _ _ Hf) as (e' & ks' & [= <- <-] & He).
    destruct (nodup_hole x c e ks Hw He) as (_ & Hpost & Hks).
    rewrite set_kids_plug by assumption. simpl.
    rewrite (proj2 (Nat.eqb_eq _ _) He).
    rewrite ids_f_app, !ids_plug in *.
    change (ids_f [Elem e ks]) with (eid e :: ids_f ks ++ []) in Hw.
    change (ids_f [Elem e new]) with (eid e :: ids_f new ++ []).
    rewrite Hnew. rewrite app_nil_r in Hw. cbn [app].
    apply (Permutation_NoDup (l := cpre c ++ eid e :: ids_f ks ++ cpost c));
      [| exact Hw].
    rewrite <- !app_assoc. apply Permutation_app_head. cbn [app].
    apply perm_skip. apply Permutation_app_comm.
  - rewrite app_nil_r.
    rewrite (proj2 (absent_set_kids x new)); [exact Hw |].
    now apply (proj2 (find_none x)).
Qed.

Lemma ids_text_kids s : ids_f (text_kids s) = [].
Proof. unfold text_kids. now destruct (Str.is_empty s). Qed.

Lemma set_textContent_run x s st :
  Dom.set_textContent x s st = (Ok tt, Dom.replace_children x (text_kids s) st).
Proof. reflexivity. Qed.

Lemma ids_kids_apply_elem x g st c :
  keeps_eid g ->
  ids_f (Dom.kids_at c (apply_elem x g st)) = ids_f (Dom.kids_at c st).
Proof.
  intros Hg. unfold Dom.kids_at. rewrite node_at_apply_elem by exact Hg.
  destruct (Dom.node_at c st) as [[s | e ks] |]; simpl; try reflexivity.
  apply (proj2 (ids_map_elem x g Hg)).
Qed.

Lemma ids_set_kids_text x s :
  (forall n, incl (ids (set_kids x (text_kids s) n)) (ids n))
  /\ (forall f, incl (ids_f (map (set_kids x (text_kids s)) f)) (ids_f f)).
Proof.
  apply node_forest_ind.
  - intros t. apply incl_refl.
  - intros e ks IH. simpl. destruct (eid e =? x); simpl.
    + fold (ids_f (text_kids s)). rewrite ids_text_kids.
      intros y [-> | []]. now left.
    + intros y [-> | Hin]; [now left | right; now apply IH].
  - apply incl_refl.
  - intros n ks IHn IHks. simpl map. rewrite !ids_f_cons.
    apply incl_app; [apply incl_appl, IHn | apply incl_appr, IHks].
Qed.

(** An element selected among the descendants of [b] lies inside [b], and
    so do its children; [b] is not among them. *)
Lemma selected_inside p b st e ks c :
  wf st -> Dom.node_at b st = Some (Elem e ks) -> In c (select_f p ks) ->
  In c (ids_f ks)
  /\ b <> c
  /\ Dom.node_at c st = find_f c ks
  /\ incl (ids_f (Dom.kids_at c st)) (ids_f ks)
  /\ ~ In b (ids_f (Dom.kids_at c st)).
Proof.
  intros Hw Hn Hc.
  destruct (proj2 (find_root b) _ _ Hn) as (e' & ks' & [= <- <-] & He).
  assert (Hin : In c (ids_f ks)) by (apply (proj2 (select_incl p) ks), Hc).
  assert (Hnd : NoDup (ids (Elem e ks))) by (apply (nodup_found b _ _ Hw Hn)).
  simpl in Hnd. inversion Hnd as [| ? ? Hroot Hks]; subst.
  assert (Hne : eid e <> c) by (intros Heq; apply Hroot; now rewrite Heq).
  assert (Hfind : Dom.node_at c st = find_f c ks).
  { unfold Dom.node_at.
    rewrite (find_inside (Dom.roots st) (eid e) (Elem e ks) c Hw Hn)
      by (now right).
    simpl. now rewrite (proj2 (Nat.eqb_neq _ _) Hne). }
  assert (Hk : incl (ids_f (Dom.kids_at c st)) (ids_f ks)).
  { unfold Dom.kids_at. rewrite Hfind.
    destruct (find_f c ks) as [[s | ec kc] |] eqn:Hf;
      try (intros y []).
    pose proof (proj2 (find_incl c) _ _ Hf) as Hi.
    intros y Hy. apply Hi. now right. }
  repeat split; auto.
Qed.

(** An element is not among its own descendants. *)
Lemma not_in_own_kids st x : wf st -> ~ In x (ids_f (Dom.kids_at x st)).
Proof.
  intros Hw. unfold Dom.kids_at.
  destruct (Dom.node_at x st) as [[s | e ks] |] eqn:Hn; try (intros []).
  destruct (proj2 (find_root x) _ _ Hn) as (e' & ks' & [= <- <-] & He).
  pose proof (nodup_found x _ _ Hw Hn) as Hnd. simpl in Hnd.
  inversion Hnd as [| ? ? Hroot _]; subst. exact Hroot.
Qed.

Lemma node_at_replace_self x s st e ks :
  wf st -> Dom.node_at x st = Some (Elem e ks) ->
  Dom.node_at x (Dom.replace_children x (text_kids s) st)
  = Some (Elem e (text_kids s)).
Proof.
  intros Hw Hn.
  rewrite node_at_replace_children;
    [| exact Hw | apply ids_text_kids | now apply not_in_own_kids].
  rewrite Hn. simpl.
  destruct (proj2 (find_root x) _ _ Hn) as (e' & ks' & [= <- <-] & He).
  now rewrite (proj2 (Nat.eqb_eq _ _) He).
Qed.

(** Replacing the children of [x] leaves its former descendants as they
    were: they are found among the detached trees. *)
Lemma node_at_replaced_kid x new st y :
  wf st -> ids_f new = [] -> In y (ids_f (Dom.kids_at x st)) ->
  Dom.node_at y (Dom.replace_children x new st) = Dom.node_at y st.
Proof.
  intros Hw Hnew Hy. unfold Dom.kids_at in Hy.
  destruct (Dom.node_at x st) as [[s | e ks] |] eqn:Hn; try contradiction.
  assert (Hk : Dom.kids_at x st = ks) by (now apply (kids_at_found x st e ks)).
  destruct (proj2 (find_root x) _ _ Hn) as (e' & ks' & [= <- <-] & He).
  pose proof Hn as Hn'. unfold Dom.node_at in Hn'.
  destruct (proj2 (find_decompose x) _ _ Hn') as (c & Hc & Hpre).
  unfold wf in Hw. rewrite Hc in Hw.
  destruct (nodup_hole x c e ks Hw He) as (_ & Hpost & Hks).
  assert (Hyin : In y (ids_f [Elem e ks])).
  { unfold ids_f. simpl. rewrite app_nil_r. now right. }
  destruct (nodup_hole_inside y c _ Hw Hyin) as (Hypre & Hypost).
  assert (Hne : eid e <> y) by (intros Heq; apply Hks; now rewrite <- He, Heq).
  unfold Dom.node_at. rewrite roots_replace_children, Hk, Hc, find_f_app.
  rewrite set_kids_plug by assumption. simpl.
  rewrite (proj2 (Nat.eqb_eq _ _) He).
  assert (Hnone : find_f y (plug c [Elem e new]) = None).
  { apply (proj2 (absent_find y)). rewrite ids_plug.
    intros Hin. apply in_app_or in Hin as [Hin | Hin]; [contradiction |].
    apply in_app_or in Hin as [Hin | Hin]; [| contradiction].
    unfold ids_f in Hin. simpl in Hin. rewrite app_nil_r in Hin.
    fold (ids_f new) in Hin. rewrite Hnew in Hin.
    destruct Hin as [Heq | []]. contradiction. }
  rewrite Hnone.
  destruct (in_found y ks Hy) as (t & Ht).
  rewrite (find_plug y c [Elem e ks] t Hypre).
  - exact Ht.
  - rewrite find_f_cons. simpl. rewrite (proj2 (Nat.eqb_neq _ _) Hne).
    fold (find_f y ks). now rewrite Ht.
Qed.

(** Replacing children by text changes the data of no element. *)
Lemma set_kids_root x new n :
  match set_kids x new n, n with
  | Elem e' _, Elem e _ => e' = e
  | Text s', Text s => s' = s
  | _, _ => False
  end.
Proof. destruct n as [s | e ks]; simpl; [reflexivity |]. now destruct (eid e =? x). Qed.

Lemma elem_at_replace_children x s st y :
  wf st ->
  Dom.elem_at y (Dom.replace_children x (text_kids s) st) = Dom.elem_at y st.
Proof.
  intros Hw. unfold Dom.elem_at.
  destruct (in_dec Nat.eq_dec y (ids_f (Dom.kids_at x st))) as [Hy | Hy].
  - now rewrite node_at_replaced_kid by (auto using ids_text_kids).
  - rewrite node_at_replace_children by (auto using ids_text_kids).
    destruct (Dom.node_at y st) as [n |]; [| reflexivity]. simpl.
    pose proof (set_kids_root x (text_kids s) n) as Hr.
    destruct (set_kids x (text_kids s) n), n; try contradiction; congruence.
Qed.

Lemma lookup_update k v l : lookup k (update k v l) = Some v.
Proof.
  induction l as [| [k' v'] l IH]; cbn [update lookup].
  - now rewrite String.eqb_refl.
  - destruct (String.eqb k k') eqn:E; cbn [lookup]; rewrite E; auto.
Qed.

Lemma lookup_update_other k k' v l :
  k' <> k -> lookup k' (update k v l) = lookup k' l.
Proof.
  intros Hne. induction l as [| [k0 v0] l IH]; cbn [update lookup].
  - now rewrite (proj2 (String.eqb_neq _ _) Hne).
  - destruct (String.eqb k k0) eqn:E; cbn [lookup].
    + apply String.eqb_eq in E. subst k0.
      now rewrite (proj2 (String.eqb_neq _ _) Hne).
    + now rewrite IH.
Qed.

Lemma text_of_text_kids e s : text (Elem e (text_kids s)) = s.
Proof. unfold text_kids. destruct s as [| a s]; reflexivity. Qed.

Lemma map_elem_text_kids x g s :
  map (map_elem x g) (text_kids s) = text_kids s.
Proof. unfold text_kids. now destruct (Str.is_empty s). Qed.

Lemma set_kids_text_kids x new s :
  map (set_kids x new) (text_kids s) = text_kids s.
Proof. unfold text_kids. now destruct (Str.is_empty s). Qed.

End DomFacts.

(** ** Where two forests differ *)

Module DifferFacts.
Import Tree Ctx Checks TreeFacts Store Differ.

Local Open Scope nat_scope.
Local Open Scope list_scope.


Lemma alike_f_app S f1 f1' f2 f2' :
  alike_f S f1 f1' -> alike_f S f2 f2' -> alike_f S (f1 ++ f2) (f1' ++ f2').
Proof. apply Forall2_app. Qed.


Lemma alike_eid S e ks e' ks' :
  alike S (Elem e ks) (Elem e' ks') -> eid e' = eid e.
Proof. intros Ha. inversion Ha; subst; auto. Qed.

Lemma alike_trans S :
  (forall a b c, alike S a b -> alike S b c -> alike S a c)
  /\ (forall f g h, alike_f S f g -> alike_f S g h -> alike_f S f h).
Proof.
  apply node_forest_ind.
  - intros s b c Hab Hbc. inversion Hab; subst. exact Hbc.
  - intros e ks IH b c Hab Hbc. inversion Hab; subst.
    + inversion Hbc; subst.
      * apply alike_at; [assumption | congruence].
      * apply alike_at; assumption.
    + inversion Hbc; subst.
      * apply alike_at; [assumption | assumption].
      * apply alike_off; [assumption | eapply IH; eassumption].
  - intros g h Hfg Hgh. inversion Hfg; subst. exact Hgh.
  - intros n ks IHn IHks g h Hfg Hgh. inversion Hfg; subst.
    inversion Hgh; subst. constructor; [eapply IHn | eapply IHks]; eassumption.
Qed.

(** A change of the data or of the children of an element of [S]. *)
Lemma alike_map_elem S x g :
  In x S -> keeps_eid g ->
  (forall n, alike S n (map_elem x g n))
  /\ (forall f, alike_f S f (map (map_elem x g) f)).
Proof.
  intros Hx Hg. apply node_forest_ind.
  - intros s. constructor.
  - intros e ks IH. simpl. destruct (Nat.eqb_spec (eid e) x) as [Heq | Hne].
    + apply alike_at; [now rewrite Heq | apply Hg].
    + destruct (in_dec Nat.eq_dec (eid e) S) as [Hin | Hout].
      * now apply alike_at.
      * now apply alike_off.
  - constructor.
  - intros n ks Hn Hks. now constructor.
Qed.

Lemma alike_set_kids S x new :
  In x S ->
  (forall n, alike S n (set_kids x new n))
  /\ (forall f, alike_f S f (map (set_kids x new) f)).
Proof.
  intros Hx. apply node_forest_ind.
  - intros s. constructor.
  - intros e ks IH. simpl. destruct (Nat.eqb_spec (eid e) x) as [Heq | Hne].
    + apply alike_at; [now rewrite Heq | reflexivity].
    + destruct (in_dec Nat.eq_dec (eid e) S) as [Hin | Hout].
      * now apply alike_at.
      * now apply alike_off.
  - constructor.
  - intros n ks Hn Hks. now constructor.
Qed.

Lemma exposed_f_cons S n f : exposed_f S (n :: f) = exposed S n ++ exposed_f S f.
Proof. reflexivity. Qed.

Lemma exposed_f_app S f g : exposed_f S (f ++ g) = exposed_f S f ++ exposed_f S g.
Proof. unfold exposed_f. apply flat_map_app. Qed.

Lemma exposed_incl S :
  (forall n, incl (exposed S n) (ids n))
  /\ (forall f, incl (exposed_f S f) (ids_f f)).
Proof.
  apply node_forest_ind.
  - intros s x [].
  - intros e ks IH. simpl. destruct (existsb _ S); [intros x [] |].
    intros x [Hx | Hx]; [now left | right; now apply IH].
  - intros x [].
  - intros n ks IHn IHks. rewrite exposed_f_cons, ids_f_cons.
    apply incl_app; [now apply incl_appl | now apply incl_appr].
Qed.

(** What lies below an element of [S] is not exposed. *)
Lemma exposed_plug S c e ks :
  In (eid e) S ->
  incl (exposed_f S (plug c [Elem e ks])) (cpre c ++ cpost c).
Proof.
  intros He.
  assert (Hroot : exposed S (Elem e ks) = []).
  { simpl. destruct (existsb (Nat.eqb (eid e)) S) eqn:E; [reflexivity |].
    exfalso. apply (proj2 (existsb_eqb_in (eid e) S)) in He. congruence. }
  induction c as [pre post | pre e0 c IH post]; simpl.
  - rewrite exposed_f_app, exposed_f_cons, Hroot. simpl.
    apply incl_app.
    + apply incl_appl, (proj2 (exposed_incl S)).
    + apply incl_appr, (proj2 (exposed_incl S)).
  - rewrite exposed_f_app, exposed_f_cons.
    apply incl_app; [apply incl_appl, incl_appl, (proj2 (exposed_incl S)) |].
    apply incl_app.
    + simpl. destruct (existsb (Nat.eqb (eid e0)) S); [intros x [] |].
      intros x [Hx | Hx].
      * apply in_or_app. left. apply in_or_app. right. now left.
      * fold (exposed_f S (plug c [Elem e ks])) in Hx. apply IH in Hx.
        apply in_app_or in Hx as [Hx | Hx].
        -- apply in_or_app. left. apply in_or_app. right. now right.
        -- apply in_or_app. right. apply in_or_app. now left.
    + apply incl_appr, incl_appr, (proj2 (exposed_incl S)).
Qed.

(** In a forest with distinct identities, what lies inside the subtree of
    an element of [S] is not exposed. *)
Lemma inside_not_exposed S f b t x :
  NoDup (ids_f f) -> In b S -> find_f b f = Some t -> In x (ids t) ->
  ~ In x (exposed_f S f).
Proof.
  intros Hn Hb Hf Hx Hex.
  destruct (proj2 (find_decompose b) _ _ Hf) as (c & -> & _).
  destruct (proj2 (find_root b) _ _ Hf) as (e & ks & -> & He).
  assert (Hin : In x (ids_f [Elem e ks])) by (simpl; now rewrite app_nil_r).
  destruct (nodup_hole_inside _ _ _ Hn Hin) as (Hpre & Hpost).
  apply (exposed_plug S c e ks) in Hex; [| now rewrite He].
  apply in_app_or in Hex as [Hex | Hex]; contradiction.
Qed.

(** An element that is not exposed can be left out of [S]. *)
Lemma alike_shrink S x :
  (forall n n', ~ In x (exposed S n) -> alike (x :: S) n n' -> alike S n n')
  /\ (forall f f', ~ In x (exposed_f S f) -> alike_f (x :: S) f f' ->
                   alike_f S f f').
Proof.
  apply node_forest_ind.
  - intros s n' _ Ha. inversion Ha; subst. constructor.
  - intros e ks IH n' Hx Ha. simpl in Hx.
    destruct (existsb (Nat.eqb (eid e)) S) eqn:E.
    + apply existsb_eqb_in in E. inversion Ha; subst.
      * now apply alike_at.
      * now apply alike_at.
    + assert (Hout : ~ In (eid e) S).
      { intros Hin. apply (proj2 (existsb_eqb_in (eid e) S)) in Hin.
        congruence. }
      inversion Ha as [| ? ? ? ? Hin Heq | ? ? ? Hnot Hall]; subst.
      * exfalso. destruct Hin as [Hin | Hin]; [| contradiction].
        apply Hx. left. now symmetry.
      * apply alike_off; [exact Hout |]. apply IH; [| assumption].
        intros Hin. apply Hx. now right.
  - intros f' _ Ha. inversion Ha. constructor.
  - intros n ks IHn IHks f' Hx Ha. rewrite exposed_f_cons in Hx.
    inversion Ha; subst. constructor.
    + apply IHn; [| assumption]. intro. apply Hx, in_or_app. now left.
    + apply IHks; [| assumption]. intro. apply Hx, in_or_app. now right.
Qed.

(** *** On the page *)

Lemma alike_apply_elem S x g st :
  In x S -> keeps_eid g ->
  alike_f S (document st) (document (apply_elem x g st)).
Proof. intros Hx Hg. apply (proj2 (alike_map_elem S x g Hx Hg)). Qed.

Lemma alike_replace_children S x new st :
  In x S -> alike_f S (document st) (document (Dom.replace_children x new st)).
Proof. intros Hx. apply (proj2 (alike_set_kids S x new Hx)). Qed.

(** What lies inside an element of [S] is not exposed in the document. *)
Lemma inside_not_exposed_document S b t x st :
  wf st -> In b S -> Dom.node_at b st = Some t -> In x (ids t) ->
  ~ In x (exposed_f S (document st)).
Proof.
  intros Hw Hb Hn Hx.
  unfold wf, Dom.roots in Hw. rewrite ids_f_app in Hw.
  destruct (nodup_app_inv _ _ Hw) as (Hdoc & _ & Hdis).
  unfold Dom.node_at, Dom.roots in Hn. rewrite find_f_app in Hn.
  destruct (find_f b (document st)) as [t' |] eqn:Hf.
  - injection Hn as ->. now apply (inside_not_exposed S _ b t x).
  - intros Hex. apply (proj2 (exposed_incl S)) in Hex.
    apply (Hdis x Hex). apply (proj2 (find_incl b) _ _ Hn), Hx.
Qed.

Lemma alike_document_trans S st1 st2 st3 :
  alike_f S (document st1) (document st2) ->
  alike_f S (document st2) (document st3) ->
  alike_f S (document st1) (document st3).
Proof. apply (proj2 (alike_trans S)). Qed.

End DifferFacts.

(** ** Reaction buttons *)

Section Reactions.
Context {num : Type} {H : Host num}.
Import Tree Ctx Checks TreeFacts Store DomFacts.

Local Open Scope list_scope.

(** A value that is greater than zero can be printed. *)
Lemma positive_prints (v : value num) :
  Js.gt0 v = inr true -> exists s, Js.text_of_value v = inr s.
Proof.
  unfold Js.gt0, Js.text_of_value.
  destruct v as [| | b | n | s | items | fs | k]; try discriminate;
    try (intros _; simpl; eauto; fail).
  - intros [= ->]. simpl. eauto.
  - destruct (Js.to_string (VArr items)); [discriminate | eauto].
  - destruct (Js.has_field "toString" fs); discriminate.
Qed.

Lemma update_button_run rc ur b st attr c :
  Dom.getAttribute b "data-reaction" st = (Ok attr, st) ->
  Dom.querySelector b "reaction-count" st = (Ok (Some c), st) ->
  comparable rc attr = true ->
  update_button rc ur b st = (Ok tt, button_state rc ur attr b c st).
Proof.
  intros Ha Hq Hcmp. unfold update_button.
  unfold bind at 1. rewrite Ha. unfold bind at 1. rewrite Hq.
  unfold button_state, count_text, count_display.
  unfold comparable in Hcmp.
  unfold bind, Dom.classList_remove, Dom.classList_add, Dom.set_display,
    deref, ret, lift.
  rewrite !update_elem_run.
  destruct (Js.gt0 (reaction_count rc attr)) as [e | [|]] eqn:Hg;
    [discriminate | |].
  - destruct (positive_prints _ Hg) as (s & Hs). rewrite Hs.
    destruct (Js.strict_eq ur attr); rewrite ?update_elem_run;
      unfold ret; cbv beta iota;
      rewrite set_textContent_run, update_elem_run; reflexivity.
  - destruct (Js.strict_eq ur attr); rewrite ?update_elem_run;
      unfold ret; cbv beta iota;
      rewrite set_textContent_run, update_elem_run; reflexivity.
Qed.

Lemma keeps_eid_drop : keeps_eid drop_active.
Proof. intros e. reflexivity. Qed.

Lemma keeps_eid_add_active : keeps_eid add_active.
Proof. intros e. reflexivity. Qed.

Lemma button_state_wf rc ur attr b c st :
  wf st -> wf (button_state rc ur attr b c st).
Proof.
  intros Hw. unfold button_state.
  apply wf_apply_elem; [apply keeps_eid_display |].
  apply wf_replace_children; [| apply ids_text_kids].
  destruct (Js.strict_eq ur attr);
    repeat (apply wf_apply_elem;
            [first [apply keeps_eid_add_active | apply keeps_eid_drop] |]);
    exact Hw.
Qed.

Lemma button_state_node_at rc ur attr b c st y :
  wf st -> ~ In y (ids_f (Dom.kids_at c st)) ->
  Dom.node_at y (button_state rc ur attr b c st)
  = option_map (button_after rc ur attr b c) (Dom.node_at y st).
Proof.
  intros Hw Hy. unfold button_state, button_after.
  rewrite node_at_apply_elem by apply keeps_eid_display.
  destruct (Js.strict_eq ur attr).
  - rewrite node_at_replace_children.
    + rewrite !node_at_apply_elem
        by first [apply keeps_eid_add_active | apply keeps_eid_drop].
      now destruct (Dom.node_at y st).
    + repeat (apply wf_apply_elem;
              [first [apply keeps_eid_add_active | apply keeps_eid_drop] |]).
      exact Hw.
    + apply ids_text_kids.
    + rewrite !ids_kids_apply_elem
        by first [apply keeps_eid_add_active | apply keeps_eid_drop].
      exact Hy.
  - rewrite node_at_replace_children.
    + rewrite !node_at_apply_elem by apply keeps_eid_drop.
      now destruct (Dom.node_at y st).
    + apply wf_apply_elem; [apply keeps_eid_drop | exact Hw].
    + apply ids_text_kids.
    + rewrite ids_kids_apply_elem by apply keeps_eid_drop. exact Hy.
Qed.

Lemma getAttribute_node b st n :
  Dom.node_at b st = Some n ->
  Dom.getAttribute b "data-reaction" st = (Ok (node_attr n), st).
Proof.
  intros Hn. unfold Dom.getAttribute, gets, Dom.elem_at. rewrite Hn.
  now destruct n.
Qed.

Lemma querySelector_node b st n :
  Dom.node_at b st = Some n ->
  Dom.querySelector b "reaction-count" st = (Ok (node_count n), st).
Proof.
  intros Hn. unfold Dom.querySelector, gets, Dom.kids_at. rewrite Hn.
  now destruct n.
Qed.

Lemma button_after_absent rc ur attr b c n :
  ~ In b (ids n) -> ~ In c (ids n) -> button_after rc ur attr b c n = n.
Proof.
  intros Hb Hc. unfold button_after.
  assert (E : (if Js.strict_eq ur attr
               then map_elem b add_active (map_elem b drop_active n)
               else map_elem b drop_active n) = n).
  { destruct (Js.strict_eq ur attr);
      now rewrite ?(proj1 (absent_map_elem b _) n Hb). }
  rewrite E, (proj1 (absent_set_kids c _) n Hc).
  apply (proj1 (absent_map_elem c _) n Hc).
Qed.

Lemma button_after_ids rc ur attr b c n :
  incl (ids (button_after rc ur attr b c n)) (ids n).
Proof.
  unfold button_after.
  rewrite (proj1 (ids_map_elem c _ (keeps_eid_display _))).
  eapply incl_tran; [apply (proj1 (ids_set_kids_text c _)) |].
  destruct (Js.strict_eq ur attr).
  - rewrite (proj1 (ids_map_elem b _ keeps_eid_add_active)).
    rewrite (proj1 (ids_map_elem b _ keeps_eid_drop)). apply incl_refl.
  - rewrite (proj1 (ids_map_elem b _ keeps_eid_drop)). apply incl_refl.
Qed.

(** The count element of a button lies inside the button, and so do its
    children; the button is not among them. *)
Lemma count_inside b st n c :
  wf st -> Dom.node_at b st = Some n -> node_count n = Some c ->
  In c (ids n)
  /\ incl (ids_f (Dom.kids_at c st)) (ids n)
  /\ ~ In b (ids_f (Dom.kids_at c st)).
Proof.
  intros Hw Hn Hc.
  destruct (proj2 (find_root b) _ _ Hn) as (e & ks & -> & He).
  simpl in Hc. apply hd_error_in in Hc.
  assert (Hin : In c (ids_f ks))
    by (apply (proj2 (select_incl (has_class "reaction-count")) ks), Hc).
  assert (Hnd : NoDup (ids (Elem e ks))) by (apply (nodup_found b _ _ Hw Hn)).
  simpl in Hnd. inversion Hnd as [| ? ? Hroot Hks]; subst.
  assert (Hfind : Dom.node_at c st = find_f c ks).
  { unfold Dom.node_at.
    rewrite (find_inside (Dom.roots st) (eid e) (Elem e ks) c Hw Hn)
      by (now right).
    simpl. destruct (Nat.eqb_spec (eid e) c) as [Heq | _]; [| reflexivity].
    exfalso. apply Hroot. now rewrite Heq. }
  split; [now right |].
  assert (Hk : incl (ids_f (Dom.kids_at c st)) (ids_f ks)).
  { unfold Dom.kids_at. rewrite Hfind.
    destruct (find_f c ks) as [[s | ec kc] |] eqn:Hf;
      try (intros y []).
    pose proof (proj2 (find_incl c) _ _ Hf) as Hi.
    intros y Hy. apply Hi. now right. }
  split.
  - intros y Hy. right. now apply Hk.
  - intros Hb. apply Hroot. now apply Hk.
Qed.

(** One round leaves alone every subtree that shares nothing with the
    button. *)
Lemma round_frame rc ur b st n c y n' :
  wf st -> Dom.node_at b st = Some n -> node_count n = Some c ->
  Dom.node_at y st = Some n' ->
  (forall x, In x (ids n') -> ~ In x (ids n)) ->
  Dom.node_at y (button_state rc ur (node_attr n) b c st) = Some n'.
Proof.
  intros Hw Hn Hc Hy Hd.
  destruct (count_inside b st n c Hw Hn Hc) as (Hcin & Hkids & _).
  rewrite button_state_node_at; [| exact Hw |].
  - rewrite Hy. simpl. f_equal. apply button_after_absent.
    + intros Hb. apply (Hd b Hb). apply (find_f_self _ _ _ Hn).
    + intros Hc'. now apply (Hd c Hc').
  - intros Hk. apply (Hd y).
    + apply (find_f_self _ _ _ Hy).
    + now apply Hkids.
Qed.

Lemma existsb_filter_other a k cs :
  String.eqb a k = false ->
  existsb (String.eqb k) (filter (fun c' => negb (String.eqb a c')) cs)
  = existsb (String.eqb k) cs.
Proof.
  intros Hk. induction cs as [| c r IH]; [reflexivity |].
  cbn [filter existsb].
  destruct (String.eqb a c) eqn:E; cbn [negb existsb].
  - apply String.eqb_eq in E. subst c. rewrite String.eqb_sym, Hk. exact IH.
  - now rewrite IH.
Qed.

(** A class is in the token set exactly when it is in the class list. *)
Lemma existsb_token_set k cs :
  existsb (String.eqb k) (Dom.token_set cs) = existsb (String.eqb k) cs.
Proof.
  induction cs as [| c r IH]; [reflexivity |]. cbn [Dom.token_set existsb].
  destruct (String.eqb k c) eqn:E; [reflexivity |]. cbn [orb].
  rewrite <- IH. apply existsb_filter_other.
  now rewrite String.eqb_sym.
Qed.

Lemma is_button_drop e :
  has_class "reaction-btn" (drop_active e) = has_class "reaction-btn" e.
Proof.
  unfold drop_active, Dom.without_class, has_class. cbn [classes Dom.with_classes].
  rewrite existsb_filter_other by reflexivity. apply existsb_token_set.
Qed.

Lemma is_button_add e :
  has_class "reaction-btn" (add_active e) = has_class "reaction-btn" e.
Proof.
  unfold add_active, Dom.with_class, has_class. cbn [classes Dom.with_classes].
  destruct (existsb (String.eqb "active") (Dom.token_set (classes e)));
    [apply existsb_token_set |].
  rewrite existsb_app. cbn [existsb].
  change (String.eqb "reaction-btn" "active") with false.
  rewrite !orb_false_r. apply existsb_token_set.
Qed.

Lemma buttons_in_map_elem x g n :
  (forall e, has_class "reaction-btn" (g e) = has_class "reaction-btn" e) ->
  keeps_eid g ->
  buttons_in (map_elem x g n) = buttons_in n.
Proof.
  intros Hp Hg. destruct n as [s | e ks]; [reflexivity |]. simpl.
  apply (proj2 (select_map_elem _ x g Hp Hg)).
Qed.

Lemma buttons_in_set_kids x new n :
  NoDup (ids n) ->
  select_f (has_class "reaction-btn") new = [] ->
  (forall e k, find x n = Some (Elem e k) ->
               select_f (has_class "reaction-btn") k = []) ->
  buttons_in (set_kids x new n) = buttons_in n.
Proof.
  intros Hn Hnew Hk. destruct n as [s | e ks]; [reflexivity |].
  simpl in *. destruct (Nat.eqb (eid e) x) eqn:E.
  - simpl. rewrite Hnew. symmetry. now apply (Hk e ks).
  - simpl. inversion Hn; subst.
    apply select_set_kids_none; assumption.
Qed.

Lemma inner_map_elem x g c n :
  (forall e, has_class "reaction-btn" (g e) = has_class "reaction-btn" e) ->
  keeps_eid g ->
  (forall e k, find c n = Some (Elem e k) ->
               select_f (has_class "reaction-btn") k = []) ->
  forall e k, find c (map_elem x g n) = Some (Elem e k) ->
              select_f (has_class "reaction-btn") k = [].
Proof.
  intros Hp Hg Hk e k Hf.
  rewrite (proj1 (find_map_elem x g Hg c)) in Hf.
  destruct (find c n) as [[s | e0 k0] |]; simpl in Hf; try discriminate.
  injection Hf as _ <-.
  rewrite (proj2 (select_map_elem _ x g Hp Hg)). now apply (Hk e0 k0).
Qed.

Lemma select_text_kids_nil p s : select_f p (text_kids s) = [].
Proof. unfold text_kids. now destruct (Str.is_empty s). Qed.

(** A round keeps the reaction buttons of every subtree. *)
Lemma buttons_in_button_after rc ur attr b c n :
  NoDup (ids n) ->
  (forall e k, find c n = Some (Elem e k) ->
               select_f (has_class "reaction-btn") k = []) ->
  buttons_in (button_after rc ur attr b c n) = buttons_in n.
Proof.
  intros Hn Hk. unfold button_after.
  rewrite buttons_in_map_elem
    by first [intros e; reflexivity | apply keeps_eid_display].
  destruct (Js.strict_eq ur attr).
  - rewrite buttons_in_set_kids.
    + rewrite !buttons_in_map_elem
        by first [apply is_button_add | apply is_button_drop
                 | apply keeps_eid_add_active | apply keeps_eid_drop].
      reflexivity.
    + rewrite (proj1 (ids_map_elem b _ keeps_eid_add_active)).
      rewrite (proj1 (ids_map_elem b _ keeps_eid_drop)). exact Hn.
    + apply select_text_kids_nil.
    + apply inner_map_elem;
        [apply is_button_add | apply keeps_eid_add_active |].
      apply inner_map_elem;
        [apply is_button_drop | apply keeps_eid_drop | exact Hk].
  - rewrite buttons_in_set_kids.
    + now rewrite buttons_in_map_elem
        by first [apply is_button_drop | apply keeps_eid_drop].
    + rewrite (proj1 (ids_map_elem b _ keeps_eid_drop)). exact Hn.
    + apply select_text_kids_nil.
    + apply inner_map_elem;
        [apply is_button_drop | apply keeps_eid_drop | exact Hk].
Qed.

Lemma loop_spec rc ur l :
  forall st,
    wf st -> NoDup l -> counted st l -> flat st l -> clean st l ->
    (forall b n, In b l -> Dom.node_at b st = Some n ->
                 comparable rc (node_attr n) = true) ->
    exists st',
      forEach l (update_button rc ur) st = (Ok tt, st')
      /\ wf st'
      /\ (forall b n c,
            In b l -> Dom.node_at b st = Some n -> node_count n = Some c ->
            Dom.node_at b st'
            = Some (button_after rc ur (node_attr n) b c n))
      /\ (forall y n,
            Dom.node_at y st = Some n -> apart st l n ->
            Dom.node_at y st' = Some n)
      /\ (forall y n,
            Dom.node_at y st = Some n -> outside_counts st l y ->
            exists n',
              Dom.node_at y st' = Some n' /\ buttons_in n' = buttons_in n).
Proof.
  induction l as [| b l IH]; intros st Hw Hnd Hcnt Hflat Hcl Hcmp.
  - exists st. split; [reflexivity | split; [exact Hw | split; [| split]]].
    + intros b n c [].
    + auto.
    + intros y n Hy _. now exists n.
  - destruct (Hcnt b (or_introl eq_refl)) as (n & c & Hn & Hc).
    inversion Hnd as [| ? ? Hbl Hnd']; subst.
    pose (st1 := button_state rc ur (node_attr n) b c st).
    assert (Hrun : update_button rc ur b st = (Ok tt, st1)).
    { apply update_button_run;
        [now apply getAttribute_node
        | rewrite <- Hc; now apply querySelector_node
        | now apply (Hcmp b n (or_introl eq_refl))]. }
    assert (Hw1 : wf st1) by (now apply button_state_wf).
    assert (Hother : forall b' n', In b' l -> Dom.node_at b' st = Some n' ->
                       forall x, In x (ids n') -> ~ In x (ids n)).
    { intros b' n' Hb' Hn' x Hx.
      assert (Hne : b' <> b) by (intros ->; contradiction).
      pose proof (Hflat b' b (or_intror Hb') (or_introl eq_refl) Hne x) as Hf.
      unfold subtree_ids in Hf. rewrite Hn', Hn in Hf. now apply Hf. }
    assert (Hsame : forall b', In b' l ->
                      Dom.node_at b' st1 = Dom.node_at b' st).
    { intros b' Hb'. destruct (Hcnt b' (or_intror Hb')) as (n' & c' & Hn' & _).
      rewrite Hn'. apply (round_frame rc ur b st n c b' n' Hw Hn Hc Hn').
      now apply (Hother b'). }
    assert (Hsub : forall b', In b' l -> subtree_ids b' st1 = subtree_ids b' st).
    { intros b' Hb'. unfold subtree_ids. now rewrite Hsame. }
    assert (Hkids : forall b' n' c',
              In b' l -> Dom.node_at b' st = Some n' ->
              node_count n' = Some c' ->
              Dom.kids_at c' st1 = Dom.kids_at c' st).
    { intros b' n' c' Hb' Hn' Hc'.
      destruct (count_inside b' st n' c' Hw Hn' Hc') as (Hcin & _ & _).
      assert (Hroot : In c' (ids_f (Dom.roots st)))
        by (apply (proj2 (find_incl b') _ _ Hn'), Hcin).
      destruct (in_found _ _ Hroot) as (t & Ht).
      assert (Hfc : find c' n' = Some t).
      { rewrite <- Ht. symmetry. apply (find_inside _ b' _ _ Hw Hn' Hcin). }
      assert (E : Dom.node_at c' st1 = Some t).
      { apply (round_frame rc ur b st n c c' t Hw Hn Hc Ht).
        intros x Hx. apply (Hother b' n' Hb' Hn').
        now apply (proj1 (find_incl c') _ _ Hfc). }
      unfold Dom.kids_at. rewrite E. unfold Dom.node_at. now rewrite Ht. }
    destruct (IH st1 Hw1 Hnd') as (st' & Hloop & Hw' & Hbtn & Hframe & Hsel).
    { intros b' Hb'. destruct (Hcnt b' (or_intror Hb')) as (n' & c' & Hn' & Hc').
      exists n', c'. now rewrite Hsame. }
    { intros b1 b2 H1 H2 Hne x. rewrite (Hsub b1 H1), (Hsub b2 H2).
      apply Hflat; auto using in_cons. }
    { intros b' n' c' Hb' Hn' Hc'. rewrite (Hsame b' Hb') in Hn'.
      rewrite (Hkids b' n' c' Hb' Hn' Hc').
      apply (Hcl b' n' c' (or_intror Hb') Hn' Hc'). }
    { intros b' n' Hb' Hn'. rewrite (Hsame b' Hb') in Hn'.
      apply (Hcmp b' n' (or_intror Hb') Hn'). }
    exists st'. split; [| split; [exact Hw' | split; [| split]]].
    + simpl. unfold bind. now rewrite Hrun.
    + intros b0 n0 c0 [<- | Hb0] Hn0 Hc0.
      * rewrite Hn in Hn0. injection Hn0 as <-.
        rewrite Hc in Hc0. injection Hc0 as <-.
        apply Hframe.
        -- destruct (count_inside b st n c Hw Hn Hc) as (_ & _ & Hbk).
           unfold st1. rewrite button_state_node_at by assumption.
           now rewrite Hn.
        -- intros b' Hb' x Hx. rewrite (Hsub b' Hb').
           apply button_after_ids in Hx.
           assert (Hne : b <> b') by (intros ->; contradiction).
           apply (Hflat b b' (or_introl eq_refl) (or_intror Hb') Hne).
           unfold subtree_ids. now rewrite Hn.
      * apply Hbtn; [exact Hb0 | now rewrite Hsame | exact Hc0].
    + intros y n' Hy Hap. apply Hframe.
      * apply (round_frame rc ur b st n c y n' Hw Hn Hc Hy).
        intros x Hx. pose proof (Hap b (or_introl eq_refl) x Hx) as Hf.
        unfold subtree_ids in Hf. now rewrite Hn in Hf.
      * intros b' Hb' x Hx. rewrite (Hsub b' Hb').
        apply (Hap b' (or_intror Hb') x Hx).
    + intros y n0 Hy Hout.
      assert (Hy1 : Dom.node_at y st1
                    = Some (button_after rc ur (node_attr n) b c n0)).
      { unfold st1. rewrite button_state_node_at;
          [now rewrite Hy | exact Hw |].
        apply (Hout b n c (or_introl eq_refl) Hn Hc). }
      destruct (Hsel y _ Hy1) as (n1 & Hn1 & Hb1).
      { intros b' n' c' Hb' Hn' Hc'. rewrite (Hsame b' Hb') in Hn'.
        rewrite (Hkids b' n' c' Hb' Hn' Hc').
        apply (Hout b' n' c' (or_intror Hb') Hn' Hc'). }
      exists n1. split; [exact Hn1 |]. rewrite Hb1.
      apply buttons_in_button_after.
      * apply (nodup_found y _ _ Hw Hy).
      * intros e k Hf.
        assert (Hcin : In c (ids n0)).
        { apply (proj1 (find_incl c) _ _ Hf). apply (find_self c _ _ Hf). }
        rewrite <- (find_inside _ y n0 c Hw Hy Hcin) in Hf.
        specialize (Hcl b n c (or_introl eq_refl) Hn Hc).
        unfold Dom.kids_at, Dom.node_at in Hcl. now rewrite Hf in Hcl.
Qed.

(** *** The card after [updateReactionButtons] *)

Lemma existsb_filter_out a cs :
  existsb (String.eqb a) (filter (fun c' => negb (String.eqb a c')) cs) = false.
Proof.
  induction cs as [| c r IH]; [reflexivity |]. cbn [filter].
  destruct (String.eqb a c) eqn:E; cbn [negb existsb]; [exact IH |].
  now rewrite E.
Qed.

Lemma has_active_drop e : has_class "active" (drop_active e) = false.
Proof. apply existsb_filter_out. Qed.

Lemma has_active_add e : has_class "active" (add_active e) = true.
Proof.
  unfold add_active, Dom.with_class, has_class. cbn [classes Dom.with_classes].
  destruct (existsb (String.eqb "active") (Dom.token_set (classes e))) eqn:E;
    [exact E |].
  rewrite existsb_app. cbn [existsb]. rewrite String.eqb_refl.
  now rewrite orb_true_r.
Qed.

Lemma button_classes_active (ur : value num) attr e :
  has_class "active" (button_classes ur attr e) = Js.strict_eq ur attr.
Proof.
  unfold button_classes. destruct (Js.strict_eq ur attr).
  - apply has_active_add.
  - apply has_active_drop.
Qed.

Lemma button_classes_attrs (ur : value num) attr e :
  attrs (button_classes ur attr e) = attrs e.
Proof. unfold button_classes. now destruct (Js.strict_eq ur attr). Qed.

Lemma button_classes_eid (ur : value num) attr e : eid (button_classes ur attr e) = eid e.
Proof. unfold button_classes. now destruct (Js.strict_eq ur attr). Qed.

(** What a round makes of the subtree of its button. *)
Lemma button_after_shape rc ur e ks c ec kc :
  NoDup (ids (Elem e ks)) ->
  hd_error (select_f (has_class "reaction-count") ks) = Some c ->
  find_f c ks = Some (Elem ec kc) ->
  exists ks',
    button_after rc ur (lookup "data-reaction" (attrs e)) (eid e) c (Elem e ks)
    = Elem (button_classes ur (lookup "data-reaction" (attrs e)) e) ks'
    /\ hd_error (select_f (has_class "reaction-count") ks') = Some c
    /\ find_f c ks'
       = Some (Elem (Dom.with_display
                       (count_display rc (lookup "data-reaction" (attrs e))) ec)
                    (text_kids
                       (count_text rc (lookup "data-reaction" (attrs e))))).
Proof.
  intros Hn Hh Hf. set (attr := lookup "data-reaction" (attrs e)).
  simpl in Hn. inversion Hn as [| ? ? Hroot Hks]; subst.
  assert (Hne : eid e <> c).
  { intros Heq. apply Hroot. rewrite Heq. now apply (found_in c ks _ Hf). }
  destruct (proj2 (find_root c) _ _ Hf) as (ec' & kc' & [= <- <-] & Hec).
  exists (map (map_elem c (Dom.with_display (count_display rc attr)))
            (map (set_kids c (text_kids (count_text rc attr))) ks)).
  assert (Hcls : (if Js.strict_eq ur attr
                  then map_elem (eid e) add_active
                         (map_elem (eid e) drop_active (Elem e ks))
                  else map_elem (eid e) drop_active (Elem e ks))
                 = Elem (button_classes ur attr e) ks).
  { unfold button_classes. simpl. rewrite Nat.eqb_refl.
    rewrite (proj2 (absent_map_elem (eid e) drop_active) ks Hroot).
    destruct (Js.strict_eq ur attr); [| reflexivity].
    simpl. rewrite Nat.eqb_refl.
    now rewrite (proj2 (absent_map_elem (eid e) add_active) ks Hroot). }
  split; [| split].
  - unfold button_after. fold attr. rewrite Hcls. simpl.
    rewrite button_classes_eid, (proj2 (Nat.eqb_neq _ _) Hne). simpl.
    now rewrite button_classes_eid, (proj2 (Nat.eqb_neq _ _) Hne).
  - rewrite (proj2 (select_map_elem (has_class "reaction-count") c
                      (Dom.with_display (count_display rc attr))
                      (fun _ => eq_refl) (fun _ => eq_refl))).
    now apply (select_head_stable _ c ks ec kc).
  - rewrite (proj2 (find_map_elem c _ (keeps_eid_display _) c)).
    rewrite (proj2 (find_set_kids_same c _) ks ec kc Hf). simpl.
    rewrite (proj2 (Nat.eqb_eq _ _) Hec).
    now rewrite map_elem_text_kids.
Qed.

Lemma card_ok_sound card st :
  card_ok card st = true ->
  wf st
  /\ NoDup (buttons_of card st)
  /\ counted st (buttons_of card st)
  /\ flat st (buttons_of card st).
Proof.
  unfold card_ok. intros Hok.
  apply andb_prop in Hok as (Hok & Hflat).
  apply andb_prop in Hok as (Hnd & Hcnt).
  assert (Hw : wf st) by (now apply nodupb_sound).
  split; [exact Hw | split; [| split]].
  - unfold buttons_of, Dom.kids_at.
    destruct (Dom.node_at card st) as [[s | e ks] |] eqn:Hn; try constructor.
    apply (proj2 (nodup_select _)).
    pose proof (nodup_found card _ _ Hw Hn) as Hs. simpl in Hs.
    now inversion Hs.
  - intros b Hb. rewrite forallb_forall in Hcnt. specialize (Hcnt b Hb).
    unfold count_of, Dom.kids_at in Hcnt.
    destruct (Dom.node_at b st) as [[s | e ks] |] eqn:Hn; try discriminate.
    destruct (hd_error _) as [c |] eqn:Hc; [| discriminate].
    exists (Elem e ks), c. split; [reflexivity | exact Hc].
  - intros b b' Hb Hb' Hne. rewrite forallb_forall in Hflat.
    specialize (Hflat b Hb). rewrite forallb_forall in Hflat.
    specialize (Hflat b' Hb').
    apply orb_prop in Hflat as [Heq | Hd].
    + apply Nat.eqb_eq in Heq. contradiction.
    + now apply disjointb_sound.
Qed.

(** Below an element, lookup in the page is lookup among its children. *)
Lemma node_at_kid st x e ks y :
  wf st -> Dom.node_at x st = Some (Elem e ks) -> In y (ids_f ks) ->
  Dom.node_at y st = find_f y ks.
Proof.
  intros Hw Hx Hy.
  pose proof (nodup_found x _ _ Hw Hx) as Hnd. simpl in Hnd.
  inversion Hnd as [| ? ? Hroot _]; subst.
  unfold Dom.node_at.
  rewrite (find_inside (Dom.roots st) x (Elem e ks) y Hw Hx) by (now right).
  simpl. destruct (Nat.eqb_spec (eid e) y) as [Heq | _]; [| reflexivity].
  exfalso. apply Hroot. now rewrite Heq.
Qed.

Lemma card_node card st b :
  In b (buttons_of card st) ->
  exists e ks,
    Dom.node_at card st = Some (Elem e ks)
    /\ buttons_of card st = select_f (has_class "reaction-btn") ks.
Proof.
  unfold buttons_of, Dom.kids_at.
  destruct (Dom.node_at card st) as [[s | e ks] |]; try (intros []).
  intros _. now exists e, ks.
Qed.

(** The count elements of the buttons of a card hold no reaction button. *)
Lemma card_clean card st :
  wf st -> flat st (buttons_of card st) -> clean st (buttons_of card st).
Proof.
  intros Hw Hflat b n c Hb Hn Hc.
  destruct (select_f (has_class "reaction-btn") (Dom.kids_at c st))
    as [| b' r] eqn:Hs; [reflexivity | exfalso].
  assert (Hsel : In b' (select_f (has_class "reaction-btn")
                          (Dom.kids_at c st))) by (rewrite Hs; now left).
  destruct (count_inside b st n c Hw Hn Hc) as (Hcin & Hkin & Hbk).
  assert (Hk : In b' (ids_f (Dom.kids_at c st)))
    by (apply (proj2 (select_incl (has_class "reaction-btn"))), Hsel).
  assert (Hne : b <> b') by (intros ->; contradiction).
  assert (Hunder : In b' (subtree_ids b st))
    by (unfold subtree_ids; rewrite Hn; now apply Hkin).
  assert (Hbtn : In b' (buttons_of card st)).
  { destruct (card_node card st b Hb) as (ecard & ksc & Hcard & Hbs).
    rewrite Hbs in Hb |- *.
    assert (Hbin : In b (ids_f ksc))
      by (apply (proj2 (select_incl (has_class "reaction-btn"))), Hb).
    pose proof (node_at_kid st card ecard ksc b Hw Hcard Hbin) as Hfb.
    rewrite Hn in Hfb. symmetry in Hfb.
    destruct n as [s | eb kb]; [discriminate |].
    apply (select_found_incl _ b ksc eb kb Hfb).
    assert (Hckb : In c (ids_f kb)).
    { apply (proj2 (select_incl (has_class "reaction-count"))).
      now apply hd_error_in. }
    pose proof (node_at_kid st b eb kb c Hw Hn Hckb) as Hfc.
    unfold Dom.kids_at in Hsel.
    destruct (Dom.node_at c st) as [[s | ec kc] |]; try contradiction.
    apply (select_found_incl _ c kb ec kc (eq_sym Hfc)). exact Hsel. }
  assert (Hself : In b' (subtree_ids b' st)).
  { assert (Hroot : In b' (ids_f (Dom.roots st))).
    { apply (proj2 (find_incl b) _ _ Hn). now apply Hkin. }
    destruct (in_found _ _ Hroot) as (t & Ht).
    unfold subtree_ids, Dom.node_at. rewrite Ht.
    apply (find_f_self _ _ _ Ht). }
  apply (Hflat b b' Hb Hbtn Hne b' Hunder Hself).
Qed.

(** The card is not inside the count element of one of its buttons. *)
Lemma card_outside card st :
  wf st -> outside_counts st (buttons_of card st) card.
Proof.
  intros Hw b n c Hb Hn Hc Hin.
  destruct (card_node card st b Hb) as (ecard & ksc & Hcard & Hbs).
  rewrite Hbs in Hb.
  destruct (count_inside b st n c Hw Hn Hc) as (_ & Hkin & _).
  assert (Hbin : In b (ids_f ksc))
    by (apply (proj2 (select_incl (has_class "reaction-btn"))), Hb).
  pose proof (node_at_kid st card ecard ksc b Hw Hcard Hbin) as Hfb.
  rewrite Hn in Hfb. symmetry in Hfb.
  pose proof (nodup_found card _ _ Hw Hcard) as Hnd. simpl in Hnd.
  inversion Hnd as [| ? ? Hroot _]; subst.
  destruct (proj2 (find_root card) _ _ Hcard) as (e' & ks' & [= <- <-] & He).
  apply Hroot. rewrite He.
  apply (proj2 (find_incl b) _ _ Hfb). now apply Hkin.
Qed.

Lemma reaction_of_node b st n :
  Dom.node_at b st = Some n -> reaction_of b st = node_attr n.
Proof.
  intros Hn. unfold reaction_of, Dom.elem_at. rewrite Hn. now destruct n.
Qed.

(** The state of every button of the card after the call. *)
Lemma card_result card rc ur st :
  card_ok card st = true ->
  counts_compare card rc st = true ->
  exists st',
    updateReactionButtons (Some card) rc ur st = (Ok tt, st')
    /\ wf st'
    /\ buttons_of card st' = buttons_of card st
    /\ forall b, In b (buttons_of card st) ->
       exists c,
         count_of b st = Some c
         /\ count_of b st' = Some c
         /\ reaction_of b st' = reaction_of b st
         /\ is_active b st' = Js.strict_eq ur (reaction_of b st)
         /\ shown_text c st' = count_text rc (reaction_of b st)
         /\ shown_display c st' = count_display rc (reaction_of b st).
Proof.
  intros Hok Hcmp.
  destruct (card_ok_sound card st Hok) as (Hw & Hnd & Hcnt & Hflat).
  destruct (loop_spec rc ur (buttons_of card st) st Hw Hnd Hcnt Hflat
              (card_clean card st Hw Hflat))
    as (st' & Hrun & Hw' & Hbtn & _ & Hsel).
  { intros b n Hb Hn. unfold counts_compare in Hcmp.
    rewrite forallb_forall in Hcmp. rewrite <- (reaction_of_node b st n Hn).
    now apply Hcmp. }
  exists st'. split; [| split; [exact Hw' | split]].
  - unfold updateReactionButtons, bind, deref, ret, Dom.querySelectorAll, gets.
    exact Hrun.
  - destruct (Dom.node_at card st) as [n |] eqn:Hcard.
    + destruct (Hsel card n Hcard (card_outside card st Hw))
        as (n' & Hn' & Hin).
      unfold buttons_of, Dom.kids_at. rewrite Hn', Hcard.
      destruct n' as [s' | e' ks'], n as [s | e ks]; exact Hin.
    + assert (Hnil : buttons_of card st = [])
        by (unfold buttons_of, Dom.kids_at; now rewrite Hcard).
      rewrite Hnil in Hrun. injection Hrun as <-. reflexivity.
  - intros b Hb. destruct (Hcnt b Hb) as (n & c & Hn & Hc).
    destruct (proj2 (find_root b) _ _ Hn) as (e & ks & -> & He).
    simpl in Hc. exists c.
    assert (Hs : NoDup (ids (Elem e ks))) by (apply (nodup_found b _ _ Hw Hn)).
    assert (Hcin : In c (ids_f ks)).
    { apply (proj2 (select_incl (has_class "reaction-count")) ks).
      now apply hd_error_in. }
    destruct (in_found c ks Hcin) as (t & Ht).
    destruct (proj2 (find_root c) _ _ Ht) as (ec & kc & -> & Hec).
    specialize (Hbtn b (Elem e ks) c Hb Hn Hc). simpl node_attr in Hbtn.
    destruct (button_after_shape rc ur e ks c ec kc Hs Hc Ht)
      as (ks' & Hshape & Hhd & Hfc).
    rewrite <- He in Hbtn at 2. rewrite Hshape in Hbtn.
    assert (Hattr : reaction_of b st = lookup "data-reaction" (attrs e)).
    { unfold reaction_of, Dom.elem_at. now rewrite Hn. }
    assert (Hnc : Dom.node_at c st'
                  = Some (Elem (Dom.with_display
                                  (count_display rc
                                     (lookup "data-reaction" (attrs e))) ec)
                               (text_kids
                                  (count_text rc
                                     (lookup "data-reaction" (attrs e)))))).
    { unfold Dom.node_at.
      rewrite (find_inside (Dom.roots st') b _ c Hw' Hbtn).
      - simpl. rewrite button_classes_eid.
        destruct (Nat.eqb_spec (eid e) c) as [Heq | _]; [| exact Hfc].
        exfalso. simpl in Hs. inversion Hs as [| ? ? Hroot _]; subst.
        apply Hroot. now rewrite Heq.
      - right. now apply (found_in c ks' _ Hfc). }
    rewrite Hattr. repeat split.
    + unfold count_of, Dom.kids_at. now rewrite Hn.
    + unfold count_of, Dom.kids_at. now rewrite Hbtn.
    + unfold reaction_of, Dom.elem_at. rewrite Hbtn.
      now rewrite button_classes_attrs.
    + unfold is_active, Dom.elem_at. rewrite Hbtn.
      apply button_classes_active.
    + unfold shown_text. rewrite Hnc. apply text_of_text_kids.
    + unfold shown_display, Dom.elem_at. now rewrite Hnc.
Qed.

(** Strict equality with a [dataset] entry is equality of values. *)
Lemma strict_eq_spec (ur : value num) a :
  Js.strict_eq ur a = true <-> ur = Js.of_attr a.
Proof.
  unfold Js.strict_eq, Js.of_attr. split.
  - destruct ur, a as [s1 |]; try discriminate; try reflexivity.
    intros Heq. apply String.eqb_eq in Heq. now subst.
  - intros ->. destruct a as [s1 |]; [apply String.eqb_refl | reflexivity].
Qed.

Lemma of_attr_inj a a' : Js.of_attr (num := num) a = Js.of_attr a' -> a = a'.
Proof. destruct a, a'; simpl; congruence. Qed.

(** [attr_string] is [ToString] of a [dataset] entry. *)
Lemma attr_string_spec a :
  Js.to_string (Js.of_attr (num := num) a) = inr (Js.attr_string a).
Proof. now destruct a. Qed.

Lemma nodup_map_inj {A B} (f : A -> B) (l : list A) a b :
  NoDup (map f l) -> In a l -> In b l -> f a = f b -> a = b.
Proof.
  induction l as [| x l IH]; [intros _ [] |].
  simpl. intros Hn Ha Hb Hf. inversion Hn as [| ? ? Hx Hn']; subst.
  destruct Ha as [-> | Ha], Hb as [-> | Hb]; auto.
  - exfalso. apply Hx. rewrite Hf. now apply in_map.
  - exfalso. apply Hx. rewrite <- Hf. now apply in_map.
Qed.

(** *** The classes of the buttons, on any page

    What the loop does to the classes asks nothing of the card: a round
    writes the classes of its own button only, and no round writes an
    attribute. *)

Lemma elem_at_apply_elem x g st y :
  keeps_eid g ->
  Dom.elem_at y (apply_elem x g st)
  = option_map (fun e => if (eid e =? x)%nat then g e else e) (Dom.elem_at y st).
Proof.
  intros Hg. unfold Dom.elem_at. rewrite node_at_apply_elem by exact Hg.
  now destruct (Dom.node_at y st) as [[s | e ks] |].
Qed.

Lemma elem_at_is y st e : Dom.elem_at y st = Some e -> eid e = y.
Proof.
  unfold Dom.elem_at, Dom.node_at.
  destruct (find_f y (Dom.roots st)) as [t |] eqn:Hf; [| discriminate].
  destruct (proj2 (find_root y) _ _ Hf) as (e' & ks & -> & He).
  now intros [= <-].
Qed.

Lemma button_in_store card st b :
  In b (buttons_of card st) -> Dom.elem_at b st <> None.
Proof.
  unfold buttons_of, Dom.kids_at. intros Hin.
  destruct (Dom.node_at card st) as [[s | e ks] |] eqn:Hc;
    try contradiction.
  apply (proj2 (select_incl _)) in Hin.
  assert (Hr : In b (ids_f (Dom.roots st))).
  { apply (proj2 (find_incl card) _ _ Hc). now right. }
  unfold Dom.elem_at, Dom.node_at.
  destruct (find_f b (Dom.roots st)) as [t |] eqn:Hf.
  - destruct (proj2 (find_root b) _ _ Hf) as (e' & ks' & -> & _). discriminate.
  - now apply (proj2 (find_none b)) in Hf.
Qed.

Lemma round_elem_attrs (ur : value num) attr b c d e :
  attrs (round_elem ur attr b c d e) = attrs e.
Proof.
  unfold round_elem. cbv zeta.
  destruct (eid e =? b)%nat; [rewrite button_classes_eid |];
    destruct (eid e =? c)%nat; cbn [Dom.with_display attrs];
    try apply button_classes_attrs; reflexivity.
Qed.

Lemma round_elem_classes (ur : value num) attr b c d e :
  classes (round_elem ur attr b c d e)
  = if (eid e =? b)%nat then classes (button_classes ur attr e) else classes e.
Proof.
  unfold round_elem. cbv zeta.
  destruct (eid e =? b)%nat; [rewrite button_classes_eid |];
    destruct (eid e =? c)%nat; reflexivity.
Qed.

Lemma round_elems rc ur b st st1 :
  wf st -> update_button rc ur b st = (Ok tt, st1) ->
  wf st1
  /\ exists c d, forall y,
       Dom.elem_at y st1
       = option_map (round_elem ur (reaction_of b st) b c d) (Dom.elem_at y st).
Proof.
  intros Hw. unfold update_button.
  unfold bind at 1. unfold Dom.getAttribute at 1, gets at 1.
  unfold bind at 1. unfold Dom.querySelector at 1, gets at 1.
  unfold bind at 1. unfold Dom.classList_remove. rewrite update_elem_run.
  fold (reaction_of b st).
  set (attr := reaction_of b st).
  set (s0 := apply_elem b (Dom.without_class "active") st).
  assert (Hcls : exists sa,
            (if Js.strict_eq ur attr
             then Dom.classList_add b "active" else ret tt) s0 = (Ok tt, sa)
            /\ wf sa
            /\ forall y,
                 Dom.elem_at y sa
                 = option_map
                     (fun e => if (eid e =? b)%nat then button_classes ur attr e
                               else e) (Dom.elem_at y st)).
  { assert (Hw0 : wf s0)
      by (apply wf_apply_elem; [intros e; reflexivity | exact Hw]).
    unfold button_classes. destruct (Js.strict_eq ur attr).
    - exists (apply_elem b (Dom.with_class "active") s0).
      split; [reflexivity |]. split.
      + apply wf_apply_elem; [intros e; reflexivity | exact Hw0].
      + intros y. unfold s0.
        rewrite !elem_at_apply_elem by (intros e; reflexivity).
        destruct (Dom.elem_at y st) as [e |]; [| reflexivity]. simpl.
        now destruct (eid e =? b)%nat eqn:E; simpl; rewrite E.
    - exists s0. split; [reflexivity |]. split; [exact Hw0 |].
      intros y. unfold s0.
      now rewrite elem_at_apply_elem by (intros e; reflexivity). }
  destruct Hcls as (sa & Hrun & Hwa & Hea).
  unfold bind at 1. rewrite Hrun.
  unfold bind at 1.
  destruct (Js.gt0 (reaction_count rc attr)) as [e | positive];
    [discriminate |].
  unfold lift at 1, ret at 1.
  destruct (hd_error (select_f (has_class "reaction-count") (Dom.kids_at b st)))
    as [c |]; [| destruct positive; discriminate].
  assert (Hfin : forall s d,
            wf (apply_elem c (Dom.with_display d)
                  (Dom.replace_children c (text_kids s) sa))
            /\ forall y,
                 Dom.elem_at y (apply_elem c (Dom.with_display d)
                                  (Dom.replace_children c (text_kids s) sa))
                 = option_map (round_elem ur attr b c d) (Dom.elem_at y st)).
  { intros s d. split.
    - apply wf_apply_elem; [apply keeps_eid_display |].
      apply wf_replace_children; [exact Hwa | apply ids_text_kids].
    - intros y. rewrite elem_at_apply_elem by apply keeps_eid_display.
      rewrite elem_at_replace_children by exact Hwa. rewrite Hea.
      now destruct (Dom.elem_at y st). }
  destruct positive.
  - unfold bind at 1, deref at 1, ret at 1.
    unfold bind at 1.
    destruct (Js.text_of_value (reaction_count rc attr)) as [e | text];
      [discriminate |].
    unfold lift at 1, ret at 1.
    unfold bind. rewrite set_textContent_run. unfold Dom.set_display.
    rewrite update_elem_run. intros [= <-].
    destruct (Hfin text "inline") as (Hwf & He). split; [exact Hwf |].
    now exists c, "inline".
  - unfold bind at 1, deref at 1, ret at 1.
    unfold bind. rewrite set_textContent_run. unfold Dom.set_display.
    rewrite update_elem_run. intros [= <-].
    destruct (Hfin "" "none") as (Hwf & He). split; [exact Hwf |].
    now exists c, "none".
Qed.

(** The loop, when it returns. *)
Lemma loop_classes rc ur l :
  NoDup l ->
  forall st st', wf st ->
    forEach l (update_button rc ur) st = (Ok tt, st') ->
    (forall y, option_map attrs (Dom.elem_at y st')
               = option_map attrs (Dom.elem_at y st))
    /\ (forall y, ~ In y l ->
          option_map classes (Dom.elem_at y st')
          = option_map classes (Dom.elem_at y st))
    /\ (forall b, In b l -> Dom.elem_at b st <> None ->
          is_active b st' = Js.strict_eq ur (reaction_of b st)).
Proof.
  induction l as [| b l IH]; intros Hnd st st' Hw.
  - cbn [forEach]. intros [= <-]. repeat split; intros; try reflexivity.
    contradiction.
  - inversion Hnd as [| ? ? Hb Hnd']; subst.
    cbn [forEach]. unfold bind.
    destruct (update_button rc ur b st) as [[[] | e] st1] eqn:Hrun;
      [| discriminate].
    intros Hrest.
    destruct (round_elems rc ur b st st1 Hw Hrun) as (Hw1 & c & d & He).
    destruct (IH Hnd' st1 st' Hw1 Hrest) as (Hattr & Hcls & Hact).
    assert (Hattr1 : forall y, option_map attrs (Dom.elem_at y st1)
                               = option_map attrs (Dom.elem_at y st)).
    { intros y. rewrite He. destruct (Dom.elem_at y st); [| reflexivity].
      simpl. now rewrite round_elem_attrs. }
    assert (Hreact : forall y, reaction_of y st1 = reaction_of y st).
    { intros y. unfold reaction_of. pose proof (Hattr1 y) as Hy.
      destruct (Dom.elem_at y st1), (Dom.elem_at y st); simpl in Hy;
        congruence. }
    split; [| split].
    + intros y. now rewrite Hattr.
    + intros y Hy. rewrite Hcls by (intros Hin; apply Hy; now right).
      rewrite He. destruct (Dom.elem_at y st) as [e |] eqn:Hey;
        [| reflexivity].
      simpl. rewrite round_elem_classes.
      rewrite (elem_at_is _ _ _ Hey).
      destruct (Nat.eqb_spec y b) as [-> | _]; [| reflexivity].
      exfalso. apply Hy. now left.
    + intros b' [<- | Hin] Hsome.
      * unfold is_active. pose proof (Hcls b Hb) as Hc.
        rewrite He in Hc.
        destruct (Dom.elem_at b st) as [e |] eqn:Heb; [| contradiction].
        simpl in Hc. rewrite round_elem_classes in Hc.
        rewrite (elem_at_is _ _ _ Heb), Nat.eqb_refl in Hc.
        destruct (Dom.elem_at b st') as [e' |]; [| discriminate].
        simpl in Hc. injection Hc as Hc.
        unfold has_class. rewrite Hc.
        apply (button_classes_active ur (reaction_of b st) e).
      * rewrite <- Hreact. apply Hact; [exact Hin |].
        rewrite He. destruct (Dom.elem_at b' st); [discriminate | contradiction].
Qed.

Lemma nodup_buttons card st : wf st -> NoDup (buttons_of card st).
Proof.
  intros Hw. unfold buttons_of, Dom.kids_at.
  destruct (Dom.node_at card st) as [[s | e ks] |] eqn:Hn; try constructor.
  apply (proj2 (nodup_select _)).
  pose proof (nodup_found card _ _ Hw Hn) as Hs. simpl in Hs.
  now inversion Hs.
Qed.

(** C4, as amended.  On a page whose elements have distinct identities,
    after [updateReactionButtons] has returned, with any response data: a
    reaction button that the card had keeps its [data-reaction] and has the
    class [active] exactly when the resulting reaction type is its
    [data-reaction] (a string equal to it, or [undefined] when the button
    has none).  Hence no button is active when that type is [null], and at
    most one is active when the buttons carry pairwise different
    [data-reaction] values.  The call does return, and the card keeps its
    reaction buttons, when every reaction button of the card has a count
    element, no reaction button lies inside another, and the counts compare
    with zero without an error. *)
Theorem active_button_is_user_reaction (card : nat) (rc ur : value num)
    (st : state) :
  distinct_ids st = true ->
  (forall st',
      updateReactionButtons (Some card) rc ur st = (Ok tt, st') ->
      (forall b, In b (buttons_of card st) ->
         reaction_of b st' = reaction_of b st
         /\ (is_active b st' = true
             <-> ur = match reaction_of b st' with
                      | Some r => VStr r
                      | None => VUndefined
                      end))
      /\ (ur = VNull ->
          forall b, In b (buttons_of card st) -> is_active b st' = false)
      /\ (NoDup (map (fun b => reaction_of b st') (buttons_of card st)) ->
          forall b b',
            In b (buttons_of card st) -> In b' (buttons_of card st) ->
            is_active b st' = true -> is_active b' st' = true -> b = b'))
  /\ (card_ok card st = true ->
      counts_compare card rc st = true ->
      exists st',
        updateReactionButtons (Some card) rc ur st = (Ok tt, st')
        /\ buttons_of card st' = buttons_of card st).
Proof.
  intros Hd. apply nodupb_sound in Hd. fold (wf st) in Hd. split.
  - intros st' Hrun.
    unfold updateReactionButtons, bind, deref, ret, Dom.querySelectorAll,
      gets in Hrun.
    destruct (loop_classes rc ur (buttons_of card st) (nodup_buttons card st Hd)
                st st' Hd Hrun) as (Hattr & _ & Hactive).
    assert (Hreact : forall b, reaction_of b st' = reaction_of b st).
    { intros b. unfold reaction_of. pose proof (Hattr b) as Hb.
      destruct (Dom.elem_at b st'), (Dom.elem_at b st); simpl in Hb;
        congruence. }
    assert (Hact : forall b, In b (buttons_of card st) ->
                     reaction_of b st' = reaction_of b st
                     /\ (is_active b st' = true
                         <-> ur = Js.of_attr (reaction_of b st'))).
    { intros b Hin. split; [apply Hreact |].
      rewrite (Hactive b Hin (button_in_store card st b Hin)), Hreact.
      apply strict_eq_spec. }
    split; [exact Hact | split].
    + intros -> b Hin. destruct (Hact b Hin) as (_ & Hiff).
      destruct (is_active b st'); [| reflexivity].
      pose proof (proj1 Hiff eq_refl) as Heq.
      destruct (reaction_of b st'); discriminate Heq.
    + intros Hnd b b' Hin Hin' Ha Ha'.
      apply (nodup_map_inj (fun b => reaction_of b st') _ b b' Hnd Hin Hin').
      apply of_attr_inj.
      rewrite <- (proj1 (proj2 (Hact b Hin)) Ha).
      apply (proj1 (proj2 (Hact b' Hin')) Ha').
  - intros Hok Hcmp.
    destruct (card_result card rc ur st Hok Hcmp)
      as (st' & Hrun & _ & Hsame & _).
    exists st'. split; [exact Hrun | exact Hsame].
Qed.







End Reactions.

(** ** Favourites *)

Section Favorites.
Context {num : Type} {H : Host num}.
Import Tree Ctx Checks TreeFacts Store DomFacts Differ DifferFacts.

Local Open Scope nat_scope.
Local Open Scope list_scope.

Lemma favorite_run this icon data s st :
  first_of "favorite-icon" this st = Some icon ->
  Js.get data "success" = inr s -> Js.truthy s = true ->
  favorite_response this (Parsed data) st
  = (Ok tt,
     apply_elem this
       (fun e => Dom.with_attrs
                   (update "title" (favorite_label (is_favorite data)) (attrs e)) e)
       (Dom.replace_children icon
          (text_kids (favorite_star (is_favorite data))) st)).
Proof.
  intros Hicon Hs Ht.
  unfold favorite_response, settle, try_catch, favorite_data.
  unfold bind at 1. rewrite Hs. unfold lift, ret. rewrite Ht.
  unfold bind at 1. unfold Dom.querySelector, gets.
  fold (first_of "favorite-icon" this st). rewrite Hicon.
  unfold is_favorite.
  assert (Hv : exists v, Js.get data "is_favorite" = inr v).
  { destruct data; simpl in *; try discriminate; eauto. }
  destruct Hv as (v & Hv). rewrite Hv. unfold bind at 1.
  destruct (Js.truthy v); reflexivity.
Qed.

(** C5.  The button has an icon element.  On a response with a truthy
    [success], the text of the icon becomes the full star and the [title]
    the remove label when [is_favorite] is truthy (so when it is [true]),
    the empty star and the add label otherwise (so when it is [false]).
    Nothing else changes: the element of the button keeps its data but for
    [title], and its subtree but for the children of the icon; the
    document is what it was but for the button, which is still in its
    place; no dialog is shown, nothing is logged, no request is sent and no
    element is created. *)
Theorem favorite_success_patch (this icon : nat) (data s : value num)
    (st : state) :
  distinct_ids st = true ->
  first_of "favorite-icon" this st = Some icon ->
  Js.get data "success" = inr s -> Js.truthy s = true ->
  exists st',
    favorite_response this (Parsed data) st = (Ok tt, st')
    /\ shown_text icon st' = favorite_star (is_favorite data)
    /\ attribute "title" this st' = Some (favorite_label (is_favorite data))
    /\ (forall b, Js.get data "is_favorite" = inr (VBool b) ->
          shown_text icon st' = (if b then "⭐" else "☆")
          /\ attribute "title" this st'
             = Some (if b then "Удалить из избранного"
                     else "Добавить в избранное"))
    /\ (exists e ks,
          Dom.node_at this st = Some (Elem e ks)
          /\ Dom.node_at this st'
             = Some (Elem
                       (Dom.with_attrs
                          (update "title" (favorite_label (is_favorite data))
                             (attrs e)) e)
                       (map (set_kids icon
                               (text_kids (favorite_star (is_favorite data))))
                          ks))
          /\ alike_f [icon] ks
               (map (set_kids icon
                       (text_kids (favorite_star (is_favorite data)))) ks))
    /\ alike_f [this] (document st) (document st')
    /\ talk st' = talk st
    /\ next_id st' = next_id st.
Proof.
  intros Hd Hicon Hs Ht. apply nodupb_sound in Hd. fold (wf st) in Hd.
  rewrite (favorite_run this icon data s st Hicon Hs Ht).
  eexists. split; [reflexivity |].
  set (star := favorite_star (is_favorite data)).
  set (label := favorite_label (is_favorite data)).
  set (g := fun e => Dom.with_attrs (update "title" label (attrs e)) e).
  assert (Hg : keeps_eid g) by (intros e; reflexivity).
  unfold first_of, Dom.kids_at in Hicon.
  destruct (Dom.node_at this st) as [[t | e ks] |] eqn:Hn; try discriminate.
  apply hd_error_in in Hicon.
  destruct (selected_inside _ this st e ks icon Hd Hn Hicon)
    as (Hin & Hne & Hfind & Hkids & Hthis).
  destruct (proj2 (find_root this) _ _ Hn) as (e' & ks' & [= <- <-] & He).
  assert (Hnode : Dom.node_at this
                    (apply_elem this g
                       (Dom.replace_children icon (text_kids star) st))
                  = Some (Elem (g e) (map (set_kids icon (text_kids star)) ks))).
  { rewrite node_at_apply_elem by exact Hg.
    rewrite node_at_replace_children;
      [| exact Hd | apply ids_text_kids | exact Hthis].
    rewrite Hn. rewrite <- He in Hne. simpl.
    rewrite (proj2 (Nat.eqb_neq _ _) Hne). simpl.
    rewrite (proj2 (Nat.eqb_eq _ _) He). f_equal. f_equal.
    apply (proj2 (absent_map_elem this g)).
    intros Hc. apply (proj2 (ids_set_kids_text icon star)) in Hc.
    pose proof (nodup_found this _ _ Hd Hn) as Hnd. simpl in Hnd.
    inversion Hnd as [| ? ? Hroot _]; subst. now apply Hroot. }
  assert (Hshown : shown_text icon
                     (apply_elem this g
                        (Dom.replace_children icon (text_kids star) st))
                   = star).
  { destruct (in_found icon ks Hin) as (ti & Hti).
    destruct (proj2 (find_root icon) _ _ Hti) as (ei & ki & -> & Hei).
    rewrite <- Hfind in Hti.
    unfold shown_text. rewrite node_at_apply_elem by exact Hg.
    rewrite (node_at_replace_self icon star st ei ki Hd Hti). simpl.
    rewrite map_elem_text_kids. exact (text_of_text_kids ei star). }
  assert (Htitle : attribute "title" this
                     (apply_elem this g
                        (Dom.replace_children icon (text_kids star) st))
                   = Some label).
  { unfold attribute, Dom.elem_at. rewrite Hnode. unfold g. simpl.
    apply lookup_update. }
  split; [exact Hshown | split; [exact Htitle |]].
  split; [| split; [| split; [| split; reflexivity]]].
  - intros b Hb. rewrite Hshown, Htitle. unfold star, label, is_favorite.
    rewrite Hb. simpl. now destruct b.
  - exists e, ks. split; [reflexivity | split; [exact Hnode |]].
    apply (proj2 (alike_set_kids [icon] icon _ (or_introl eq_refl))).
  - apply (proj2 (alike_shrink [this] icon)).
    + apply (inside_not_exposed_document [this] this (Elem e ks) icon st Hd
               (or_introl eq_refl) Hn).
      simpl. now right.
    + apply (alike_document_trans _ st
               (Dom.replace_children icon (text_kids star) st)).
      * apply alike_replace_children. now left.
      * apply alike_apply_elem; [right; now left | exact Hg].
Qed.

End Favorites.

(** ** Editing a comment *)

Section EditComment.
Context {num : Type} {H : Host num}.
Import Tree Ctx Checks TreeFacts Store DomFacts Frame FrameFacts.
Import Differ DifferFacts.

Local Open Scope nat_scope.
Local Open Scope list_scope.

(** The listener never changes the page. *)
Lemma edit_click_keeps_page target answer :
  keeps page_of (edit_comment_click (H := H) target answer).
Proof.
  unfold edit_comment_click, Dom.classList_contains, Dom.getAttribute,
    Dom.closest, Dom.querySelector, Dom.get_textContent.
  keeps_auto.
Qed.

(** What the listener does on an edit button inside a comment item that has
    a text element. *)
Lemma edit_click_run target item ctext answer st :
  Dom.classList_contains target "edit-comment-btn" st = (Ok true, st) ->
  Dom.closest target "comment-item" st = (Ok (Some item), st) ->
  first_of "comment-text" item st = Some ctext ->
  edit_comment_click target answer st
  = (newText <- prompt "Редактировать комментарий:"
                  (Str.trim (shown_text ctext st)) answer ;;
     match newText with
     | Some new =>
         if negb (Str.is_empty new)
            && negb (String.eqb new (Str.trim (shown_text ctext st)))
         then
           token <- getCookie "csrftoken" ;;
           fetch ("/api/edit-comment/"
                  ++ Js.attr_string (attribute "data-comment-id" target st) ++ "/")%string
                 "POST" (json_headers token)
                 (Some (JSON_stringify (VObj [("text", VStr new)]))) ;;
           ret (Some (item, ctext))
         else ret None
     | None => ret None
     end) st.
Proof.
  intros Hc Hi Ht. unfold edit_comment_click.
  unfold bind at 1. rewrite Hc.
  unfold bind at 1. unfold Dom.getAttribute at 1, gets at 1.
  unfold bind at 1. rewrite Hi.
  unfold bind at 1, deref, ret.
  unfold bind at 1. unfold Dom.querySelector at 1, gets at 1.
  fold (first_of "comment-text" item st). rewrite Ht.
  unfold bind at 1. unfold bind at 1.
  unfold Dom.get_textContent at 1, gets at 1.
  reflexivity.
Qed.

Lemma edit_click_only_when target answer st :
  requests (snd (edit_comment_click (H := H) target answer st)) <> requests st ->
  exists new item ctext,
    answer = Some new /\ new <> ""%string
    /\ Dom.closest target "comment-item" st = (Ok (Some item), st)
    /\ first_of "comment-text" item st = Some ctext
    /\ new <> Str.trim (shown_text ctext st).
Proof.
  intros Hreq.
  destruct (Dom.classList_contains target "edit-comment-btn" st)
    as [rc st0] eqn:Hc.
  assert (st0 = st) by (now injection Hc). subst st0.
  destruct rc as [[|] | e]; try discriminate.
  - destruct (Dom.closest target "comment-item" st) as [ri st0] eqn:Hi.
    assert (st0 = st) by (now injection Hi). subst st0.
    destruct ri as [[item |] | e]; try discriminate.
    + destruct (first_of "comment-text" item st) as [ctext |] eqn:Ht.
      * rewrite (edit_click_run target item ctext answer st Hc Hi Ht) in Hreq.
        unfold bind, prompt, modify, ret in Hreq. simpl in Hreq.
        destruct answer as [new |]; [| now contradiction Hreq].
        destruct (Str.is_empty new) eqn:He;
          [now contradiction Hreq |].
        destruct (String.eqb new (Str.trim (shown_text ctext st))) eqn:Hq;
          [now contradiction Hreq |].
        exists new, item, ctext. repeat split; auto.
        -- intros ->. discriminate.
        -- now apply String.eqb_neq.
      * exfalso. apply Hreq. unfold edit_comment_click.
        unfold bind at 1. rewrite Hc.
        unfold bind at 1. unfold Dom.getAttribute at 1, gets at 1.
        unfold bind at 1. rewrite Hi.
        unfold bind at 1, deref, ret.
        unfold bind at 1. unfold Dom.querySelector at 1, gets at 1.
        fold (first_of "comment-text" item st). rewrite Ht.
        reflexivity.
    + exfalso. apply Hreq. unfold edit_comment_click.
      unfold bind at 1. rewrite Hc.
      unfold bind at 1. unfold Dom.getAttribute at 1, gets at 1.
      unfold bind at 1. rewrite Hi. reflexivity.
  - exfalso. apply Hreq. unfold edit_comment_click.
    unfold bind at 1. rewrite Hc. reflexivity.
Qed.

Lemma edit_click_sends target item ctext new token st :
  Dom.classList_contains target "edit-comment-btn" st = (Ok true, st) ->
  Dom.closest target "comment-item" st = (Ok (Some item), st) ->
  first_of "comment-text" item st = Some ctext ->
  new <> ""%string -> new <> Str.trim (shown_text ctext st) ->
  getCookie "csrftoken" st = (Ok token, st) ->
  exists st',
    edit_comment_click target (Some new) st = (Ok (Some (item, ctext)), st')
    /\ requests st'
       = requests st
         ++ [mkFetch
               ("/api/edit-comment/"
                ++ Js.attr_string (attribute "data-comment-id" target st) ++ "/")%string
               "POST"
               [("Content-Type", Some "application/json");
                ("X-CSRFToken", token)]
               (Some (JSON_stringify (VObj [("text", VStr new)])))].
Proof.
  intros Hc Hi Ht Hne Hneq Hck.
  rewrite (edit_click_run target item ctext (Some new) st Hc Hi Ht).
  unfold bind at 1. unfold prompt, bind, modify, ret. cbv beta iota.
  assert (He : Str.is_empty new = false) by (now destruct new).
  rewrite He, (proj2 (String.eqb_neq _ _) Hneq). cbn [negb andb].
  unfold getCookie in *. cbn [cookie] in *.
  injection Hck as Hck. rewrite Hck. cbv beta iota.
  eexists. split; reflexivity.
Qed.

Lemma select_text_kids p s : select_f p (text_kids s) = [].
Proof. unfold text_kids. now destruct (Str.is_empty s). Qed.

Lemma edit_success_run item ctext date data s comment t d s1 s2 st :
  Js.get data "success" = inr s -> Js.truthy s = true ->
  Js.get data "comment" = inr comment ->
  Js.get comment "text" = inr t -> Js.text_of_value t = inr s1 ->
  Js.get comment "created_at" = inr d -> Js.text_of_value d = inr s2 ->
  first_of "comment-date" item
    (Dom.replace_children ctext (text_kids s1) st)
  = Some date ->
  edit_comment_response item ctext (Parsed data) st
  = (Ok tt,
     Dom.replace_children date (text_kids s2)
       (Dom.replace_children ctext (text_kids s1) st)).
Proof.
  intros Hs Ht Hc Htx Hs1 Hd Hs2 Hq.
  unfold edit_comment_response, settle, try_catch, edit_comment_data.
  unfold bind at 1. rewrite Hs. unfold lift at 1, ret. rewrite Ht.
  unfold bind at 1. rewrite Hc. unfold lift at 1, ret.
  unfold bind at 1. rewrite Htx. unfold lift at 1, ret.
  unfold bind at 1. rewrite Hs1. unfold lift at 1, ret.
  unfold bind at 1. rewrite set_textContent_run.
  unfold bind at 1. unfold Dom.querySelector, gets.
  fold (first_of "comment-date" item
          (Dom.replace_children ctext (text_kids s1) st)).
  rewrite Hq.
  unfold bind at 1. unfold lift at 1, ret.
  unfold bind at 1. rewrite Hd. unfold lift at 1, ret.
  unfold bind at 1. unfold deref, ret.
  unfold bind at 1. rewrite Hs2. unfold lift at 1, ret.
  rewrite set_textContent_run. reflexivity.
Qed.

(** The two text replacements of a successful edit, on a comment item whose
    text and date elements do not overlap. *)
Lemma edit_success_effect item ctext date s1 s2 st :
  wf st ->
  first_of "comment-text" item st = Some ctext ->
  first_of "comment-date" item st = Some date ->
  disjointb (subtree_ids ctext st) (subtree_ids date st) = true ->
  let st1 := Dom.replace_children ctext (text_kids s1) st in
  let st2 := Dom.replace_children date (text_kids s2) st1 in
  first_of "comment-date" item st1 = Some date
  /\ shown_text ctext st2 = s1
  /\ shown_text date st2 = s2
  /\ (forall y, Dom.elem_at y st2 = Dom.elem_at y st)
  /\ (exists e ks,
        Dom.node_at item st = Some (Elem e ks)
        /\ Dom.node_at item st2
           = Some (Elem e (map (set_kids date (text_kids s2))
                             (map (set_kids ctext (text_kids s1)) ks))))
  /\ alike_f [ctext; date] (document st) (document st2).
Proof.
  intros Hw Htext Hdate Hdis st1 st2.
  pose proof (disjointb_sound _ _ Hdis) as Hd. clear Hdis.
  unfold first_of, Dom.kids_at in Htext, Hdate.
  destruct (Dom.node_at item st) as [[tx | e ks] |] eqn:Hn; try discriminate.
  pose proof (hd_error_in _ _ Htext) as Htin.
  pose proof (hd_error_in _ _ Hdate) as Hdin.
  destruct (selected_inside _ item st e ks ctext Hw Hn Htin)
    as (Htk & Hnet & Hft & _ & Hit).
  destruct (selected_inside _ item st e ks date Hw Hn Hdin)
    as (Hdk & Hned & Hfd & _ & Hid).
  destruct (in_found ctext ks Htk) as (nt & Hnt).
  destruct (proj2 (find_root ctext) _ _ Hnt) as (et & kt & -> & Het).
  destruct (in_found date ks Hdk) as (nd & Hnd).
  destruct (proj2 (find_root date) _ _ Hnd) as (ed & kd & -> & Hed).
  rewrite <- Hft in Hnt. rewrite <- Hfd in Hnd.
  assert (Hkt : Dom.kids_at ctext st = kt) by (now apply (kids_at_found _ _ et)).
  assert (Hkd : Dom.kids_at date st = kd) by (now apply (kids_at_found _ _ ed)).
  unfold subtree_ids in Hd. rewrite Hnt, Hnd in Hd. simpl in Hd.
  assert (Hne : ctext <> date).
  { intros Heq. apply (Hd ctext); [left; exact Het | left; now rewrite Hed]. }
  assert (Hdkt : ~ In date (ids_f kt)).
  { intros Hin. apply (Hd date); [now right | left; exact Hed]. }
  assert (Htkd : ~ In ctext (ids_f kd)).
  { intros Hin. apply (Hd ctext); [left; exact Het | now right]. }
  assert (Hw1 : wf st1) by (apply wf_replace_children; auto using ids_text_kids).
  assert (Hitem1 : Dom.node_at item st1
                   = Some (Elem e (map (set_kids ctext (text_kids s1)) ks))).
  { unfold st1. rewrite node_at_replace_children;
      [| exact Hw | apply ids_text_kids | exact Hit].
    rewrite Hn. simpl.
    destruct (proj2 (find_root item) _ _ Hn) as (e' & ks' & [= <- <-] & He).
    rewrite <- He in Hnet. now rewrite (proj2 (Nat.eqb_neq _ _) Hnet). }
  assert (Hdate1 : Dom.node_at date st1 = Some (Elem ed kd)).
  { unfold st1. rewrite node_at_replace_children;
      [| exact Hw | apply ids_text_kids | now rewrite Hkt].
    rewrite Hnd. simpl.
    assert (E : (eid ed =? ctext) = false)
      by (apply Nat.eqb_neq; rewrite Hed; auto).
    rewrite E. now rewrite (proj2 (absent_set_kids ctext _) kd Htkd). }
  assert (Htext1 : Dom.node_at ctext st1 = Some (Elem et (text_kids s1))).
  { apply (node_at_replace_self ctext s1 st et kt Hw Hnt). }
  assert (Hkd1 : Dom.kids_at date st1 = kd)
    by (now apply (kids_at_found _ _ ed)).
  split; [| split; [| split; [| split; [| split]]]].
  6: { apply (alike_document_trans _ st st1).
       - apply alike_replace_children. now left.
       - apply alike_replace_children. right. now left. }
  - unfold first_of, Dom.kids_at. rewrite Hitem1.
    apply select_head_other; auto using select_text_kids.
    + pose proof (nodup_found item _ _ Hw Hn) as Hs. simpl in Hs.
      now inversion Hs.
    + intros e0 k0 Hf0. unfold Dom.node_at in Hft. rewrite <- Hft in Hf0.
      fold (Dom.node_at ctext st) in Hf0. rewrite Hnt in Hf0.
      now injection Hf0 as <- <-.
  - unfold shown_text, st2.
    rewrite node_at_replace_children;
      [| exact Hw1 | apply ids_text_kids | now rewrite Hkd1].
    rewrite Htext1. simpl.
    assert (E : (eid et =? date) = false)
      by (apply Nat.eqb_neq; rewrite Het; auto).
    rewrite E, set_kids_text_kids. exact (text_of_text_kids et s1).
  - unfold shown_text, st2.
    rewrite (node_at_replace_self date s2 st1 ed kd Hw1 Hdate1).
    exact (text_of_text_kids ed s2).
  - intros y. unfold st2, st1.
    now rewrite !elem_at_replace_children.
  - exists e, ks. split; [reflexivity |].
    unfold st2. rewrite node_at_replace_children;
      [| exact Hw1 | apply ids_text_kids | now rewrite Hkd1, <- Hkd].
    rewrite Hitem1. simpl.
    destruct (proj2 (find_root item) _ _ Hn) as (e' & ks' & [= <- <-] & He).
    rewrite <- He in Hned. now rewrite (proj2 (Nat.eqb_neq _ _) Hned).
Qed.

(** C7.  The edit listener never changes the page, and it sends a request
    only when the answer to the prompt is a non-empty string different from
    the trimmed text of the comment; in that case, [getCookie] returning, it
    sends one POST to the edit URL of the comment with the new text.  On a
    response with a truthy [success], whose [comment.text] and
    [comment.created_at] can be made strings, the text of the comment
    becomes [comment.text] and the date [comment.created_at].  Nothing
    else changes: every element of the page keeps its data, the comment
    item keeps its subtree but for the children of these two elements, and
    the document is what it was but for what lies below them; no dialog is
    shown, nothing is logged, no request is sent and no element is
    created. *)
Theorem edit_comment_spec :
  (forall target answer st,
     page_of (snd (edit_comment_click (H := H) target answer st)) = page_of st)
  /\ (forall target answer st,
        requests (snd (edit_comment_click (H := H) target answer st))
        <> requests st ->
        exists new item ctext,
          answer = Some new /\ new <> ""%string
          /\ Dom.closest target "comment-item" st = (Ok (Some item), st)
          /\ first_of "comment-text" item st = Some ctext
          /\ new <> Str.trim (shown_text ctext st))
  /\ (forall target item ctext new token st,
        Dom.classList_contains target "edit-comment-btn" st = (Ok true, st) ->
        Dom.closest target "comment-item" st = (Ok (Some item), st) ->
        first_of "comment-text" item st = Some ctext ->
        new <> ""%string -> new <> Str.trim (shown_text ctext st) ->
        getCookie "csrftoken" st = (Ok token, st) ->
        exists st',
          edit_comment_click target (Some new) st
          = (Ok (Some (item, ctext)), st')
          /\ requests st'
             = requests st
               ++ [mkFetch
                     ("/api/edit-comment/"
                      ++ Js.attr_string (attribute "data-comment-id" target st)
                      ++ "/")%string
                     "POST"
                     [("Content-Type", Some "application/json");
                      ("X-CSRFToken", token)]
                     (Some (JSON_stringify (VObj [("text", VStr new)])))])
  /\ (forall item ctext date (data s comment t d : value num) s1 s2 st,
        distinct_ids st = true ->
        first_of "comment-text" item st = Some ctext ->
        first_of "comment-date" item st = Some date ->
        disjointb (subtree_ids ctext st) (subtree_ids date st) = true ->
        Js.get data "success" = inr s -> Js.truthy s = true ->
        Js.get data "comment" = inr comment ->
        Js.get comment "text" = inr t -> Js.text_of_value t = inr s1 ->
        Js.get comment "created_at" = inr d -> Js.text_of_value d = inr s2 ->
        exists st',
          edit_comment_response item ctext (Parsed data) st = (Ok tt, st')
          /\ shown_text ctext st' = s1
          /\ shown_text date st' = s2
          /\ (forall y, Dom.elem_at y st' = Dom.elem_at y st)
          /\ (exists e ks,
                Dom.node_at item st = Some (Elem e ks)
                /\ Dom.node_at item st'
                   = Some (Elem e
                             (map (set_kids date (text_kids s2))
                                (map (set_kids ctext (text_kids s1)) ks))))
          /\ alike_f [ctext; date] (document st) (document st')
          /\ talk st' = talk st
          /\ next_id st' = next_id st)
  /\ (forall (s : string),
        Js.text_of_value (num := num) (VStr s) = inr s).
Proof.
  split; [| split; [| split; [| split]]].
  - intros target answer st. apply edit_click_keeps_page.
  - apply edit_click_only_when.
  - apply edit_click_sends.
  - intros item ctext date data s comment t d s1 s2 st Hd Htext Hdate Hdis
      Hs Ht Hc Htx Hs1 Hcr Hs2.
    apply nodupb_sound in Hd. fold (wf st) in Hd.
    destruct (edit_success_effect item ctext date s1 s2 st Hd Htext Hdate Hdis)
      as (Hq & H1 & H2 & H3 & H4 & H5).
    rewrite (edit_success_run item ctext date data s comment t d s1 s2 st
               Hs Ht Hc Htx Hs1 Hcr Hs2 Hq).
    eexists. split; [reflexivity |].
    repeat split; auto.
  - reflexivity.
Qed.

End EditComment.

(** ** Deleting a comment *)

Section DeleteComment.
Context {num : Type} {H : Host num}.
Import Tree Ctx Checks TreeFacts Store DomFacts Frame FrameFacts.

Local Open Scope nat_scope.
Local Open Scope list_scope.

Lemma delete_click_keeps_page target answer :
  keeps page_of (delete_comment_click target answer).
Proof.
  unfold delete_comment_click, Dom.classList_contains, Dom.getAttribute,
    Dom.closest.
  keeps_auto.
Qed.

Lemma delete_click_only_when target answer st :
  requests (snd (delete_comment_click target answer st))
  <> requests st ->
  answer = true.
Proof.
  intros Hreq. destruct answer; [reflexivity |].
  exfalso. apply Hreq. unfold delete_comment_click.
  unfold bind at 1.
  destruct (Dom.classList_contains target "delete-comment-btn" st)
    as [[[|] | e] st0] eqn:Hc;
    assert (st0 = st) by (now injection Hc); subst st0; reflexivity.
Qed.

Lemma delete_click_sends target token st :
  Dom.classList_contains target "delete-comment-btn" st = (Ok true, st) ->
  getCookie "csrftoken" st = (Ok token, st) ->
  exists st' commentItem,
    Dom.closest target "comment-item" st = (Ok commentItem, st)
    /\ delete_comment_click target true st = (Ok (Some commentItem), st')
    /\ requests st'
       = requests st
         ++ [mkFetch
               ("/api/delete-comment/"
                ++ Js.attr_string (attribute "data-comment-id" target st) ++ "/")%string
               "POST"
               [("Content-Type", Some "application/json");
                ("X-CSRFToken", token)]
               None].
Proof.
  intros Hc Hck. unfold delete_comment_click.
  unfold bind at 1. rewrite Hc.
  unfold bind at 1. unfold confirm, bind, modify, ret. cbv beta iota.
  cbn [negb]. unfold Dom.getAttribute, Dom.closest, gets. cbv beta iota.
  unfold getCookie in *. cbn [cookie] in *.
  injection Hck as Hck. rewrite Hck. cbv beta iota.
  do 2 eexists. split; [reflexivity |]. split; reflexivity.
Qed.

(** The removal of a node of the document. *)
Lemma remove_from_document item st :
  wf st -> In item (ids_f (document st)) ->
  exists sub,
    Dom.node_at item st = Some sub
    /\ Dom.remove item st
       = (Ok tt,
          with_detached (prune_f item (detached st) ++ [sub])
            (with_document (prune_f item (document st)) st)).
Proof.
  intros Hw Hin.
  assert (Hroots : In item (ids_f (Dom.roots st))).
  { unfold Dom.roots. rewrite ids_f_app. apply in_or_app. now left. }
  destruct (in_found item _ Hroots) as (sub & Hsub).
  exists sub. split; [exact Hsub |].
  unfold Dom.remove, modify.
  destruct (existsb (has_id item) (detached st)) eqn:Hd.
  - exfalso. apply has_id_in in Hd.
    unfold wf, Dom.roots in Hw. rewrite ids_f_app in Hw.
    destruct (nodup_app_inv _ _ Hw) as (_ & _ & Hdis).
    now apply (Hdis item).
  - unfold Dom.node_at in *. now rewrite Hsub.
Qed.

Lemma closest_after_remove item st sub c :
  In item (ids_f (document st)) ->
  Dom.node_at item st = Some sub ->
  exists r,
    Dom.closest item c
      (with_detached (prune_f item (detached st) ++ [sub])
         (with_document (prune_f item (document st)) st))
    = (Ok r,
       with_detached (prune_f item (detached st) ++ [sub])
         (with_document (prune_f item (document st)) st))
    /\ (r = None \/ r = Some item).
Proof.
  intros Hin Hsub. unfold Dom.closest, gets. eexists. split; [reflexivity |].
  unfold Dom.roots. cbn [document detached with_detached with_document].
  rewrite !first_some_app.
  rewrite (proj2 (absent_path_to item) _ (proj2 (prune_removes item) _)).
  rewrite (proj2 (absent_path_to item) _ (proj2 (prune_removes item) _)).
  destruct (proj2 (find_root item) _ _ Hsub) as (e & ks & -> & He).
  simpl. rewrite (proj2 (Nat.eqb_eq _ _) He). simpl.
  destruct (has_class c e); simpl; [right; now rewrite He | now left].
Qed.

(** The code that adds the placeholder does not touch the document when the
    list it is given is not in the document. *)
Lemma placeholder_keeps_document lst st :
  ~ In lst (ids_f (document st)) ->
  ~ In (next_id st) (ids_f (document st)) ->
  document
    (snd ((remaining <- Dom.querySelectorAll lst "comment-item" ;;
           if Nat.eqb (length remaining) 0 then
             noComments <- Dom.createElement "p" ;;
             Dom.set_className noComments "no-comments" ;;
             Dom.set_textContent noComments "Пока нет комментариев" ;;
             Dom.appendChild lst noComments
           else ret tt) st))
  = document st.
Proof.
  intros Hl Hn. unfold bind at 1. unfold Dom.querySelectorAll, gets.
  destruct (Nat.eqb _ 0); [| reflexivity].
  unfold bind, Dom.createElement, Dom.set_className, Dom.set_textContent,
    modify. rewrite update_elem_run. cbv beta iota.
  unfold Dom.appendChild.
  set (st3 := Dom.replace_children (next_id st) _ _).
  assert (Hdoc : document st3 = document st).
  { unfold st3, Dom.replace_children, apply_elem.
    cbn [document detached with_detached with_document with_next_id].
    rewrite (proj2 (absent_map_elem (next_id st) _) _ Hn).
    now rewrite (proj2 (absent_set_kids (next_id st) _) _ Hn). }
  destruct (Dom.node_at (next_id st) st3) as [sub |]; [| exact Hdoc].
  destruct (existsb _ _); [exact Hdoc |].
  cbn [snd document with_detached with_document]. rewrite Hdoc.
  rewrite (proj2 (absent_prune (next_id st)) _ Hn).
  now rewrite (proj2 (absent_add_kid lst sub) _ Hl).
Qed.

Lemma fresh_ids_sound st x :
  fresh_ids st = true -> In x (ids_f (Dom.roots st)) -> x < next_id st.
Proof.
  unfold fresh_ids. rewrite forallb_forall. intros Hf Hin.
  now apply Nat.ltb_lt, Hf.
Qed.

(** C8.  The delete listener never changes the page and sends a request only
    when the user confirms; then, [getCookie] returning, it sends one POST
    to the delete URL of the comment.  On a response with a truthy
    [success], the comment item, if it was in the document, is cut out of
    it: the document afterwards is the document before without the subtree
    of the item. *)
Theorem delete_comment_spec :
  (forall target answer st,
     page_of (snd (delete_comment_click target answer st))
     = page_of st)
  /\ (forall target answer st,
        requests (snd (delete_comment_click target answer st))
        <> requests st ->
        answer = true)
  /\ (forall target token st,
        Dom.classList_contains target "delete-comment-btn" st = (Ok true, st) ->
        getCookie "csrftoken" st = (Ok token, st) ->
        exists st' commentItem,
          Dom.closest target "comment-item" st = (Ok commentItem, st)
          /\ delete_comment_click target true st = (Ok (Some commentItem), st')
          /\ requests st'
             = requests st
               ++ [mkFetch
                     ("/api/delete-comment/"
                      ++ Js.attr_string (attribute "data-comment-id" target st)
                      ++ "/")%string
                     "POST"
                     [("Content-Type", Some "application/json");
                      ("X-CSRFToken", token)]
                     None])
  /\ (forall item (data s : value num) st,
        distinct_ids st = true -> fresh_ids st = true ->
        In item (ids_f (document st)) ->
        Js.get data "success" = inr s -> Js.truthy s = true ->
        exists r st',
          delete_comment_response (Some item) (Parsed data) st = (r, st')
          /\ document st' = prune_f item (document st)
          /\ ~ In item (ids_f (document st'))
          /\ requests st' = requests st).
Proof.
  split; [| split; [| split]].
  - intros target answer st. apply delete_click_keeps_page.
  - apply delete_click_only_when.
  - apply delete_click_sends.
  - intros item data s st Hd Hf Hin Hs Ht.
    apply nodupb_sound in Hd. fold (wf st) in Hd.
    destruct (delete_comment_response (Some item) (Parsed data) st)
      as [r st'] eqn:Hrun.
    exists r, st'. split; [reflexivity |].
    assert (Hreq : requests st' = requests st).
    { pose proof (net_settle (delete_comment_data (Some item))
                    "Произошла ошибка при удалении комментария"
                    (Parsed data) (net_delete_comment_data (Some item)) st)
        as Hk.
      unfold delete_comment_response in Hrun. rewrite Hrun in Hk.
      unfold net in Hk. now injection Hk. }
    assert (Hdoc : document st' = prune_f item (document st)).
    { destruct (remove_from_document item st Hd Hin) as (sub & Hsub & Hrem).
      destruct (closest_after_remove item st sub "comments-list" Hin Hsub)
        as (c & Hc & Hcase).
      set (st1 := with_detached (prune_f item (detached st) ++ [sub])
                    (with_document (prune_f item (document st)) st)) in *.
      assert (Hitem1 : ~ In item (ids_f (document st1)))
        by (apply (proj2 (prune_removes item))).
      assert (Hnext1 : ~ In (next_id st1) (ids_f (document st1))).
      { intros Hx. apply (proj2 (prune_incl item)) in Hx.
        assert (Hlt : next_id st < next_id st).
        { apply (fresh_ids_sound st _ Hf). unfold Dom.roots.
          rewrite ids_f_app. apply in_or_app. now left. }
        now apply Nat.lt_irrefl in Hlt. }
      unfold delete_comment_response, settle, try_catch,
        delete_comment_data in Hrun.
      unfold bind at 1 in Hrun. rewrite Hs in Hrun.
      unfold lift at 1, ret in Hrun. rewrite Ht in Hrun.
      unfold bind at 1 in Hrun. unfold deref, ret in Hrun.
      unfold bind at 1 in Hrun. rewrite Hrem in Hrun.
      unfold bind at 1 in Hrun. rewrite Hc in Hrun.
      destruct Hcase as [-> | ->].
      - injection Hrun as _ <-. reflexivity.
      - pose proof (placeholder_keeps_document item st1 Hitem1 Hnext1) as Hp.
        unfold ret in Hp.
        match type of Hp with
        | document (snd ?t) = _ =>
            destruct t as [[[] | e] st2] eqn:Etail
        end; cbn [snd] in Hp.
        + cbv beta iota in Hrun. injection Hrun as _ <-. exact Hp.
        + unfold bind, console_error, alert, modify in Hrun.
          cbv beta iota in Hrun. injection Hrun as _ <-. exact Hp. }
    split; [exact Hdoc | split; [| exact Hreq]].
    rewrite Hdoc. apply (proj2 (prune_removes item)).
Qed.

End DeleteComment.

(** ** [addCommentToDOM] *)

Section AddCommentDom.
Context {num : Type} {H : Host num}.
Import Tree Ctx Checks TreeFacts Store DomFacts.

Local Open Scope nat_scope.
Local Open Scope list_scope.

Lemma bind_ok {A B} (m : M A) (k : A -> M B) st b st' :
  bind m k st = (Ok b, st') ->
  exists a st1, m st = (Ok a, st1) /\ k a st1 = (Ok b, st').
Proof.
  unfold bind. destruct (m st) as [[a | e] st1]; [eauto | discriminate].
Qed.

(** [x.remove()] returns, adds no identity to the store, and either leaves
    the document alone or cuts [x] out of it. *)
Lemma remove_facts x st :
  exists st1,
    Dom.remove x st = (Ok tt, st1)
    /\ next_id st1 = next_id st
    /\ incl (ids_f (Dom.roots st1)) (ids_f (Dom.roots st))
    /\ (document st1 = document st
        \/ document st1 = prune_f x (document st)).
Proof.
  unfold Dom.remove, modify. eexists. split; [reflexivity |].
  destruct (existsb (has_id x) (detached st)).
  - repeat split; auto using incl_refl.
  - destruct (Dom.node_at x st) as [sub |] eqn:Hn.
    + repeat split; auto. unfold Dom.roots.
      cbn [document detached with_detached with_document].
      rewrite !ids_f_app. unfold Dom.node_at, Dom.roots in Hn.
      apply incl_app; [apply incl_appl, (proj2 (prune_incl x)) |].
      apply incl_app; [apply incl_appr, (proj2 (prune_incl x)) |].
      rewrite <- ids_f_app.
      change (ids_f [sub]) with (ids sub ++ []). rewrite app_nil_r.
      apply (proj2 (find_incl x) _ _ Hn).
    + repeat split; auto using incl_refl.
Qed.

(** When [addCommentToDOM] returns, the comment it has added has the children
    that the HTML parser makes of the markup in which [comment.text] is
    escaped and [comment.created_at] and [comment.id] are not. *)
Lemma addCommentToDOM_inserts articleId (comment : value num) st st' :
  wf st -> fresh_ids st = true ->
  addCommentToDOM articleId comment st = (Ok tt, st') ->
  exists t id created id_text created_text,
    Js.get comment "text" = inr (VStr t)
    /\ Js.get comment "id" = inr id
    /\ Js.to_string id = inr id_text
    /\ Js.get comment "created_at" = inr created
    /\ Js.to_string created = inr created_text
    /\ attribute "data-comment-id" (next_id st) st' = Some id_text
    /\ Dom.kids_at (next_id st) st'
       = fst (parseHTML (S (next_id st))
                (comment_markup (escapeHtml t) created_text id_text id_text)).
Proof.
  intros Hw Hfresh Hrun. unfold addCommentToDOM in Hrun.
  apply bind_ok in Hrun as (q & s1 & Hq & Hrun).
  unfold Dom.document_querySelector in Hq.
  destruct (css_parse _) as [sel |]; [| discriminate].
  unfold gets in Hq. injection Hq as <- <-.
  apply bind_ok in Hrun as (lst & s1 & Hl & Hrun).
  destruct (hd_error (select_f (Dom.matches sel) (document st)))
    as [lst' |] eqn:Hlst; [| discriminate].
  unfold deref, ret in Hl. injection Hl as <- <-.
  apply bind_ok in Hrun as (nc & s1 & Hnc & Hrun).
  unfold Dom.querySelector, gets in Hnc. injection Hnc as <- <-.
  apply bind_ok in Hrun as (u & stb & Hrem & Hrun).
  (* the list is in the document, before and after the placeholder goes *)
  assert (Hlin : In lst' (ids_f (document st))).
  { apply (proj2 (select_incl (Dom.matches sel)) _). now apply hd_error_in. }
  assert (Hb : next_id stb = next_id st
               /\ incl (ids_f (Dom.roots stb)) (ids_f (Dom.roots st))
               /\ In lst' (ids_f (document stb))).
  { destruct (hd_error (select_f (has_class "no-comments")
                          (Dom.kids_at lst' st))) as [n |] eqn:Hn.
    - destruct (remove_facts n st) as (st1 & Hr & Hnext & Hincl & Hdoc).
      rewrite Hr in Hrem. injection Hrem as _ <-.
      split; [exact Hnext | split; [exact Hincl |]].
      destruct Hdoc as [-> | ->]; [exact Hlin |].
      destruct (in_found lst' _ Hlin) as (tl & Htl).
      destruct (proj2 (find_root lst') _ _ Htl) as (el & kl & -> & Hel).
      assert (Hnode : Dom.node_at lst' st = Some (Elem el kl)).
      { unfold Dom.node_at, Dom.roots. now rewrite find_f_app, Htl. }
      unfold Dom.kids_at in Hn. rewrite Hnode in Hn.
      apply (prune_keeps_ancestor lst' n (document st) el kl); auto.
      + unfold wf, Dom.roots in Hw. rewrite ids_f_app in Hw.
        now apply NoDup_app_remove_r in Hw.
      + apply (proj2 (select_incl (has_class "no-comments")) kl).
        now apply hd_error_in.
    - unfold ret in Hrem. injection Hrem as _ <-.
      split; [reflexivity | split; [apply incl_refl | exact Hlin]]. }
  destruct Hb as (Hnext & Hincl & Hlb).
  assert (Hitem : ~ In (next_id st) (ids_f (Dom.roots stb))).
  { intros Hin. apply Hincl in Hin.
    pose proof (fresh_ids_sound st _ Hfresh Hin) as Hlt.
    now apply Nat.lt_irrefl in Hlt. }
  set (item := next_id st) in *.
  apply bind_ok in Hrun as (item' & stc & Hcr & Hrun).
  unfold Dom.createElement in Hcr. rewrite Hnext in Hcr.
  injection Hcr as <- <-. fold item in Hrun.
  apply bind_ok in Hrun as (u1 & std & Hcls & Hrun).
  unfold Dom.set_className in Hcls. rewrite update_elem_run in Hcls.
  injection Hcls as _ <-.
  apply bind_ok in Hrun as (id & s1 & Hid & Hrun).
  destruct (Js.get comment "id") as [e | id0] eqn:Hgid; [discriminate |].
  unfold lift, ret in Hid. injection Hid as <- <-.
  apply bind_ok in Hrun as (idt & s1 & Hidt & Hrun).
  destruct (Js.to_string id0) as [e | idt0] eqn:Hsid; [discriminate |].
  unfold lift, ret in Hidt. injection Hidt as <- <-.
  apply bind_ok in Hrun as (u2 & ste & Hattr & Hrun).
  unfold Dom.setAttribute in Hattr. rewrite update_elem_run in Hattr.
  injection Hattr as _ <-.
  apply bind_ok in Hrun as (tx & s1 & Htx & Hrun).
  destruct (Js.get comment "text") as [e | tx0] eqn:Hgtx; [discriminate |].
  unfold lift, ret in Htx. injection Htx as <- <-.
  apply bind_ok in Hrun as (esc & s1 & Hesc & Hrun).
  unfold escapeHtml_value in Hesc.
  destruct tx0 as [| | | | t | | |]; try discriminate.
  unfold ret in Hesc. injection Hesc as <- <-.
  apply bind_ok in Hrun as (cr & s1 & Hcr & Hrun).
  destruct (Js.get comment "created_at") as [e | cr0] eqn:Hgcr;
    [discriminate |].
  unfold lift, ret in Hcr. injection Hcr as <- <-.
  apply bind_ok in Hrun as (crt & s1 & Hcrt & Hrun).
  destruct (Js.to_string cr0) as [e | crt0] eqn:Hscr; [discriminate |].
  unfold lift, ret in Hcrt. injection Hcrt as <- <-.
  apply bind_ok in Hrun as (id1 & s1 & Hid1 & Hrun).
  unfold lift, ret in Hid1. injection Hid1 as <- <-.
  apply bind_ok in Hrun as (idt1 & s1 & Hidt1 & Hrun).
  rewrite Hsid in Hidt1. unfold lift, ret in Hidt1. injection Hidt1 as <- <-.
  apply bind_ok in Hrun as (id2 & s1 & Hid2 & Hrun).
  unfold lift, ret in Hid2. injection Hid2 as <- <-.
  apply bind_ok in Hrun as (idt2 & s1 & Hidt2 & Hrun).
  rewrite Hsid in Hidt2. unfold lift, ret in Hidt2. injection Hidt2 as <- <-.
  apply bind_ok in Hrun as (u3 & stf & Hinner & Hrun).
  (* the new element, step by step *)
  set (g1 := Dom.with_classes ["comment-item"%string]) in *.
  set (g2 := fun e => Dom.with_attrs
                        (update "data-comment-id" idt0 (attrs e))
                        e) in *.
  set (e0 := mkElem item "div" [] [] "" None) in *.
  set (stc := with_next_id (S item)
                (with_detached (detached stb ++ [Elem e0 []]) stb)) in *.
  set (markup := comment_markup (escapeHtml t) crt0 idt0 idt0) in *.
  assert (Hdocb : ~ In item (ids_f (document stb))).
  { intros Hin. apply Hitem. unfold Dom.roots. rewrite ids_f_app.
    apply in_or_app. now left. }
  assert (Hdetb : ~ In item (ids_f (detached stb))).
  { intros Hin. apply Hitem. unfold Dom.roots. rewrite ids_f_app.
    apply in_or_app. now right. }
  assert (Hg1 : keeps_eid g1) by (intros e; reflexivity).
  assert (Hg2 : keeps_eid g2) by (intros e; reflexivity).
  assert (Hnode_e : Dom.node_at item (apply_elem item g2 (apply_elem item g1 stc))
                    = Some (Elem (g2 (g1 e0)) [])).
  { rewrite !node_at_apply_elem by assumption.
    unfold Dom.node_at, Dom.roots, stc.
    cbn [document detached with_detached with_document with_next_id].
    rewrite !find_f_app.
    rewrite (proj2 (absent_find item) _ Hdocb).
    rewrite (proj2 (absent_find item) _ Hdetb).
    rewrite find_f_cons. simpl.
    repeat (rewrite Nat.eqb_refl; simpl). reflexivity. }
  assert (Hdoc_e : document (apply_elem item g2 (apply_elem item g1 stc))
                   = document stb).
  { unfold apply_elem, stc.
    cbn [document detached with_detached with_document with_next_id].
    now rewrite !(proj2 (absent_map_elem item _) _ Hdocb). }
  unfold Dom.set_innerHTML, modify in Hinner.
  cbn [next_id apply_elem with_detached with_document] in Hinner.
  unfold stc in Hinner at 1. cbn [next_id with_next_id] in Hinner.
  fold stc in Hinner. fold markup in Hinner.
  destruct (parseHTML (S item) markup) as [new n'] eqn:Hparse.
  injection Hinner as _ <-.
  set (ste := apply_elem item g2 (apply_elem item g1 stc)) in *.
  assert (Hnode_f : Dom.node_at item
                      (with_next_id n' (Dom.replace_children item new ste))
                    = Some (Elem (g2 (g1 e0)) new)).
  { unfold Dom.node_at in *.
    change (Dom.roots (with_next_id n' (Dom.replace_children item new ste)))
      with (Dom.roots (Dom.replace_children item new ste)).
    rewrite roots_replace_children, find_f_app.
    now rewrite (proj2 (find_set_kids_same item new) _ _ _ Hnode_e). }
  assert (Hdoc_f : document (with_next_id n'
                               (Dom.replace_children item new ste))
                   = document stb).
  { cbn [document with_next_id Dom.replace_children with_detached
           with_document].
    rewrite Hdoc_e. apply (proj2 (absent_set_kids item new) _ Hdocb). }
  set (sf := with_next_id n' (Dom.replace_children item new ste)) in *.
  unfold Dom.appendChild in Hrun. rewrite Hnode_f in Hrun.
  destruct (existsb (Nat.eqb lst') (ids (Elem (g2 (g1 e0)) new)));
    [discriminate |].
  assert (Hfinal : Dom.node_at item st' = Some (Elem (g2 (g1 e0)) new)).
  { injection Hrun as <-. unfold Dom.node_at, Dom.roots.
    cbn [document detached with_detached with_document].
    rewrite !(proj2 (absent_map_elem item _) _ Hdocb).
    rewrite (proj2 (absent_set_kids item new) _ Hdocb).
    rewrite (proj2 (absent_prune item) _ Hdocb).
    rewrite find_f_app.
    assert (Hroot : find item (Elem (g2 (g1 e0)) new)
                    = Some (Elem (g2 (g1 e0)) new)).
    { simpl. now rewrite Nat.eqb_refl. }
    now rewrite (proj2 (find_add_kid_new lst' item _ Hroot) _ Hdocb Hlb). }
  exists t, id0, cr0, idt0, crt0.
  split; [reflexivity |]. split; [reflexivity |]. split; [exact Hsid |].
  split; [reflexivity |]. split; [exact Hscr |]. split.
  - unfold attribute, Dom.elem_at. rewrite Hfinal. unfold g2, g1.
    cbn [attrs Dom.with_attrs Dom.with_classes]. apply lookup_update.
  - unfold Dom.kids_at. rewrite Hfinal. unfold markup in Hparse.
    now rewrite Hparse.
Qed.

End AddCommentDom.

(** ** [escapeHtml] and the markup of a new comment *)

Section Escape.
Context {num : Type} {H : Host num}.
Import Entities EscapeFacts.

Lemma markup_char_false c :
  markup_char c = false ->
  c <> "<"%char /\ c <> ">"%char /\ c <> Str.dquote /\ c <> "'"%char.
Proof.
  unfold markup_char. intros Hm.
  repeat split; intros ->; vm_compute in Hm; discriminate.
Qed.

(** C9.  The output of [escapeHtml] contains none of the characters [<],
    [>], double quote and apostrophe, and every ampersand in it starts one
    of the five entities.  When [addCommentToDOM] returns, [comment.text]
    is a string, and the children of the comment element it has added are
    what the HTML parser makes of the markup written out below, in which
    [comment.text] stands escaped by [escapeHtml] while the strings of
    [comment.created_at] and [comment.id] stand as they are; the
    [data-comment-id] of the element is the string of [comment.id], as it
    is. *)
Theorem escapeHtml_spec :
  (forall text c,
     In c (Str.to_list (escapeHtml text)) ->
     c <> "<"%char /\ c <> ">"%char /\ c <> Str.dquote /\ c <> "'"%char)
  /\ (forall text pre post,
        escapeHtml text = pre ++ String "&" post ->
        exists ent,
          In ent ["&amp;"; "&lt;"; "&gt;"; "&quot;"; "&#039;"]
          /\ String.prefix ent (String "&" post) = true)
  /\ (forall articleId (comment : value num) st st',
        distinct_ids st = true -> fresh_ids st = true ->
        addCommentToDOM articleId comment st = (Ok tt, st') ->
        exists t id created id_text created_text,
          Js.get comment "text" = inr (VStr t)
          /\ Js.get comment "id" = inr id
          /\ Js.to_string id = inr id_text
          /\ Js.get comment "created_at" = inr created
          /\ Js.to_string created = inr created_text
          /\ attribute "data-comment-id" (next_id st) st' = Some id_text
          /\ Dom.kids_at (next_id st) st'
             = fst (parseHTML (S (next_id st))
                      (let q := String Str.dquote "" in
                       let nl := String Str.newline "" in
                       let tb := String Str.tab "" in
                       nl ++ tb ++ tb
                       ++ "<div class=" ++ q ++ "comment-content" ++ q ++ ">"
                       ++ nl ++ tb ++ tb ++ tb
                       ++ "<p class=" ++ q ++ "comment-text" ++ q ++ ">"
                       ++ escapeHtml t ++ "</p>"
                       ++ nl ++ tb ++ tb ++ tb
                       ++ "<span class=" ++ q ++ "comment-date" ++ q ++ ">"
                       ++ created_text ++ "</span>"
                       ++ nl ++ tb ++ tb ++ "</div>"
                       ++ nl ++ tb ++ tb
                       ++ "<div class=" ++ q ++ "comment-actions" ++ q ++ ">"
                       ++ nl ++ tb ++ tb ++ tb
                       ++ "<button class=" ++ q ++ "edit-comment-btn" ++ q
                       ++ " data-comment-id=" ++ q ++ id_text ++ q
                       ++ ">Редактировать</button>"
                       ++ nl ++ tb ++ tb ++ tb
                       ++ "<button class=" ++ q ++ "delete-comment-btn" ++ q
                       ++ " data-comment-id=" ++ q ++ id_text ++ q
                       ++ ">Удалить</button>"
                       ++ nl ++ tb ++ tb ++ "</div>"
                       ++ nl ++ tb)))
  /\ (forall s : string, Js.to_string (num := num) (VStr s) = inr s).
Proof.
  split; [| split; [| split]].
  - intros text c Hin. apply markup_char_false.
    now apply (escapeHtml_no_markup text).
  - intros text pre post Heq. now apply (escapeHtml_amp text pre post).
  - intros articleId comment st st' Hd Hf Hrun.
    apply TreeFacts.nodupb_sound in Hd.
    now apply (addCommentToDOM_inserts articleId comment st st').
  - reflexivity.
Qed.

End Escape.

(** ** More on strings *)

Module StrFacts.

Lemma string_app_assoc (s t u : string) : (s ++ t) ++ u = s ++ t ++ u.
Proof. induction s as [| c s IH]; simpl; [reflexivity | now rewrite IH]. Qed.

Lemma string_length_app (s t : string) :
  String.length (s ++ t) = (String.length s + String.length t)%nat.
Proof. induction s as [| c s IH]; simpl; [reflexivity | now rewrite IH]. Qed.

Lemma of_list_to_list v : Str.of_list (Str.to_list v) = v.
Proof. induction v as [| c v IH]; simpl; [reflexivity | now rewrite IH]. Qed.

End StrFacts.

(** ** [escapeHtml] as a function on texts *)

Section EscapeMore.
Import Entities EscapeFacts StrFacts.

(** X1.  Escaping distributes over concatenation. *)
Theorem escapeHtml_app (s t : string) :
  escapeHtml (s ++ t) = escapeHtml s ++ escapeHtml t.
Proof.
  induction s as [| c s IH]; [reflexivity |].
  change (String c s ++ t) with (String c (s ++ t)).
  now rewrite !escapeHtml_cons, IH, string_app_assoc.
Qed.

(** The five characters of the class, or a character outside it. *)
Lemma escape_class_cases c :
  (escape_class c = false /\ escape_chunk c = Str.of_char c)
  \/ (c = "&"%char /\ escape_chunk c = "&amp;")
  \/ (c = "<"%char /\ escape_chunk c = "&lt;")
  \/ (c = ">"%char /\ escape_chunk c = "&gt;")
  \/ (c = Str.dquote /\ escape_chunk c = "&quot;")
  \/ (c = "'"%char /\ escape_chunk c = "&#039;").
Proof.
  unfold escape_chunk, escape_class, escape_map.
  destruct (Ascii.eqb_spec c "&"); [subst; right; left; auto |].
  destruct (Ascii.eqb_spec c "<"); [subst; right; right; left; auto |].
  destruct (Ascii.eqb_spec c ">"); [subst; do 3 right; left; auto |].
  destruct (Ascii.eqb_spec c Str.dquote); [subst; do 4 right; left; auto |].
  destruct (Ascii.eqb_spec c "'"); [subst; do 5 right; auto |].
  left. auto.
Qed.

Lemma chunk_cancel a b x y :
  escape_chunk a ++ x = escape_chunk b ++ y -> a = b /\ x = y.
Proof.
  intros Heq.
  destruct (escape_class_cases a) as [(Ha & Ea) | Ca];
    destruct (escape_class_cases b) as [(Hb & Eb) | Cb].
  - rewrite Ea, Eb in Heq. simpl in Heq. now injection Heq.
  - rewrite Ea in Heq.
    destruct Cb as [(-> & E) | [(-> & E) | [(-> & E) | [(-> & E) | (-> & E)]]]];
      rewrite E in Heq; simpl in Heq; injection Heq as -> _;
      vm_compute in Ha; discriminate.
  - rewrite Eb in Heq.
    destruct Ca as [(-> & E) | [(-> & E) | [(-> & E) | [(-> & E) | (-> & E)]]]];
      rewrite E in Heq; simpl in Heq; injection Heq as <- _;
      vm_compute in Hb; discriminate.
  - destruct Ca as [(-> & E) | [(-> & E) | [(-> & E) | [(-> & E) | (-> & E)]]]];
      destruct Cb as [(-> & E') | [(-> & E') | [(-> & E') | [(-> & E')
                                                            | (-> & E')]]]];
      rewrite ?E, ?E' in Heq; simpl in Heq;
      first [discriminate | injection Heq as ->; split; reflexivity].
Qed.

(** X2.  [escapeHtml] loses nothing: different texts have different
    escapes. *)
Theorem escapeHtml_injective (s t : string) :
  escapeHtml s = escapeHtml t -> s = t.
Proof.
  revert t. induction s as [| a s IH]; intros [| b t] Heq.
  - reflexivity.
  - exfalso. rewrite escapeHtml_cons in Heq. 
    destruct (escape_class_cases b) as [(_ & E) | [(_ & E) | [(_ & E)
      | [(_ & E) | [(_ & E) | (_ & E)]]]]]; rewrite E in Heq; discriminate.
  - exfalso. rewrite escapeHtml_cons in Heq.
    destruct (escape_class_cases a) as [(_ & E) | [(_ & E) | [(_ & E)
      | [(_ & E) | [(_ & E) | (_ & E)]]]]]; rewrite E in Heq; discriminate.
  - rewrite !escapeHtml_cons in Heq. apply chunk_cancel in Heq as (-> & Heq).
    f_equal. now apply IH.
Qed.

Lemma chunk_length c :
  (escape_class c = false /\ String.length (escape_chunk c) = 1)
  \/ (escape_class c = true /\ 4 <= String.length (escape_chunk c)).
Proof.
  destruct (escape_class_cases c) as [(Hc & E) | [(-> & E) | [(-> & E)
      | [(-> & E) | [(-> & E) | (-> & E)]]]]]; rewrite E;
    [left; split; [exact Hc | reflexivity] | right; split; [reflexivity | simpl; auto with arith] ..].
Qed.

(** X3.  The escaped text is at least as long as the text, and has the same
    length exactly when it is the text itself, which happens exactly when
    the text has none of the five characters. *)
Theorem escapeHtml_unchanged (s : string) :
  String.length s <= String.length (escapeHtml s)
  /\ (escapeHtml s = s
      <-> forallb (fun c => negb (escape_class c)) (Str.to_list s) = true)
  /\ (String.length (escapeHtml s) = String.length s -> escapeHtml s = s).
Proof.
  induction s as [| c s (IHlen & IHiff & IHeq)].
  - repeat split; auto.
  - rewrite escapeHtml_cons, string_length_app. cbn [String.length Str.to_list forallb].
    destruct (chunk_length c) as [(Hc & Hl) | (Hc & Hl)]; rewrite Hc; cbn [negb andb].
    + assert (E : escape_chunk c = Str.of_char c)
        by (unfold escape_chunk; now rewrite Hc).
      rewrite E. cbn [String.length Str.of_char]. simpl.
      split; [now apply le_n_S | split; [split |]].
      * intros [= Heq]. now apply IHiff.
      * intros Hall. f_equal. now apply IHiff.
      * intros [= Heq]. f_equal. now apply IHeq.
    + split; [| split; [split |]].
      * apply Nat.le_trans with (1 + String.length s); [apply Nat.le_refl |].
        apply Nat.add_le_mono; [| exact IHlen].
        apply Nat.le_trans with 4; auto with arith.
      * intros Heq. exfalso.
        apply (f_equal String.length) in Heq. rewrite string_length_app in Heq.
        cbn [String.length] in Heq.
        assert (4 + String.length s <= S (String.length s)).
        { rewrite <- Heq. apply Nat.add_le_mono; assumption. }
        apply (Nat.lt_irrefl (S (String.length s))).
        apply Nat.lt_le_trans with (4 + String.length s); [| assumption].
        simpl. auto with arith.
      * discriminate.
      * intros Heq. exfalso.
        assert (4 + String.length s <= S (String.length s)).
        { rewrite <- Heq. apply Nat.add_le_mono; assumption. }
        apply (Nat.lt_irrefl (S (String.length s))).
        apply Nat.lt_le_trans with (4 + String.length s); [| assumption].
        simpl. auto with arith.
Qed.

End EscapeMore.

(** ** [getCookie] *)

Section Cookies.
Import EscapeFacts StrFacts.

Local Open Scope nat_scope.

Lemma substring_prefix p : forall s,
  String.eqb (String.substring 0 (String.length p) s) p = String.prefix p s.
Proof.
  induction p as [| a p IH]; intros s.
  - simpl. now destruct s.
  - destruct s as [| b s]; [reflexivity |]. simpl.
    destruct (ascii_dec a b) as [-> | Hne].
    + rewrite Ascii.eqb_refl. apply IH.
    + destruct (Ascii.eqb_spec b a) as [-> | _]; [contradiction | reflexivity].
Qed.

Lemma names_test name piece :
  String.eqb (String.substring 0 (String.length name + 1) (Str.trim piece))
             (name ++ "=")
  = names name piece.
Proof.
  unfold names. rewrite <- substring_prefix. rewrite string_length_app.
  reflexivity.
Qed.

Lemma scan_skip name before rest :
  forallb (fun c => negb (names name c)) before = true ->
  scan_cookies name (before ++ rest) = scan_cookies name rest.
Proof.
  induction before as [| c r IH]; [reflexivity |].
  cbn [forallb app scan_cookies]. intros Hall.
  apply andb_prop in Hall as (Hc & Hr).
  rewrite names_test. apply negb_true_iff in Hc. rewrite Hc. now apply IH.
Qed.

Lemma substring_from_app p v :
  Str.substring_from (String.length p) (p ++ v) = v.
Proof. induction p as [| a p IH]; [now destruct v | exact IH]. Qed.

(** The jar is not empty when one of its pieces is not. *)
Lemma jar_not_empty jar before piece after :
  Str.split ";" jar = (before ++ piece :: after)%list ->
  Str.trim piece <> ""%string -> Str.is_empty jar = false.
Proof.
  intros Hs Hp. destruct jar; [| reflexivity].
  simpl in Hs. destruct before as [| b [| b' r]]; simpl in Hs.
  - injection Hs as <- _. now contradiction Hp.
  - discriminate.
  - discriminate.
Qed.

(** The first piece that names the cookie decides, whatever follows it. *)
Lemma read_first_match name jar before piece after v :
  Str.split ";" jar = (before ++ piece :: after)%list ->
  forallb (fun c => negb (names name c)) before = true ->
  Str.trim piece = (name ++ "=" ++ v)%string ->
  read_cookie name jar
  = match Str.decodeURIComponent v with
    | Some d => Ok (Some d)
    | None => Throw URIError
    end.
Proof.
  intros Hs Hb Hp. unfold read_cookie.
  rewrite (jar_not_empty jar before piece after Hs).
  - rewrite Hs, (scan_skip name before _ Hb). cbn [scan_cookies].
    rewrite names_test. unfold names. rewrite Hp.
    rewrite <- string_app_assoc, prefix_app.
    replace (String.length name + 1) with (String.length (name ++ "="))
      by apply string_length_app.
    now rewrite substring_from_app.
  - rewrite Hp. destruct name; discriminate.
Qed.

Lemma unescape_plain v :
  percent_free v = true ->
  Str.unescape v = Some (map (fun c => (false, nat_of_ascii c)) (Str.to_list v)).
Proof.
  unfold percent_free. induction v as [| c v IH]; [reflexivity |].
  cbn [Str.to_list forallb map Str.unescape]. intros Hall.
  apply andb_prop in Hall as (Hc & Hv). apply negb_true_iff in Hc.
  rewrite Hc, (IH Hv). reflexivity.
Qed.

Lemma utf8_check_plain l :
  Str.utf8_check (map (fun c => (false, nat_of_ascii c)) l)
  = Some (map nat_of_ascii l).
Proof.
  induction l as [| c l IH]; [reflexivity |].
  cbn [map Str.utf8_check]. now rewrite IH.
Qed.

Lemma decode_plain v :
  percent_free v = true -> Str.decodeURIComponent v = Some v.
Proof.
  intros Hp. unfold Str.decodeURIComponent.
  rewrite (unescape_plain v Hp), utf8_check_plain. cbn [option_map].
  rewrite map_map.
  rewrite (map_ext _ (fun c => c)) by apply ascii_nat_embedding.
  now rewrite map_id, of_list_to_list.
Qed.


(** X4.  No piece names the cookie: [getCookie] returns [null]. *)
Theorem getCookie_absent (name : string) (st : state) :
  forallb (fun c => negb (names name c)) (Str.split ";" (cookie st)) = true ->
  getCookie name st = (Ok None, st).
Proof.
  intros Hall. unfold getCookie, read_cookie.
  destruct (Str.is_empty (cookie st)); [reflexivity |].
  rewrite <- (app_nil_r (Str.split ";" (cookie st))).
  now rewrite (scan_skip name _ [] Hall).
Qed.

(** X5.  The first piece that names the cookie decides: a value without a
    percent sign is returned as it is, whatever the later pieces are. *)
Theorem getCookie_first_plain (name v : string) (before after : list string)
    (piece : string) (st : state) :
  Str.split ";" (cookie st) = (before ++ piece :: after)%list ->
  forallb (fun c => negb (names name c)) before = true ->
  Str.trim piece = (name ++ "=" ++ v)%string ->
  percent_free v = true ->
  getCookie name st = (Ok (Some v), st).
Proof.
  intros Hs Hb Hp Hv. unfold getCookie.
  rewrite (read_first_match name _ before piece after v Hs Hb Hp).
  now rewrite (decode_plain v Hv).
Qed.


End Cookies.

(** ** What the click listeners leave alone *)

Section ClickListeners.
Context {num : Type} {H : Host num}.
Import Frame FrameFacts.

Ltac unfold_click :=
  unfold bind, ret, throw, gets, deref, lift, fetch, alert, prompt,
    confirm, getCookie, Dom.getAttribute, Dom.classList_contains,
    Dom.closest, Dom.querySelector, Dom.previousElementSibling,
    Dom.get_value, Dom.get_textContent;
  unfold modify; simpl.

Lemma favorite_click_keeps_page this : keeps page_of (favorite_click this).
Proof. unfold favorite_click, Dom.getAttribute. keeps_auto. Qed.

Lemma reaction_click_keeps_page this : keeps page_of (reaction_click this).
Proof. unfold reaction_click, Dom.getAttribute. keeps_auto. Qed.

Lemma add_comment_click_keeps_page this :
  keeps page_of (add_comment_click this).
Proof.
  unfold add_comment_click, Dom.getAttribute, Dom.previousElementSibling,
    Dom.get_value.
  keeps_auto.
Qed.

(** X7.  The click listeners never change the page: its document, its
    detached nodes and the next element identity are what they were. *)
Theorem clicks_keep_page (a : action num) (st : state) :
  is_response a = None -> page_of (step a st) = page_of st.
Proof.
  destruct a; try discriminate; intros _; unfold step.
  - apply favorite_click_keeps_page.
  - apply reaction_click_keeps_page.
  - apply add_comment_click_keeps_page.
  - apply edit_click_keeps_page.
  - apply delete_click_keeps_page.
Qed.

(** X8.  When [getCookie] throws, no listener sends a request. *)
Theorem no_request_without_cookie (a : action num) (e : exn) (st : state) :
  getCookie "csrftoken" st = (Throw e, st) ->
  is_response a = None ->
  requests (step a st) = requests st.
Proof.
  intros Hck Ha. unfold getCookie in Hck. injection Hck as Hck.
  destruct a; try discriminate; clear Ha; unfold step.
  - unfold favorite_click.
    unfold bind, ret, throw, gets, fetch, getCookie, Dom.getAttribute. simpl.
    destruct (JSON_parse _); simpl; [| reflexivity].
    now rewrite Hck.
  - unfold reaction_click.
    unfold bind, ret, throw, gets, fetch, getCookie, Dom.getAttribute. simpl.
    now rewrite Hck.
  - unfold add_comment_click. unfold_click.
    destruct (match Tree.split_at this (document st) with
              | Some pre => Some pre
              | None => Tree.first_some (Tree.before this) (Dom.roots st)
              end) as [pre |]; simpl; [| reflexivity].
    destruct (Tree.last_elem pre) as [input |]; simpl; [| reflexivity].
    destruct (match Dom.elem_at input st with
              | Some e => ctl_value e
              | None => None
              end) as [v |]; simpl; [| reflexivity].
    destruct (Str.is_empty (Str.trim v)); simpl; [reflexivity |].
    now rewrite Hck.
  - unfold edit_comment_click. unfold_click.
    destruct (match Dom.elem_at target st with
              | Some e => Tree.has_class "edit-comment-btn" e
              | None => false
              end); simpl; [| reflexivity].
    destruct (match Tree.first_some (Tree.path_to target) (Dom.roots st) with
              | Some chain =>
                  option_map eid
                    (find (Tree.has_class "comment-item") (rev chain))
              | None => None
              end) as [item |]; simpl; [| reflexivity].
    destruct (hd_error _) as [ctext |]; simpl; [| reflexivity].
    destruct answer as [new |]; simpl; [| reflexivity].
    destruct (negb (Str.is_empty new) && negb (new =? _)%string); simpl;
      [| reflexivity].
    now rewrite Hck.
  - unfold delete_comment_click. unfold_click.
    destruct (match Dom.elem_at target st with
              | Some e => Tree.has_class "delete-comment-btn" e
              | None => false
              end); simpl; [| reflexivity].
    destruct answer; simpl; [| reflexivity].
    now rewrite Hck.
Qed.

End ClickListeners.

(** ** Failures of the promise chain *)

Section Catch.
Context {num : Type} {H : Host num}.
Import Frame FrameFacts.

Lemma settle_step (a : action num) o h msg st :
  is_response a = Some o -> data_handler a = Some h ->
  failure_message a = Some msg ->
  step a st = snd (settle h msg o st).
Proof.
  destruct a; try discriminate; intros [= <-] [= <-] [= <-]; reflexivity.
Qed.

Lemma response_has_handler (a : action num) o :
  is_response a = Some o ->
  exists h msg, data_handler a = Some h /\ failure_message a = Some msg.
Proof. destruct a; try discriminate; intros _; do 2 eexists; split; reflexivity. Qed.

Lemma reported_run e msg st :
  reported e msg st (snd ((console_error e ;; alert msg) st)).
Proof. repeat split. Qed.

(** X9.  Every failure of the promise chain ends in the [catch] handler: when
    the chain is rejected with [e], or when the code that handles the
    parsed data throws [e] from a state [st1], the error is logged with
    [console.error] and the message of the handler is shown in one alert;
    nothing else changes. *)
Theorem failure_is_reported (a : action num) (msg : string) (e : exn)
    (st : state) :
  failure_message a = Some msg ->
  (is_response a = Some (Rejected e) -> reported e msg st (step a st))
  /\ (forall data h st1,
        is_response a = Some (Parsed data) ->
        data_handler a = Some h ->
        h data st = (Throw e, st1) ->
        reported e msg st1 (step a st)).
Proof.
  intros Hm. split.
  - intros Ho. destruct (response_has_handler a _ Ho) as (h & m & Hh & Hm').
    rewrite (settle_step a _ h msg st Ho Hh Hm). apply reported_run.
  - intros data h st1 Ho Hh Hrun.
    rewrite (settle_step a _ h msg st Ho Hh Hm).
    unfold settle, try_catch. rewrite Hrun. apply reported_run.
Qed.

(** X10.  A response handler never throws. *)
Theorem response_never_throws (o : outcome num) (st : state) :
  (forall this, fst (favorite_response this o st) = Ok tt)
  /\ (forall this, fst (reaction_response this o st) = Ok tt)
  /\ (forall articleId input,
        fst (add_comment_response articleId input o st) = Ok tt)
  /\ (forall item ctext, fst (edit_comment_response item ctext o st) = Ok tt)
  /\ (forall item, fst (delete_comment_response item o st) = Ok tt).
Proof.
  assert (Hs : forall h msg, fst (settle h msg o st) = Ok tt).
  { intros h msg. unfold settle, try_catch. destruct o as [e | data].
    - reflexivity.
    - destruct (h data st) as [[[] | e] st1]; reflexivity. }
  repeat split; intros; apply Hs.
Qed.

(** What the [else] branch does, by the string of the error. *)
Lemma alert_failure_run (data err : value num) st :
  Js.get data "error" = inr err ->
  alert_failure data st
  = match Js.to_string (Js.or_else err (VStr unknown_error)) with
    | inr text => alert ("Ошибка: " ++ text) st
    | inl e => (Throw e, st)
    end.
Proof.
  intros He. unfold alert_failure. unfold bind at 1. rewrite He.
  unfold lift at 1, ret. unfold bind.
  now destruct (Js.to_string (Js.or_else err (VStr unknown_error))).
Qed.

(** X11.  The alert of a response whose [success] is falsy: it shows the
    [error] of the response when that is truthy and can be made a string
    (a non-empty string is shown as it is), and [Неизвестная ошибка] when
    it is falsy; nothing is logged.  When the [error] cannot be made a
    string, the [TypeError] is logged and the message of the [catch]
    handler is shown instead. *)
Theorem failure_alert_text (a : action num) (data s err : value num)
    (msg : string) (st : state) :
  is_response a = Some (Parsed data) ->
  failure_message a = Some msg ->
  Js.get data "success" = inr s -> Js.truthy s = false ->
  Js.get data "error" = inr err ->
  (Js.truthy err = false ->
   dialogs (step a st)
   = (dialogs st ++ [Alert "Ошибка: Неизвестная ошибка"])%list
   /\ console (step a st) = console st)
  /\ (forall text, Js.truthy err = true -> Js.to_string err = inr text ->
        dialogs (step a st)
        = (dialogs st ++ [Alert ("Ошибка: " ++ text)])%list
        /\ console (step a st) = console st)
  /\ (forall text, err = VStr text -> text <> "" ->
        dialogs (step a st)
        = (dialogs st ++ [Alert ("Ошибка: " ++ text)])%list)
  /\ (forall e, Js.truthy err = true -> Js.to_string err = inl e ->
        reported e msg st (step a st)).
Proof.
  intros Ho Hm Hs Ht He.
  destruct (response_has_handler a _ Ho) as (h & msg' & Hh & _).
  rewrite (settle_step a _ h msg st Ho Hh Hm).
  assert (Hrun : h data st = alert_failure data st).
  { destruct a; try discriminate; injection Hh as <-;
      [unfold favorite_data | unfold reaction_data | unfold add_comment_data
       | unfold edit_comment_data | unfold delete_comment_data];
      unfold bind at 1; rewrite Hs; unfold lift at 1, ret; now rewrite Ht. }
  unfold settle, try_catch. rewrite Hrun, (alert_failure_run data err st He).
  unfold Js.or_else.
  split; [| split; [| split]].
  - intros Hf. rewrite Hf. split; reflexivity.
  - intros text Htr Hstr. rewrite Htr, Hstr. split; reflexivity.
  - intros text -> Hne.
    assert (Htr : Js.truthy (num := num) (VStr text) = true)
      by (destruct text; [now contradiction Hne | reflexivity]).
    rewrite Htr. reflexivity.
  - intros e Htr Hstr. rewrite Htr, Hstr. repeat split.
Qed.

Lemma caught (h : value num -> M unit) msg data e st st1 :
  h data st = (Throw e, st1) ->
  exists st',
    settle h msg (Parsed data) st = (Ok tt, st') /\ reported e msg st1 st'.
Proof.
  intros Hrun. unfold settle, try_catch. rewrite Hrun.
  eexists. split; [reflexivity | apply reported_run].
Qed.

Lemma get_other (data : value num) k v k' :
  Js.get data k = inr v -> exists v', Js.get data k' = inr v'.
Proof. destruct data; simpl; try discriminate; eauto. Qed.

(** X12.  A successful favourite response for a button without an icon
    element: the page is not touched, a [TypeError] is logged and the
    generic alert of the handler is shown. *)
Theorem favorite_success_without_icon (this : nat) (data s : value num)
    (st : state) :
  first_of "favorite-icon" this st = None ->
  Js.get data "success" = inr s -> Js.truthy s = true ->
  exists st',
    favorite_response this (Parsed data) st = (Ok tt, st')
    /\ reported TypeError "Произошла ошибка при сохранении в избранное" st st'.
Proof.
  intros Hi Hs Ht. apply caught. unfold favorite_data.
  unfold bind at 1. rewrite Hs. unfold lift at 1, ret. rewrite Ht.
  unfold bind at 1. unfold Dom.querySelector, gets.
  fold (first_of "favorite-icon" this st). rewrite Hi.
  destruct (get_other data _ _ "is_favorite" Hs) as (v & Hv).
  unfold bind at 1. rewrite Hv. unfold lift, ret.
  destruct (Js.truthy v); reflexivity.
Qed.

(** X13.  A successful reaction response for a button that is not inside a
    [.news-card]: no button is updated, a [TypeError] is logged and the
    generic alert of the handler is shown. *)
Theorem reaction_success_outside_card (this : nat) (data s : value num)
    (st : state) :
  Dom.closest this "news-card" st = (Ok None, st) ->
  Js.get data "success" = inr s -> Js.truthy s = true ->
  exists st',
    reaction_response this (Parsed data) st = (Ok tt, st')
    /\ reported TypeError "Произошла ошибка при добавлении реакции" st st'.
Proof.
  intros Hc Hs Ht. apply caught. unfold reaction_data.
  unfold bind at 1. rewrite Hs. unfold lift at 1, ret. rewrite Ht.
  unfold bind at 1. rewrite Hc.
  destruct (get_other data _ _ "reactions_count" Hs) as (rc & Hrc).
  destruct (get_other data _ _ "reaction_type" Hs) as (rt & Hrt).
  unfold bind at 1. rewrite Hrc. unfold lift at 1, ret.
  unfold bind at 1. rewrite Hrt. unfold lift at 1, ret.
  reflexivity.
Qed.

(** X14.  A successful add-comment response when the page has no comments
    list for the article: nothing is added, the input keeps its value, a
    [TypeError] is logged and the generic alert of the handler is shown. *)
Theorem add_comment_success_without_list (articleId : option string)
    (input : nat) (data s comment : value num) (st : state) :
  Dom.document_querySelector
    (".comments-list[data-article-id=" ++ Str.of_char Str.dquote
     ++ Js.attr_string articleId
     ++ Str.of_char Str.dquote ++ "]") st = (Ok None, st) ->
  Js.get data "success" = inr s -> Js.truthy s = true ->
  Js.get data "comment" = inr comment ->
  exists st',
    add_comment_response articleId input (Parsed data) st = (Ok tt, st')
    /\ reported TypeError "Произошла ошибка при добавлении комментария" st st'.
Proof.
  intros Hq Hs Ht Hc. apply caught. unfold add_comment_data.
  unfold bind at 1. rewrite Hs. unfold lift at 1, ret. rewrite Ht.
  unfold bind at 1. rewrite Hc. unfold lift at 1, ret.
  unfold bind at 1. unfold addCommentToDOM.
  unfold bind at 1. rewrite Hq. reflexivity.
Qed.

(** X15.  A delete button that is not inside a [.comment-item]: once the
    user confirms, the request is sent all the same; when the answer is a
    success nothing is removed, a [TypeError] is logged and the generic
    alert of the handler is shown. *)
Theorem delete_outside_item (target : nat) (token : option string)
    (data s : value num) (st : state) :
  Dom.classList_contains target "delete-comment-btn" st = (Ok true, st) ->
  Dom.closest target "comment-item" st = (Ok None, st) ->
  getCookie "csrftoken" st = (Ok token, st) ->
  Js.get data "success" = inr s -> Js.truthy s = true ->
  (exists st1,
     delete_comment_click target true st = (Ok (Some None), st1)
     /\ requests st1
        = (requests st
           ++ [mkFetch
                 ("/api/delete-comment/"
                  ++ Js.attr_string (attribute "data-comment-id" target st) ++ "/")
                 "POST" (json_headers token) None])%list)
  /\ (forall st1, exists st',
        delete_comment_response None (Parsed data) st1 = (Ok tt, st')
        /\ reported TypeError "Произошла ошибка при удалении комментария"
             st1 st').
Proof.
  intros Hc Hi Hck Hs Ht. split.
  - destruct (delete_click_sends target token st Hc Hck)
      as (st1 & item & Hi' & Hrun & Hreq).
    rewrite Hi in Hi'. injection Hi' as <-. now exists st1.
  - intros st1. apply caught. unfold delete_comment_data.
    unfold bind at 1. rewrite Hs. unfold lift at 1, ret. rewrite Ht.
    reflexivity.
Qed.

End Catch.

(** ** More on editing a comment *)

Section EditMore.
Context {num : Type} {H : Host num}.
Import Tree Ctx Checks TreeFacts Store DomFacts Frame FrameFacts.

Local Open Scope nat_scope.
Local Open Scope list_scope.

Lemma select_set_kids_incl p x new :
  (forall n, incl (select p (set_kids x new n)) (select p n ++ select_f p new))
  /\ (forall f, incl (select_f p (map (set_kids x new) f))
                  (select_f p f ++ select_f p new)).
Proof.
  apply node_forest_ind.
  - intros s. simpl. intros y [].
  - intros e ks IH. simpl. destruct (Nat.eqb (eid e) x); simpl.
    + intros y Hy. apply in_app_or in Hy as [Hy | Hy].
      * apply in_or_app. left. apply in_or_app. now left.
      * apply in_or_app. now right.
    + intros y Hy. apply in_app_or in Hy as [Hy | Hy].
      * apply in_or_app. left. apply in_or_app. now left.
      * apply IH in Hy. apply in_app_or in Hy as [Hy | Hy].
        -- apply in_or_app. left. apply in_or_app. now right.
        -- apply in_or_app. now right.
  - intros y [].
  - intros n ks IHn IHks. unfold select_f in *. simpl.
    intros y Hy. apply in_app_or in Hy as [Hy | Hy].
    + apply IHn in Hy. apply in_app_or in Hy as [Hy | Hy].
      * apply in_or_app. left. apply in_or_app. now left.
      * apply in_or_app. now right.
    + apply IHks in Hy. apply in_app_or in Hy as [Hy | Hy].
      * apply in_or_app. left. apply in_or_app. now right.
      * apply in_or_app. now right.
Qed.

(** X16.  A successful edit response, whose [comment.text] can be made a
    string, for a comment item that has no date element: the text of the
    comment is replaced all the same, then a [TypeError] is logged and the
    generic alert of the handler is shown. *)
Theorem edit_success_without_date (item ctext : nat)
    (data s comment t : value num) (s1 : string) (st : state) :
  distinct_ids st = true ->
  first_of "comment-text" item st = Some ctext ->
  first_of "comment-date" item st = None ->
  Js.get data "success" = inr s -> Js.truthy s = true ->
  Js.get data "comment" = inr comment ->
  Js.get comment "text" = inr t -> Js.text_of_value t = inr s1 ->
  exists st',
    edit_comment_response item ctext (Parsed data) st = (Ok tt, st')
    /\ shown_text ctext st' = s1
    /\ reported TypeError "Произошла ошибка при редактировании комментария"
         (Dom.replace_children ctext (text_kids s1) st) st'.
Proof.
  intros Hd Htext Hdate Hs Ht Hc Htx Hs1.
  apply nodupb_sound in Hd. fold (wf st) in Hd.
  set (st1 := Dom.replace_children ctext (text_kids s1) st).
  unfold first_of, Dom.kids_at in Htext, Hdate.
  destruct (Dom.node_at item st) as [[tx | e ks] |] eqn:Hn; try discriminate.
  pose proof (hd_error_in _ _ Htext) as Htin.
  destruct (selected_inside _ item st e ks ctext Hd Hn Htin)
    as (Htk & Hne & Hft & _ & Hit).
  destruct (in_found ctext ks Htk) as (nt & Hnt).
  destruct (proj2 (find_root ctext) _ _ Hnt) as (et & kt & -> & Het).
  rewrite <- Hft in Hnt.
  assert (Hitem1 : Dom.node_at item st1
                   = Some (Elem e (map (set_kids ctext
                                          (text_kids s1))
                                     ks))).
  { unfold st1. rewrite node_at_replace_children;
      [| exact Hd | apply ids_text_kids | exact Hit].
    rewrite Hn. simpl.
    destruct (proj2 (find_root item) _ _ Hn) as (e' & ks' & [= <- <-] & He).
    rewrite <- He in Hne. now rewrite (proj2 (Nat.eqb_neq _ _) Hne). }
  assert (Hdate1 : first_of "comment-date" item st1 = None).
  { unfold first_of, Dom.kids_at. rewrite Hitem1.
    destruct (select_f (has_class "comment-date") ks) as [| d r] eqn:Hsel;
      [| discriminate].
    destruct (select_f _ (map _ ks)) as [| d r] eqn:Hsel1; [reflexivity |].
    exfalso.
    pose proof (proj2 (select_set_kids_incl (has_class "comment-date") ctext
                         (text_kids s1)) ks d) as Hin.
    rewrite Hsel1, Hsel, select_text_kids_nil in Hin. apply Hin. now left. }
  assert (Hrun : edit_comment_data item ctext data st = (Throw TypeError, st1)).
  { unfold edit_comment_data.
    unfold bind at 1. rewrite Hs. unfold lift at 1, ret. rewrite Ht.
    unfold bind at 1. rewrite Hc. unfold lift at 1, ret.
    unfold bind at 1. rewrite Htx. unfold lift at 1, ret.
    unfold bind at 1. rewrite Hs1. unfold lift at 1, ret.
    unfold bind at 1. rewrite set_textContent_run. fold st1.
    unfold bind at 1. unfold Dom.querySelector, gets.
    fold (first_of "comment-date" item st1). rewrite Hdate1.
    unfold bind at 1. unfold lift at 1, ret.
    destruct (get_other comment _ _ "created_at" Htx) as (d & Hcr).
    unfold bind at 1. rewrite Hcr. reflexivity. }
  destruct (caught (edit_comment_data item ctext)
              "Произошла ошибка при редактировании комментария"
              data TypeError st st1 Hrun) as (st' & Hres & Hrep).
  exists st'. split; [exact Hres | split; [| exact Hrep]].
  destruct Hrep as (_ & _ & Hdoc & Hdet & _).
  unfold shown_text, Dom.node_at, Dom.roots. rewrite Hdoc, Hdet.
  fold (Dom.roots st1). fold (Dom.node_at ctext st1). unfold st1.
  rewrite (node_at_replace_self ctext _ st et kt Hd Hnt).
  apply text_of_text_kids.
Qed.

(** X17.  A click on an edit button inside a comment item that has a text
    element shows one prompt, filled in with the trimmed text of the
    comment, whatever the user answers. *)
Theorem edit_click_prompts (target item ctext : nat) (answer : option string)
    (st : state) :
  Dom.classList_contains target "edit-comment-btn" st = (Ok true, st) ->
  Dom.closest target "comment-item" st = (Ok (Some item), st) ->
  first_of "comment-text" item st = Some ctext ->
  dialogs (snd (edit_comment_click (H := H) target answer st))
  = (dialogs st
     ++ [Prompt "Редактировать комментарий:" (Str.trim (shown_text ctext st))])%list.
Proof.
  intros Hc Hi Ht. rewrite (edit_click_run target item ctext answer st Hc Hi Ht).
  unfold prompt, getCookie, fetch. unfold bind, modify, ret. cbv beta iota.
  destruct answer as [new |]; [| reflexivity].
  destruct (negb (Str.is_empty new)
            && negb (String.eqb new (Str.trim (shown_text ctext st))));
    [| reflexivity].
  cbn [cookie]. destruct (read_cookie "csrftoken" (cookie st)); reflexivity.
Qed.

End EditMore.

(** ** What [updateReactionButtons] leaves alone *)

Section ReactionFrame.
Context {num : Type} {H : Host num}.
Import Tree Ctx Checks TreeFacts Store DomFacts Frame FrameFacts.
Import Differ DifferFacts.










End ReactionFrame.

(** ** A comment is added *)

Section AddCommentSuccess.
Context {num : Type} {H : Host num}.
Import Tree Ctx Checks TreeFacts Store DomFacts Frame FrameFacts.

Local Open Scope nat_scope.
Local Open Scope list_scope.

Lemma find_add_kid_same x c :
  (forall n e ks, find x n = Some (Elem e ks) ->
     find x (add_kid x c n) = Some (Elem e (ks ++ [c])))
  /\ (forall f e ks, find_f x f = Some (Elem e ks) ->
        find_f x (map (add_kid x c) f) = Some (Elem e (ks ++ [c]))).
Proof.
  apply node_forest_ind.
  - discriminate.
  - intros e ks IH e' ks'. simpl.
    destruct (Nat.eqb_spec (eid e) x) as [Heq | Hne]; simpl.
    + intros [= <- <-]. now rewrite (proj2 (Nat.eqb_eq _ _) Heq).
    + rewrite (proj2 (Nat.eqb_neq _ _) Hne). apply IH.
  - discriminate.
  - intros n ks IHn IHks e ks'. simpl map. rewrite !find_f_cons.
    destruct (find x n) eqn:E.
    + intros [= ->]. now rewrite (IHn _ _ eq_refl).
    + intros Hf.
      rewrite (proj1 (absent_add_kid x c) n)
        by (now apply (proj1 (find_none x))).
      rewrite E. now apply (IHks e ks').
Qed.

Lemma ids_add_kid x c :
  (forall n, incl (ids n) (ids (add_kid x c n))
             /\ incl (ids (add_kid x c n)) (ids n ++ ids c))
  /\ (forall f, incl (ids_f f) (ids_f (map (add_kid x c) f))
                /\ incl (ids_f (map (add_kid x c) f)) (ids_f f ++ ids c)).
Proof.
  apply node_forest_ind.
  - intros s. split; intros y [].
  - intros e ks (IH1 & IH2). cbn [add_kid].
    destruct (Nat.eqb (eid e) x); cbn [ids].
    + rewrite flat_map_app. cbn [flat_map]. rewrite app_nil_r.
      split; intros y [Hy | Hy].
      * now left.
      * right. apply in_or_app. now left.
      * now left.
      * right. exact Hy.
    + split; intros y [Hy | Hy].
      * now left.
      * right. now apply IH1.
      * now left.
      * right. now apply IH2.
  - split; intros y [].
  - intros n ks (IHn1 & IHn2) (IHk1 & IHk2). simpl map.
    rewrite !ids_f_cons. split; intros y Hy; apply in_app_or in Hy as [Hy | Hy].
    + apply in_or_app. left. now apply IHn1.
    + apply in_or_app. right. now apply IHk1.
    + apply IHn2 in Hy. apply in_app_or in Hy as [Hy | Hy].
      * apply in_or_app. left. apply in_or_app. now left.
      * apply in_or_app. now right.
    + apply IHk2 in Hy. apply in_app_or in Hy as [Hy | Hy].
      * apply in_or_app. left. apply in_or_app. now right.
      * apply in_or_app. now right.
Qed.

Lemma last_elem_app ks e k : last_elem (ks ++ [Elem e k]) = Some (eid e).
Proof.
  induction ks as [| n ks IH]; [reflexivity |]. simpl. now rewrite IH.
Qed.

Lemma last_elem_map_elem x g ks :
  keeps_eid g -> last_elem (map (map_elem x g) ks) = last_elem ks.
Proof.
  intros Hg. induction ks as [| n ks IH]; [reflexivity |]. simpl.
  rewrite IH. destruct (last_elem ks); [reflexivity |].
  destruct n as [s | e k]; [reflexivity |]. simpl.
  destruct (Nat.eqb (eid e) x); [now rewrite Hg | reflexivity].
Qed.

(** [x.remove()] moves nodes and loses none. *)
Lemma remove_perm x st :
  wf st ->
  Permutation (ids_f (Dom.roots (snd (Dom.remove x st)))) (ids_f (Dom.roots st)).
Proof.
  intros Hw. unfold Dom.remove, modify. cbn [snd].
  destruct (existsb (has_id x) (detached st)); [apply Permutation_refl |].
  destruct (Dom.node_at x st) as [sub |] eqn:Hn; [| apply Permutation_refl].
  unfold Dom.roots. cbn [document detached with_detached with_document].
  rewrite app_assoc, <- prune_f_app. fold (Dom.roots st).
  unfold Dom.node_at in Hn.
  destruct (proj2 (find_root x) _ _ Hn) as (e & ks & -> & He).
  destruct (proj2 (find_decompose x) _ _ Hn) as (c & Hc & Hpre).
  unfold wf in Hw. rewrite Hc in Hw |- *.
  destruct (nodup_hole x c e ks Hw He) as (_ & Hpost & _).
  rewrite prune_plug by assumption. rewrite prune_f_cons. simpl.
  rewrite (proj2 (Nat.eqb_eq _ _) He). simpl.
  rewrite ids_f_app, !ids_plug.
  change (ids_f []) with (@nil nat). cbn [app].
  rewrite <- app_assoc.
  apply Permutation_app_head. apply Permutation_app_comm.
Qed.

Lemma find_prune x p f e ks :
  NoDup (ids_f f) -> find_f x f = Some (Elem e ks) -> In p (ids_f ks) ->
  find_f x (prune_f p f) = Some (Elem e (prune_f p ks)).
Proof.
  intros Hn Hf Hin.
  destruct (proj2 (find_root x) _ _ Hf) as (e' & ks' & [= <- <-] & He).
  destruct (proj2 (find_decompose x) _ _ Hf) as (c & -> & Hpre).
  destruct (nodup_hole x c e ks Hn He) as (_ & _ & Hks).
  assert (Hin' : In p (ids_f [Elem e ks])).
  { unfold ids_f. simpl. rewrite app_nil_r. now right. }
  destruct (nodup_hole_inside p c _ Hn Hin') as (Hppre & Hppost).
  rewrite prune_plug by assumption.
  apply find_plug; [exact Hpre |].
  rewrite prune_f_cons. simpl.
  assert (Hne : (eid e =? p) = false).
  { apply Nat.eqb_neq. intros Heq. apply Hks. now rewrite <- He, Heq. }
  rewrite Hne. simpl. now rewrite (proj2 (Nat.eqb_eq _ _) He).
Qed.

Lemma nodup_document st : wf st -> NoDup (ids_f (document st)).
Proof.
  unfold wf, Dom.roots. rewrite ids_f_app. intros Hw.
  now apply NoDup_app_remove_r in Hw.
Qed.

Lemma in_document_roots st y :
  In y (ids_f (document st)) -> In y (ids_f (Dom.roots st)).
Proof.
  intros Hy. unfold Dom.roots. rewrite ids_f_app. apply in_or_app. now left.
Qed.

Lemma node_at_document st x t :
  find_f x (document st) = Some t -> Dom.node_at x st = Some t.
Proof.
  intros Hf. unfold Dom.node_at, Dom.roots. now rewrite find_f_app, Hf.
Qed.

(** The state once the first placeholder of the list, if there is one, is
    removed. *)
Lemma placeholder_step lst st e ks :
  wf st -> find_f lst (document st) = Some (Elem e ks) ->
  exists stb,
    (match first_of "no-comments" lst st with
     | Some n => Dom.remove n
     | None => ret tt
     end) st = (Ok tt, stb)
    /\ wf stb /\ next_id stb = next_id st /\ talk stb = talk st
    /\ find_f lst (document stb) = Some (Elem e (without_placeholder lst st))
    /\ (forall y, In y (ids_f (Dom.roots st)) -> In y (ids_f (Dom.roots stb)))
    /\ (forall y, In y (ids_f (Dom.roots stb)) -> In y (ids_f (Dom.roots st)))
    /\ (forall p, first_of "no-comments" lst st = Some p ->
                  ~ In p (ids_f (document stb))).
Proof.
  intros Hw Hl. pose proof (node_at_document st lst _ Hl) as Hnode.
  pose proof (kids_at_found lst st e ks Hnode) as Hkids.
  unfold without_placeholder. rewrite Hkids.
  destruct (first_of "no-comments" lst st) as [p |] eqn:Hp.
  - assert (Hpk : In p (ids_f ks)).
    { unfold first_of in Hp. rewrite Hkids in Hp.
      apply (proj2 (select_incl (has_class "no-comments")) ks).
      now apply hd_error_in. }
    assert (Hpd : In p (ids_f (document st))).
    { apply (proj2 (find_incl lst) _ _ Hl). simpl. now right. }
    destruct (remove_from_document p st Hw Hpd) as (sub & Hsub & Hrem).
    pose proof (remove_perm p st Hw) as Hperm. rewrite Hrem in Hperm.
    cbn [snd] in Hperm.
    eexists. split; [exact Hrem |].
    split; [| split; [reflexivity | split; [reflexivity | split; [| split; [| split]]]]].
    + unfold wf. apply (Permutation_NoDup (Permutation_sym Hperm)). exact Hw.
    + cbn [document with_detached with_document].
      apply find_prune; auto using nodup_document.
    + intros y Hy. apply (Permutation_in _ (Permutation_sym Hperm) Hy).
    + intros y Hy. apply (Permutation_in _ Hperm Hy).
    + intros p' [= <-]. cbn [document with_detached with_document].
      apply (proj2 (prune_removes p)).
  - exists st. repeat split; auto. discriminate.
Qed.

Lemma fresh_not_in st x :
  fresh_ids st = true -> next_id st <= x -> ~ In x (ids_f (Dom.roots st)).
Proof.
  intros Hf Hle Hin. pose proof (fresh_ids_sound st x Hf Hin) as Hlt.
  apply (Nat.lt_irrefl x). now apply Nat.lt_le_trans with (next_id st).
Qed.

Lemma addCommentToDOM_run articleId (comment id created : value num) t
    id_text created_text lst st :
  wf st -> fresh_ids st = true ->
  Dom.document_querySelector (list_selector articleId) st = (Ok (Some lst), st) ->
  Js.get comment "id" = inr id -> Js.to_string id = inr id_text ->
  Js.get comment "text" = inr (VStr t) ->
  Js.get comment "created_at" = inr created ->
  Js.to_string created = inr created_text ->
  forallb (fun x => S (next_id st) <=? x)
    (ids_f (fst (parseHTML (S (next_id st))
                   (comment_markup (escapeHtml t) created_text id_text id_text)))) = true ->
  exists st2 el,
    addCommentToDOM articleId comment st = (Ok tt, st2)
    /\ Dom.node_at lst st2
       = Some (Elem el
                 (without_placeholder lst st
                  ++ [Elem (comment_element (next_id st) id_text)
                        (fst (parseHTML (S (next_id st))
                                (comment_markup (escapeHtml t) created_text id_text id_text)))]))
    /\ (forall y, In y (ids_f (Dom.roots st)) -> In y (ids_f (Dom.roots st2)))
    /\ (forall p, first_of "no-comments" lst st = Some p ->
                  ~ In p (ids_f (document st2)))
    /\ talk st2 = talk st.
Proof.
  intros Hw Hfresh Hq Hid Hsid Htx Hcr Hscr Hparse.
  set (item := next_id st) in *.
  set (markup := comment_markup (escapeHtml t) created_text id_text id_text) in *.
  (* the list is an element of the document *)
  assert (Hlin : In lst (ids_f (document st))).
  { unfold Dom.document_querySelector in Hq.
    destruct (css_parse _) as [sel |]; [| discriminate].
    unfold gets in Hq. injection Hq as Hq.
    apply (proj2 (select_incl (Dom.matches sel)) _). now apply hd_error_in. }
  destruct (in_found lst _ Hlin) as (tl & Htl).
  destruct (proj2 (find_root lst) _ _ Htl) as (el & kl & -> & Hel).
  destruct (placeholder_step lst st el kl Hw Htl)
    as (stb & Hrem & Hwb & Hnext & Htalk & Hlb & Hinto & Hback & Hgone).
  assert (Hitem : ~ In item (ids_f (Dom.roots stb))).
  { intros Hin. apply Hback in Hin.
    apply (fresh_not_in st item Hfresh (Nat.le_refl _) Hin). }
  assert (Hdocb : ~ In item (ids_f (document stb))).
  { intros Hin. now apply Hitem, in_document_roots. }
  assert (Hdetb : ~ In item (ids_f (detached stb))).
  { intros Hin. apply Hitem. unfold Dom.roots. rewrite ids_f_app.
    apply in_or_app. now right. }
  unfold addCommentToDOM. fold (list_selector articleId).
  unfold bind at 1. rewrite Hq.
  unfold bind at 1. unfold deref at 1, ret at 1.
  unfold bind at 1. unfold Dom.querySelector at 1, gets at 1.
  fold (first_of "no-comments" lst st).
  unfold bind at 1. rewrite Hrem.
  unfold bind at 1. unfold Dom.createElement at 1. rewrite Hnext. fold item.
  set (ce := comment_element item id_text).
  destruct (parseHTML (S item) markup) as [new n'] eqn:Hp. cbn [fst] in *.
  set (sub := Elem ce new).
  (* the new element takes its class and its attribute *)
  set (ste := mkState (document stb) (detached stb ++ [Elem ce []]) (S item)
                (cookie stb) (dialogs stb) (console stb) (requests stb)).
  assert (Hste : apply_elem item
                   (fun e => Dom.with_attrs
                               (update "data-comment-id" id_text
                                  (attrs e)) e)
                   (apply_elem item (Dom.with_classes ["comment-item"%string])
                      (with_next_id (S item)
                         (with_detached
                            (detached stb
                             ++ [Elem (mkElem item "div" [] [] "" None) []])
                            stb)))
                 = ste).
  { unfold apply_elem, ste.
    cbn [document detached next_id cookie dialogs console requests
         with_detached with_document with_next_id].
    rewrite !map_app.
    rewrite !(proj2 (absent_map_elem item _) _ Hdocb).
    rewrite !(proj2 (absent_map_elem item _) _ Hdetb).
    simpl. rewrite !Nat.eqb_refl. reflexivity. }
  unfold bind at 1. unfold Dom.set_className at 1. rewrite update_elem_run.
  unfold bind at 1. rewrite Hid. unfold lift at 1, ret at 1.
  unfold bind at 1. rewrite Hsid. unfold lift at 1, ret at 1.
  unfold bind at 1. unfold Dom.setAttribute at 1. rewrite update_elem_run.
  rewrite Hste.
  unfold bind at 1. rewrite Htx. unfold lift at 1, ret at 1.
  unfold bind at 1. unfold escapeHtml_value at 1, ret at 1.
  unfold bind at 1. rewrite Hcr. unfold lift at 1, ret at 1.
  unfold bind at 1. rewrite Hscr. unfold lift at 1, ret at 1.
  unfold bind at 1. unfold lift at 1, ret at 1.
  unfold bind at 1. rewrite Hsid. unfold lift at 1, ret at 1.
  unfold bind at 1. unfold lift at 1, ret at 1.
  unfold bind at 1. rewrite Hsid. unfold lift at 1, ret at 1.
  fold markup.
  (* its children are parsed *)
  assert (Hnode_e : Dom.node_at item ste = Some (Elem ce [])).
  { unfold Dom.node_at, Dom.roots, ste. cbn [document detached].
    rewrite !find_f_app.
    rewrite (proj2 (absent_find item) _ Hdocb).
    rewrite (proj2 (absent_find item) _ Hdetb).
    rewrite find_f_cons. simpl. now rewrite Nat.eqb_refl. }
  set (sf := mkState (document stb) (detached stb ++ [sub]) n'
               (cookie stb) (dialogs stb) (console stb) (requests stb)).
  assert (Hsf : Dom.set_innerHTML item markup ste = (Ok tt, sf)).
  { unfold Dom.set_innerHTML, modify. f_equal.
    change (next_id ste) with (S item). rewrite Hp.
    unfold Dom.replace_children, sf. rewrite (kids_at_found item ste ce [] Hnode_e).
    unfold ste.
    cbn [document detached next_id cookie dialogs console requests
         with_detached with_document with_next_id].
    rewrite map_app, app_nil_r.
    rewrite (proj2 (absent_set_kids item new) _ Hdocb).
    rewrite (proj2 (absent_set_kids item new) _ Hdetb).
    simpl. now rewrite Nat.eqb_refl. }
  unfold bind at 1. rewrite Hsf.
  (* and it becomes the last child of the list *)
  assert (Hnode_f : Dom.node_at item sf = Some sub).
  { unfold Dom.node_at, Dom.roots, sf. cbn [document detached].
    rewrite !find_f_app.
    rewrite (proj2 (absent_find item) _ Hdocb).
    rewrite (proj2 (absent_find item) _ Hdetb).
    rewrite find_f_cons. unfold sub. simpl. now rewrite Nat.eqb_refl. }
  assert (Hlroot : In lst (ids_f (Dom.roots st))) by (now apply in_document_roots).
  assert (Hllt : lst < item) by (apply (fresh_ids_sound st lst Hfresh Hlroot)).
  assert (Hnew : forall y, y < S item -> ~ In y (ids_f new)).
  { intros y Hy Hin. rewrite forallb_forall in Hparse.
    specialize (Hparse y Hin). apply Nat.leb_le in Hparse.
    apply (Nat.lt_irrefl y). now apply Nat.lt_le_trans with (S item). }
  assert (Hsubids : forall y, y < item -> ~ In y (ids sub)).
  { intros y Hy [Heq | Hin].
    - simpl in Heq. subst y. now apply Nat.lt_irrefl in Hy.
    - apply (Hnew y); [now apply Nat.lt_lt_succ_r | exact Hin]. }
  assert (Hlsub : existsb (Nat.eqb lst) (ids sub) = false).
  { destruct (existsb (Nat.eqb lst) (ids sub)) eqn:E; [| reflexivity].
    exfalso. apply existsb_exists in E as (y & Hy & Heq).
    apply Nat.eqb_eq in Heq. subst y. now apply (Hsubids lst Hllt). }
  assert (Hlbdoc : In lst (ids_f (document stb))) by (apply (found_in _ _ _ Hlb)).
  assert (Hldet : ~ In lst (ids_f (detached stb))).
  { unfold wf, Dom.roots in Hwb. rewrite ids_f_app in Hwb.
    destruct (nodup_app_inv _ _ Hwb) as (_ & _ & Hdis). now apply Hdis. }
  set (st2 := mkState (map (add_kid lst sub) (document stb)) (detached stb) n'
                (cookie stb) (dialogs stb) (console stb) (requests stb)).
  assert (Hst2 : Dom.appendChild lst item sf = (Ok tt, st2)).
  { unfold Dom.appendChild. rewrite Hnode_f, Hlsub. f_equal.
    unfold st2, sf.
    cbn [document detached next_id cookie dialogs console requests
         with_detached with_document].
    rewrite prune_f_app, prune_f_cons. unfold sub at 1. simpl has_id.
    rewrite Nat.eqb_refl. cbn [app prune_f flat_map]. rewrite app_nil_r.
    rewrite !(proj2 (absent_prune item) _ Hdocb).
    rewrite !(proj2 (absent_prune item) _ Hdetb).
    fold sub. now rewrite (proj2 (absent_add_kid lst sub) _ Hldet). }
  rewrite Hst2.
  exists st2, el. split; [reflexivity | split; [| split; [| split]]].
  - apply node_at_document. unfold st2. cbn [document].
    apply (proj2 (find_add_kid_same lst sub) _ _ _ Hlb).
  - intros y Hy. apply Hinto in Hy. unfold Dom.roots in *.
    unfold st2. cbn [document detached]. rewrite ids_f_app in *.
    apply in_app_or in Hy as [Hy | Hy]; apply in_or_app; [left | now right].
    now apply (proj1 (proj2 (ids_add_kid lst sub) _)).
  - intros p Hpl Hin. unfold st2 in Hin. cbn [document] in Hin.
    apply (proj2 (proj2 (ids_add_kid lst sub) _)) in Hin.
    apply in_app_or in Hin as [Hin | Hin]; [now apply (Hgone p Hpl) |].
    apply (Hsubids p); [| exact Hin].
    apply (fresh_ids_sound st p Hfresh). apply in_document_roots.
    apply (proj2 (find_incl lst) _ _ Htl). simpl. right.
    unfold first_of in Hpl. rewrite (kids_at_found lst st el kl
                                       (node_at_document st lst _ Htl)) in Hpl.
    apply (proj2 (select_incl (has_class "no-comments")) kl).
    now apply hd_error_in.
  - rewrite <- Htalk. reflexivity.
Qed.

(** X19.  A successful add-comment response on a page that has the comments
    list of the article, for a comment whose [text] is a string and whose
    [id] and [created_at] can be made strings: the first placeholder of
    the list, if there is one, is removed, the new comment element becomes
    the last child of the list, after the children the list had, the input
    is emptied, and no dialog is shown. *)
Theorem add_comment_success (articleId : option string) (input lst : nat)
    (data s comment id created : value num) (t id_text created_text : string)
    (st : state) :
  distinct_ids st = true -> fresh_ids st = true ->
  existsb (Nat.eqb input) (ids_f (Dom.roots st)) = true ->
  Dom.document_querySelector (list_selector articleId) st = (Ok (Some lst), st) ->
  Js.get data "success" = inr s -> Js.truthy s = true ->
  Js.get data "comment" = inr comment ->
  Js.get comment "id" = inr id -> Js.to_string id = inr id_text ->
  Js.get comment "text" = inr (VStr t) ->
  Js.get comment "created_at" = inr created ->
  Js.to_string created = inr created_text ->
  forallb (fun x => S (next_id st) <=? x)
    (ids_f (fst (parseHTML (S (next_id st))
                   (comment_markup (escapeHtml t) created_text id_text id_text)))) = true ->
  exists st',
    add_comment_response articleId input (Parsed data) st = (Ok tt, st')
    /\ Dom.kids_at lst st'
       = map (map_elem input (Dom.with_ctl_value (Some ""%string)))
           (without_placeholder lst st)
         ++ [Elem (comment_element (next_id st) id_text)
               (fst (parseHTML (S (next_id st))
                       (comment_markup (escapeHtml t) created_text id_text id_text)))]
    /\ Dom.get_value input st' = (Ok (Some ""%string), st')
    /\ (forall p, first_of "no-comments" lst st = Some p ->
                  ~ In p (ids_f (document st')))
    /\ talk st' = talk st.
Proof.
  intros Hd Hfresh Hinput Hq Hs Ht Hc Hid Hsid Htx Hcr Hscr Hparse.
  apply nodupb_sound in Hd. fold (wf st) in Hd.
  destruct (addCommentToDOM_run articleId comment id created t id_text
              created_text lst st Hd Hfresh Hq Hid Hsid Htx Hcr Hscr Hparse)
    as (st2 & el & Hrun & Hlst & Hinto & Hgone & Htalk).
  set (g := Dom.with_ctl_value (Some ""%string)).
  assert (Hg : keeps_eid g) by (intros e; reflexivity).
  exists (apply_elem input g st2). split; [| split; [| split; [| split]]].
  - unfold add_comment_response, settle, try_catch, add_comment_data.
    unfold bind at 1. rewrite Hs. unfold lift at 1, ret at 1. rewrite Ht.
    unfold bind at 1. rewrite Hc. unfold lift at 1, ret at 1.
    unfold bind at 1. rewrite Hrun.
    unfold Dom.set_value. now rewrite update_elem_run.
  - unfold Dom.kids_at. rewrite (node_at_apply_elem input g st2 lst Hg), Hlst.
    cbn [option_map map_elem]. rewrite map_app. cbn [map]. f_equal. f_equal.
    apply (proj1 (absent_map_elem input g)).
    apply existsb_exists in Hinput as (y & Hy & Heq).
    apply Nat.eqb_eq in Heq. subst y.
    pose proof (fresh_ids_sound st input Hfresh Hy) as Hlt.
    intros [Heq | Hin].
    + simpl in Heq. rewrite Heq in Hlt. now apply Nat.lt_irrefl in Hlt.
    + rewrite forallb_forall in Hparse. specialize (Hparse input Hin).
      apply Nat.leb_le in Hparse.
      apply (Nat.lt_irrefl input).
      apply Nat.lt_le_trans with (S (next_id st)); [| exact Hparse].
      now apply Nat.lt_lt_succ_r.
  - unfold Dom.get_value, gets. f_equal. unfold Dom.elem_at.
    rewrite (node_at_apply_elem input g st2 input Hg).
    apply existsb_exists in Hinput as (y & Hy & Heq).
    apply Nat.eqb_eq in Heq. subst y. apply Hinto in Hy.
    destruct (in_found input _ Hy) as (ti & Hti).
    destruct (proj2 (find_root input) _ _ Hti) as (ei & ki & -> & Hei).
    unfold Dom.node_at. rewrite Hti. cbn [option_map map_elem].
    now rewrite (proj2 (Nat.eqb_eq _ _) Hei).
  - intros p Hp Hin. apply (Hgone p Hp).
    unfold apply_elem in Hin.
    cbn [document with_detached with_document] in Hin.
    now rewrite (proj2 (ids_map_elem input g Hg)) in Hin.
  - rewrite <- Htalk. reflexivity.
Qed.

End AddCommentSuccess.

(** ** Load and timers *)

Section Timers.
Import Tree Ctx Checks TreeFacts Store DomFacts Frame FrameFacts.

Local Open Scope nat_scope.
Local Open Scope list_scope.

Lemma pick_in l x r : pick l = Some (x, r) -> In x l.
Proof.
  revert x r. induction l as [| a l IH]; [discriminate |]. intros x r. simpl.
  destruct (pick l) as [[y r'] |].
  - destruct (Nat.leb (fst a) (fst y)); intros [= <- <-]; [now left |].
    right. now apply (IH y r').
  - intros [= <- <-]. now left.
Qed.

Lemma pick_head x r :
  (forall y, In y r -> fst x <= fst y) -> pick (x :: r) = Some (x, r).
Proof.
  intros Hle. simpl. destruct (pick r) as [[y r'] |] eqn:E.
  - rewrite (proj2 (Nat.leb_le _ _) (Hle y (pick_in _ _ _ E))). reflexivity.
  - destruct r; [reflexivity |]. simpl in E.
    destruct (pick r) as [[? ?] |]; [| discriminate].
    destruct (Nat.leb _ _); discriminate.
Qed.

Lemma fire_all_add a b w : fire_all (a + b) w = fire_all b (fire_all a w).
Proof.
  revert w. induction a as [| a IH]; intros w; [reflexivity |]. simpl.
  destruct (fire w) as [w' |] eqn:E; [apply IH |].
  destruct b; [reflexivity |]. simpl. now rewrite E.
Qed.

(** The fades: each sets the opacity and registers the removal. *)
Lemma fade_phase T rest :
  forall done w,
    timers w = map (fun m => (T, Fade m)) rest
               ++ map (fun m => (T + 300, Drop m)) done ->
    clock w <= T ->
    exists w',
      fire_all (length rest) w = w'
      /\ timers w' = map (fun m => (T + 300, Drop m)) (done ++ rest)
      /\ dom w' = dom w
      /\ opacity w' = map (fun m => (m, "0"%string)) (rev rest) ++ opacity w
      /\ (rest <> [] -> clock w' = T).
Proof.
  induction rest as [| m rest IH]; intros done w Ht Hc.
  - exists w. rewrite app_nil_r. repeat split; auto. now intros [].
  - simpl in Ht. cbn [length fire_all]. unfold fire. rewrite Ht.
    rewrite pick_head.
    + rewrite (Nat.max_r _ _ Hc).
      cbn [run_task setTimeout with_timers dom log ready opacity bound
           delegated timers clock uncaught].
      match goal with
      | |- context [fire_all _ ?w1] =>
          destruct (IH (done ++ [m]) w1) as (w' & Hrun & Ht' & Hp & Ho & Hk)
      end.
      * cbn [timers]. rewrite map_app. cbn [map]. now rewrite app_assoc.
      * cbn [clock]. apply Nat.le_refl.
      * exists w'. split; [exact Hrun | split; [| split; [| split]]].
        -- rewrite Ht', <- app_assoc. reflexivity.
        -- rewrite Hp. reflexivity.
        -- rewrite Ho. cbn [opacity rev]. rewrite map_app, <- app_assoc.
           reflexivity.
        -- intros _. destruct rest as [| m' rest'].
           ++ simpl in Hrun. now subst w'.
           ++ apply Hk. discriminate.
    + intros y Hy. cbn [fst]. apply in_app_or in Hy as [Hy | Hy];
        apply in_map_iff in Hy as (m' & <- & _); cbn [fst].
      * apply Nat.le_refl.
      * apply Nat.le_add_r.
Qed.

(** The removals. *)
Lemma drop_phase T l :
  forall w,
    timers w = map (fun m => (T, Drop m)) l ->
    exists w',
      fire_all (length l) w = w'
      /\ timers w' = []
      /\ dom w' = fold_left (fun st m => snd (Dom.remove m st)) l (dom w)
      /\ opacity w' = opacity w.
Proof.
  induction l as [| m l IH]; intros w Ht.
  - exists w. repeat split; auto.
  - simpl in Ht. cbn [length fire_all]. unfold fire. rewrite Ht.
    rewrite pick_head.
    + cbn [run_task]. unfold with_dom. cbn [dom log ready opacity bound
        delegated timers clock uncaught].
      match goal with
      | |- context [fire_all _ ?w1] =>
          destruct (IH w1) as (w' & Hrun & Ht' & Hp & Ho)
      end.
      * reflexivity.
      * exists w'. split; [exact Hrun | split; [exact Ht' | split]].
        -- rewrite Hp. reflexivity.
        -- rewrite Ho. reflexivity.
    + intros y Hy. apply in_map_iff in Hy as (m' & <- & _). apply Nat.le_refl.
Qed.

Lemma remove_document x st :
  wf st ->
  document (snd (Dom.remove x st)) = prune_f x (document st)
  /\ talk (snd (Dom.remove x st)) = talk st
  /\ wf (snd (Dom.remove x st)).
Proof.
  intros Hw. split; [| split].
  - unfold Dom.remove, modify. cbn [snd].
    destruct (existsb (has_id x) (detached st)) eqn:Hd.
    + symmetry. apply (proj2 (absent_prune x)).
      apply has_id_in in Hd. unfold wf, Dom.roots in Hw.
      rewrite ids_f_app in Hw.
      destruct (nodup_app_inv _ _ Hw) as (_ & _ & Hdis).
      intros Hin. now apply (Hdis x).
    + destruct (Dom.node_at x st) eqn:Hn; [reflexivity |].
      symmetry. apply (proj2 (absent_prune x)).
      intros Hin. apply (proj2 (find_none x) _ Hn).
      now apply in_document_roots.
  - unfold Dom.remove, modify. cbn [snd].
    destruct (existsb (has_id x) (detached st)); [reflexivity |].
    destruct (Dom.node_at x st); reflexivity.
  - unfold wf.
    apply (Permutation_NoDup (Permutation_sym (remove_perm x st Hw))).
    exact Hw.
Qed.

Lemma removes_document l :
  forall st, wf st ->
    document (fold_left (fun st m => snd (Dom.remove m st)) l st)
    = fold_left (fun d m => prune_f m d) l (document st)
    /\ talk (fold_left (fun st m => snd (Dom.remove m st)) l st) = talk st.
Proof.
  induction l as [| m l IH]; intros st Hw; [split; reflexivity |].
  cbn [fold_left].
  destruct (remove_document m st Hw) as (Hd & Ht & Hw').
  destruct (IH _ Hw') as (Hd' & Ht').
  split; [now rewrite Hd', Hd | now rewrite Ht', Ht].
Qed.

Lemma prunes_gone l :
  forall d m, In m l ->
    ~ In m (ids_f (fold_left (fun d m => prune_f m d) l d)).
Proof.
  assert (Hshrink : forall l d,
            incl (ids_f (fold_left (fun d m => prune_f m d) l d)) (ids_f d)).
  { induction l0 as [| a l0 IH]; intros d; [apply incl_refl |].
    cbn [fold_left]. eapply incl_tran; [apply IH |].
    apply (proj2 (prune_incl a)). }
  induction l as [| a l IH]; intros d m [].
  - subst a. cbn [fold_left]. intros Hin. apply Hshrink in Hin.
    now apply (proj2 (prune_removes m)) in Hin.
  - cbn [fold_left]. now apply IH.
Qed.

Lemma schedule_fades l :
  forall w,
    let w' := fold_left (fun w msg => setTimeout (Fade msg) 5000 w) l w in
    timers w' = timers w ++ map (fun m => (clock w + 5000, Fade m)) l
    /\ dom w' = dom w /\ clock w' = clock w /\ opacity w' = opacity w
    /\ bound w' = bound w /\ delegated w' = delegated w.
Proof.
  induction l as [| m l IH]; intros w; cbn [fold_left map].
  - rewrite app_nil_r. repeat split.
  - destruct (IH (setTimeout (Fade m) 5000 w)) as (Ht & Hp & Hc & Ho & Hb & Hd).
    rewrite Ht, Hp, Hc, Ho, Hb, Hd. unfold setTimeout, with_timers.
    cbn [timers dom clock opacity bound delegated].
    rewrite <- app_assoc. repeat split.
Qed.

Lemma loaded_fields st :
  dom (loaded st) = st
  /\ timers (loaded st)
     = map (fun m => (5000, Fade m))
         (select_f (has_class "alert") (document st))
  /\ clock (loaded st) = 0 /\ opacity (loaded st) = []
  /\ delegated (loaded st) = [OnEdit; OnDelete]
  /\ bound (loaded st)
     = map (fun b => (b, OnFavorite))
         (select_f (has_class "favorite-btn") (document st))
       ++ map (fun b => (b, OnReaction))
            (select_f (has_class "reaction-btn") (document st))
       ++ map (fun b => (b, OnAddComment))
            (select_f (has_class "add-comment-btn") (document st)).
Proof.
  unfold loaded, DOMContentLoaded, script, blank. cbn [ready].
  unfold on_ready.
  match goal with
  | |- context [fold_left ?f ?l ?w] =>
      destruct (schedule_fades l w) as (Ht & Hp & Hc & Ho & Hb & Hd);
      set (w1 := fold_left f l w) in *
  end.
  unfold initCommentHandlers, initReactionButtons, initFavoriteButtons,
    bind_all, with_bound, document_querySelectorAll.
  cbn [dom log ready opacity bound delegated timers clock uncaught] in *.
  rewrite Ht, Hp, Hc, Ho, Hb, Hd. cbn [app]. rewrite <- app_assoc.
  repeat split.
Qed.

Lemma opacity_found l m rest :
  In m l ->
  option_map snd
    (List.find (fun p => Nat.eqb (fst p) m)
       (map (fun m => (m, "0"%string)) l ++ rest)) = Some "0"%string.
Proof.
  induction l as [| a l IH]; [intros [] |]. intros Hin. cbn [map app List.find fst].
  destruct (Nat.eqb_spec a m) as [_ | Hne]; [reflexivity |].
  destruct Hin as [-> | Hin]; [contradiction | now apply IH].
Qed.

(** X20.  The messages of the page at load: after five seconds each of them
    is made transparent, none being removed yet; 300 ms later each is
    removed.  Once the timers have fired the document is the document at
    load without the subtrees of the messages; no dialog was shown, no error
    logged with [console.error] and no request sent. *)
Theorem flash_messages_go (st : state) :
  distinct_ids st = true ->
  let alerts := select_f (has_class "alert") (document st) in
  let w1 := fire_all (length alerts) (loaded st) in
  let w2 := fire_all (2 * length alerts) (loaded st) in
  dom (loaded st) = st
  /\ dom w1 = st
  /\ (forall m, In m alerts -> opacity_of m w1 = Some "0"%string)
  /\ timers w1 = map (fun m => (5000 + 300, Drop m)) alerts
  /\ timers w2 = []
  /\ document (dom w2)
     = fold_left (fun d m => prune_f m d) alerts (document st)
  /\ (forall m, In m alerts -> ~ In m (ids_f (document (dom w2))))
  /\ talk (dom w2) = talk st.
Proof.
  intros Hd alerts w1 w2. apply nodupb_sound in Hd. fold (wf st) in Hd.
  destruct (loaded_fields st) as (Hp & Ht & Hc & Ho & _).
  destruct (fade_phase 5000 alerts [] (loaded st)) as (w & Hw & Ht1 & Hp1 & Ho1 & _).
  { rewrite Ht. cbn [map]. now rewrite app_nil_r. }
  { rewrite Hc. apply Nat.le_0_l. }
  fold w1 in Hw. subst w. cbn [app] in Ht1.
  destruct (drop_phase (5000 + 300) alerts w1 Ht1) as (w & Hw & Ht2 & Hp2 & Ho2).
  assert (E : w2 = w).
  { unfold w2. replace (2 * length alerts) with (length alerts + length alerts)
      by (simpl; now rewrite Nat.add_0_r).
    rewrite fire_all_add. exact Hw. }
  rewrite E. rewrite Hp1, Hp in *.
  destruct (removes_document alerts st Hd) as (Hdoc & Htalk).
  split; [reflexivity | split; [reflexivity | split; [| split; [exact Ht1 |]]]].
  - intros m Hm. unfold opacity_of. rewrite Ho1.
    apply opacity_found. now apply -> in_rev.
  - split; [exact Ht2 | split; [now rewrite Hp2 | split; [| now rewrite Hp2]]].
    intros m Hm. rewrite Hp2, Hdoc. now apply prunes_gone.
Qed.

Lemma bound_filter l x btns :
  NoDup btns ->
  map snd (filter (fun b : nat * listener => Nat.eqb (fst b) x)
             (map (fun b => (b, l)) btns))
  = if existsb (Nat.eqb x) btns then [l] else [].
Proof.
  induction btns as [| a r IH]; [reflexivity |]. intros Hn.
  inversion Hn as [| ? ? Ha Hr]; subst. cbn [map filter fst existsb].
  rewrite (Nat.eqb_sym x a).
  destruct (Nat.eqb_spec a x) as [-> | Hne]; cbn [map snd orb].
  - rewrite (IH Hr).
    destruct (existsb (Nat.eqb x) r) eqn:E; [| reflexivity].
    exfalso. apply Ha. apply existsb_exists in E as (y & Hy & Heq).
    apply Nat.eqb_eq in Heq. now subst y.
  - apply (IH Hr).
Qed.

(** X21.  At load every favourite, reaction and add-comment button of the
    document is given its listener once, the document its two listeners,
    and the page is not touched. *)
Theorem load_binds_once (st : state) (x : nat) :
  distinct_ids st = true ->
  dom (loaded st) = st
  /\ delegated (loaded st) = [OnEdit; OnDelete]
  /\ listeners_at x (loaded st)
     = filter (fun l => in_document_with (button_class l) x st)
         [OnFavorite; OnReaction; OnAddComment].
Proof.
  intros Hd. apply nodupb_sound in Hd. fold (wf st) in Hd.
  destruct (loaded_fields st) as (Hp & _ & _ & _ & Hdel & Hb).
  split; [exact Hp | split; [exact Hdel |]].
  unfold listeners_at. rewrite Hb, !filter_app, !map_app.
  assert (Hsel : forall c, NoDup (select_f (has_class c) (document st)))
    by (intros c; apply (proj2 (nodup_select _)), nodup_document, Hd).
  rewrite !bound_filter by apply Hsel.
  unfold in_document_with. cbn [filter button_class].
  destruct (existsb _ (select_f (has_class "favorite-btn") _)),
    (existsb _ (select_f (has_class "reaction-btn") _)),
    (existsb _ (select_f (has_class "add-comment-btn") _)); reflexivity.
Qed.

End Timers.

(** ** Clicks *)

Section ClickDispatch.
Context {num : Type} {H : Host num}.
Import Tree Ctx Checks TreeFacts Store DomFacts Frame FrameFacts.

Local Open Scope nat_scope.
Local Open Scope list_scope.

Lemma listeners_at_load st0 w x :
  distinct_ids st0 = true -> bound w = bound (loaded st0) ->
  listeners_at x w = bound_at_load x st0.
Proof.
  intros Hd Hb. apply nodupb_sound in Hd. fold (wf st0) in Hd.
  destruct (loaded_fields st0) as (_ & _ & _ & _ & _ & Hl).
  unfold listeners_at. rewrite Hb, Hl, !filter_app, !map_app.
  assert (Hsel : forall c, NoDup (select_f (has_class c) (document st0)))
    by (intros c; apply (proj2 (nodup_select _)), nodup_document, Hd).
  rewrite !bound_filter by apply Hsel.
  unfold bound_at_load, in_document_with. cbn [filter button_class].
  destruct (existsb _ (select_f (has_class "favorite-btn") _)),
    (existsb _ (select_f (has_class "reaction-btn") _)),
    (existsb _ (select_f (has_class "add-comment-btn") _)); reflexivity.
Qed.

Lemma bubble_through st0 below :
  forall w rest,
    distinct_ids st0 = true -> bound w = bound (loaded st0) ->
    forallb (unbound_at_load st0) below = true ->
    bubble (below ++ rest) w = bubble rest w.
Proof.
  induction below as [| x below IH]; intros w rest Hd Hb Hall; [reflexivity |].
  cbn [forallb] in Hall. apply andb_prop in Hall as (Hx & Hall).
  cbn [app bubble]. rewrite (listeners_at_load st0 w x Hd Hb).
  unfold unbound_at_load in Hx.
  destruct (bound_at_load x st0); [| discriminate].
  cbn [run_listeners]. now apply IH.
Qed.

(** X22.  A click on a favourite or reaction button bound at load, or on an
    element inside it with no bound element in between, runs the listener
    of the button and no other: the event goes no further up, and the
    listeners of the document do not see it. *)
Theorem click_stops_at_button (st0 : state) (l : listener)
    (target b : nat) (answer : option string) (confirmed : bool)
    (w : window) (chain : list elem) (below above : list nat) :
  distinct_ids st0 = true -> bound w = bound (loaded st0) ->
  stops l = true ->
  first_some (path_to target) (document (dom w)) = Some chain ->
  rev (map eid chain) = below ++ b :: above ->
  forallb (unbound_at_load st0) below = true ->
  bound_at_load b st0 = [l] ->
  click target answer confirmed w = invoke (listener_body l b) w.
Proof.
  intros Hd Hb Hs Hpath Hsplit Hbelow Hl.
  unfold click. rewrite Hpath, Hsplit.
  rewrite (bubble_through st0 below w _ Hd Hb Hbelow).
  cbn [bubble]. rewrite (listeners_at_load st0 w b Hd Hb), Hl.
  cbn [run_listeners]. rewrite Hs. reflexivity.
Qed.

(** X23.  A click whose way from the target up to the root meets no button
    bound at load reaches the document, whatever the page has become since
    load: the edit listener runs, then the delete listener, both with the
    target of the click. *)
Theorem click_reaches_document (st0 : state) (target : nat)
    (answer : option string) (confirmed : bool) (w : window)
    (chain : list elem) :
  distinct_ids st0 = true ->
  bound w = bound (loaded st0) -> delegated w = delegated (loaded st0) ->
  first_some (path_to target) (document (dom w)) = Some chain ->
  forallb (unbound_at_load st0) (map eid chain) = true ->
  click target answer confirmed w
  = invoke (delete_comment_click target confirmed ;; ret tt)
      (invoke (edit_comment_click (H := H) target answer ;; ret tt) w).
Proof.
  intros Hd Hb Hdel Hpath Hall.
  unfold click. rewrite Hpath.
  assert (Hrev : forallb (unbound_at_load st0) (rev (map eid chain)) = true).
  { rewrite forallb_forall in *. intros x Hx. apply Hall. now apply in_rev. }
  rewrite <- (app_nil_r (rev (map eid chain))).
  rewrite (bubble_through st0 _ w [] Hd Hb Hrev). cbn [bubble].
  destruct (loaded_fields st0) as (_ & _ & _ & _ & Hl & _).
  rewrite Hdel, Hl. reflexivity.
Qed.

End ClickDispatch.

(** ** The theorems on the example pages *)

Import Example.

Lemma add_comment_click_spec_witness :
  only_space "  hi " = false
  /\ Str.trim "  hi " = "hi"
  /\ (exists st',
        add_comment_click 22 comments_page = (Ok (Some (Some "7", 21)), st')
        /\ requests st'
           = [mkFetch "/api/add-comment/" "POST"
                [("Content-Type", Some "application/json");
                 ("X-CSRFToken", Some "tok")]
                (Some (JSON_stringify
                         (VObj [("article_id", VStr "7");
                                ("text", VStr "hi")])))]
        /\ dialogs st' = [])
  /\ only_space blank_text = true
  /\ (exists st',
        add_comment_click 22 blank_page = (Ok None, st')
        /\ dialogs st' = [Alert "Введите текст комментария"]
        /\ requests st' = [])
  /\ add_comment_click 22 bad_cookie_page = (Throw URIError, bad_cookie_page).
Proof.
  destruct (add_comment_click_spec (H := host) 22 21 "  hi " comments_page
              ltac:(vm_compute; reflexivity) ltac:(vm_compute; reflexivity))
    as (_ & _ & _ & Hsend & _).
  destruct (Hsend ltac:(vm_compute; reflexivity) (Some "tok")
              ltac:(vm_compute; reflexivity))
    as (st1 & a & Ha & Hrun1 & Hreq1 & Hdlg1).
  assert (Ea : a = Some "7") by (vm_compute in Ha; congruence).
  subst a.
  destruct (add_comment_click_spec (H := host) 22 21 blank_text blank_page
              ltac:(vm_compute; reflexivity) ltac:(vm_compute; reflexivity))
    as (_ & _ & Hblank & _).
  destruct (Hblank ltac:(vm_compute; reflexivity)) as (st2 & Hrun2 & Hdlg2 & Hreq2).
  destruct (add_comment_click_spec (H := host) 22 21 "  hi " bad_cookie_page
              ltac:(vm_compute; reflexivity) ltac:(vm_compute; reflexivity))
    as (_ & _ & _ & _ & Hthrow).
  split; [vm_compute; reflexivity |].
  split; [vm_compute; reflexivity |].
  split.
  { exists st1. split; [exact Hrun1 |]. split; [exact Hreq1 | exact Hdlg1]. }
  split; [vm_compute; reflexivity |].
  split.
  { exists st2. split; [exact Hrun2 |]. split; [exact Hdlg2 | exact Hreq2]. }
  apply Hthrow; vm_compute; reflexivity.
Defined.

(** C2 as it is stated fails when the cookie cannot be decoded: the input
    is not blank and [getCookie] throws before [fetch], so that no request
    is sent. *)
Lemma add_comment_click_spec_counterexample :
  Dom.get_value 21 bad_cookie_page = (Ok (Some "  hi "), bad_cookie_page)
  /\ Str.trim "  hi " = "hi"
  /\ add_comment_click (H := host) 22 bad_cookie_page
     = (Throw URIError, bad_cookie_page)
  /\ requests bad_cookie_page = [].
Proof. vm_compute. repeat split. Qed.

Lemma failure_shows_one_alert_witness :
  one_alert news_page
    (step (FavoriteResponse 2 (Parsed (VObj [("success", VBool false)])))
       news_page).
Proof.
  apply (failure_shows_one_alert (H := host)
           (FavoriteResponse 2 (Parsed (VObj [("success", VBool false)])))
           (Parsed (VObj [("success", VBool false)])) news_page);
    vm_compute; reflexivity.
Defined.

Lemma active_button_is_user_reaction_witness :
  (exists st',
     updateReactionButtons (Some 1) useful_counts (VStr "useful") news_page
     = (Ok tt, st')
     /\ buttons_of 1 st' = [4; 6]
     /\ reaction_of 4 st' = Some "liked" /\ is_active 4 st' = false
     /\ reaction_of 6 st' = Some "useful" /\ is_active 6 st' = true
     /\ (forall b b', In b [4; 6] -> In b' [4; 6] ->
           is_active b st' = true -> is_active b' st' = true -> b = b'))
  /\ (exists st',
        updateReactionButtons (Some 1) useful_counts VNull news_page
        = (Ok tt, st')
        /\ is_active 4 st' = false /\ is_active 6 st' = false).
Proof.
  split.
  - destruct (active_button_is_user_reaction (H := host) 1 useful_counts
                (VStr "useful") news_page ltac:(vm_compute; reflexivity))
      as (Hafter & Hret).
    destruct (Hret ltac:(vm_compute; reflexivity) ltac:(vm_compute; reflexivity))
      as (st' & Hrun & Hsame).
    destruct (Hafter st' Hrun) as (Hact & _ & Hone).
    change (buttons_of 1 news_page) with [4; 6] in *.
    destruct (Hact 4 (or_introl eq_refl)) as (Hr4 & Ha4).
    destruct (Hact 6 (or_intror (or_introl eq_refl))) as (Hr6 & Ha6).
    change (reaction_of 4 news_page) with (Some "liked") in Hr4.
    change (reaction_of 6 news_page) with (Some "useful") in Hr6.
    exists st'. split; [exact Hrun |]. split; [exact Hsame |].
    split; [exact Hr4 |]. split.
    { destruct (is_active 4 st'); [| reflexivity].
      pose proof (proj1 Ha4 eq_refl) as E. rewrite Hr4 in E. discriminate E. }
    split; [exact Hr6 |]. split.
    { apply (proj2 Ha6). now rewrite Hr6. }
    apply Hone. cbn [map]. rewrite Hr4, Hr6.
    repeat constructor; simpl; intuition discriminate.
  - destruct (active_button_is_user_reaction (H := host) 1 useful_counts
                VNull news_page ltac:(vm_compute; reflexivity))
      as (Hafter & Hret).
    destruct (Hret ltac:(vm_compute; reflexivity) ltac:(vm_compute; reflexivity))
      as (st' & Hrun & _).
    destruct (Hafter st' Hrun) as (_ & Hnull & _).
    change (buttons_of 1 news_page) with [4; 6] in *.
    exists st'. split; [exact Hrun |]. split.
    + apply (Hnull eq_refl). now left.
    + apply (Hnull eq_refl). right. now left.
Defined.

(** C4 as it is stated fails on a card with two buttons for the same
    reaction, both of which are active afterwards, and on a card whose
    first reaction button has no count element: the call throws in the
    first round, and the second button stays active though the resulting
    reaction type is the [data-reaction] of the first. *)
Lemma active_button_is_user_reaction_counterexample :
  (exists st',
     updateReactionButtons (H := host) (Some 1) (VObj []) (VStr "liked")
       twin_page = (Ok tt, st')
     /\ buttons_of 1 st' = [2; 4]
     /\ is_active 2 st' = true /\ is_active 4 st' = true)
  /\ (exists st',
        updateReactionButtons (H := host) (Some 1) (VObj []) (VStr "liked")
          bare_card_page = (Throw TypeError, st')
        /\ buttons_of 1 st' = [2; 4]
        /\ is_active 2 st' = true /\ is_active 4 st' = true
        /\ reaction_of 4 st' = Some "useful").
Proof.
  split.
  - exists (snd (updateReactionButtons (H := host) (Some 1) (VObj [])
                   (VStr "liked") twin_page)).
    vm_compute. repeat split.
  - exists (snd (updateReactionButtons (H := host) (Some 1) (VObj [])
                   (VStr "liked") bare_card_page)).
    vm_compute. repeat split.
Qed.

Lemma favorite_success_patch_witness :
  (exists st',
     favorite_response 2 (Parsed favorite_added) news_page = (Ok tt, st')
     /\ shown_text 3 st' = "⭐"
     /\ attribute "title" 2 st' = Some "Удалить из избранного"
     /\ Dom.node_at 2 st'
        = Some (Elem (el 2 "button" ["favorite-btn"]
                        [("data-url", "u"); ("data-source", "{}");
                         ("title", "Удалить из избранного")])
                  [Elem (el 3 "span" ["favorite-icon"] []) [Text "⭐"]])
     /\ Differ.alike_f [2] (document news_page) (document st')
     /\ talk st' = talk news_page
     /\ next_id st' = next_id news_page)
  /\ (exists st',
        favorite_response 2 (Parsed favorite_removed) starred_page = (Ok tt, st')
        /\ shown_text 3 st' = "☆"
        /\ attribute "title" 2 st' = Some "Добавить в избранное"
        /\ Dom.node_at 2 st'
           = Some (Elem (el 2 "button" ["favorite-btn"]
                           [("data-url", "u");
                            ("title", "Добавить в избранное")])
                     [Elem (el 3 "span" ["favorite-icon"] []) [Text "☆"];
                      Text "!"])
        /\ Differ.alike_f [2] (document starred_page) (document st')
        /\ talk st' = talk starred_page
        /\ next_id st' = next_id starred_page).
Proof.
  split.
  - destruct (favorite_success_patch (H := host) 2 3 favorite_added (VBool true)
                news_page ltac:(vm_compute; reflexivity)
                ltac:(vm_compute; reflexivity) ltac:(vm_compute; reflexivity)
                ltac:(vm_compute; reflexivity))
      as (st' & Hrun & _ & _ & Hb & (e & ks & Hn & Hn' & _) & Hal & Ht & Hnx).
    destruct (Hb true ltac:(vm_compute; reflexivity)) as (Hs & Htitle).
    vm_compute in Hn. injection Hn as <- <-.
    exists st'. split; [exact Hrun |]. split; [exact Hs |].
    split; [exact Htitle |]. split; [exact Hn' |].
    split; [exact Hal |]. split; [exact Ht | exact Hnx].
  - destruct (favorite_success_patch (H := host) 2 3 favorite_removed
                (VBool true) starred_page ltac:(vm_compute; reflexivity)
                ltac:(vm_compute; reflexivity) ltac:(vm_compute; reflexivity)
                ltac:(vm_compute; reflexivity))
      as (st' & Hrun & _ & _ & Hb & (e & ks & Hn & Hn' & _) & Hal & Ht & Hnx).
    destruct (Hb false ltac:(vm_compute; reflexivity)) as (Hs & Htitle).
    vm_compute in Hn. injection Hn as <- <-.
    exists st'. split; [exact Hrun |]. split; [exact Hs |].
    split; [exact Htitle |]. split; [exact Hn' |].
    split; [exact Hal |]. split; [exact Ht | exact Hnx].
Defined.


Lemma edit_comment_spec_witness :
  (exists st',
     edit_comment_click 14 (Some "bye") comments_page
     = (Ok (Some (11, 12)), st')
     /\ requests st'
        = [mkFetch "/api/edit-comment/3/" "POST"
             [("Content-Type", Some "application/json");
              ("X-CSRFToken", Some "tok")]
             (Some (JSON_stringify (VObj [("text", VStr "bye")])))])
  /\ (exists st',
        edit_comment_response 11 12 (Parsed edit_dated) comments_page
        = (Ok tt, st')
        /\ shown_text 12 st' = "new text"
        /\ shown_text 13 st' = "02.03.2025 10:00"
        /\ Differ.alike_f [12; 13] (document comments_page) (document st')
        /\ talk st' = talk comments_page
        /\ next_id st' = next_id comments_page).
Proof.
  destruct (edit_comment_spec (H := host)) as (_ & _ & Hsend & Hdone & _).
  split.
  - destruct (Hsend 14 11 12 "bye" (Some "tok") comments_page
                ltac:(vm_compute; reflexivity) ltac:(vm_compute; reflexivity)
                ltac:(vm_compute; reflexivity) ltac:(discriminate)
                ltac:(vm_compute; discriminate) ltac:(vm_compute; reflexivity))
      as (st' & Hrun & Hreq).
    exists st'. split; [exact Hrun | exact Hreq].
  - destruct (Hdone 11 12 13 edit_dated (VBool true) edited_comment
                (VStr "new text") (VStr "02.03.2025 10:00")
                "new text" "02.03.2025 10:00" comments_page
                ltac:(vm_compute; reflexivity) ltac:(vm_compute; reflexivity)
                ltac:(vm_compute; reflexivity) ltac:(vm_compute; reflexivity)
                ltac:(vm_compute; reflexivity) ltac:(vm_compute; reflexivity)
                ltac:(vm_compute; reflexivity) ltac:(vm_compute; reflexivity)
                ltac:(vm_compute; reflexivity) ltac:(vm_compute; reflexivity)
                ltac:(vm_compute; reflexivity))
      as (st' & Hrun & Ht & Hd & _ & _ & Hal & Htalk & Hnx).
    exists st'. split; [exact Hrun |]. split; [exact Ht |].
    split; [exact Hd |]. split; [exact Hal |]. split; [exact Htalk | exact Hnx].
Defined.

Lemma delete_comment_spec_witness :
  exists r st',
    delete_comment_response 
      (Some 11) (Parsed (VObj [("success", VBool true)])) comments_page
    = (r, st')
    /\ document st' = Tree.prune_f 11 (document comments_page)
    /\ ~ In 11 (Tree.ids_f (document st'))
    /\ requests st' = requests comments_page.
Proof.
  apply (proj2 (proj2 (proj2 (delete_comment_spec (H := host))))
           11 (VObj [("success", VBool true)]) (VBool true) comments_page);
    try (vm_compute; reflexivity).
  vm_compute. right. left. reflexivity.
Defined.

Lemma escapeHtml_spec_witness :
  exists st',
    addCommentToDOM (Some "7") markup_comment comments_page = (Ok tt, st')
    /\ attribute "data-comment-id" 50 st' = Some "<u>"
    /\ Dom.kids_at 50 st'
       = [Text (let q := String Str.dquote "" in
                let nl := String Str.newline "" in
                let tb := String Str.tab "" in
                nl ++ tb ++ tb
                ++ "<div class=" ++ q ++ "comment-content" ++ q ++ ">"
                ++ nl ++ tb ++ tb ++ tb
                ++ "<p class=" ++ q ++ "comment-text" ++ q ++ ">"
                ++ "a&lt;b &amp; &#039;c&#039;" ++ "</p>"
                ++ nl ++ tb ++ tb ++ tb
                ++ "<span class=" ++ q ++ "comment-date" ++ q ++ ">"
                ++ "<i>now</i>" ++ "</span>"
                ++ nl ++ tb ++ tb ++ "</div>"
                ++ nl ++ tb ++ tb
                ++ "<div class=" ++ q ++ "comment-actions" ++ q ++ ">"
                ++ nl ++ tb ++ tb ++ tb
                ++ "<button class=" ++ q ++ "edit-comment-btn" ++ q
                ++ " data-comment-id=" ++ q ++ "<u>" ++ q
                ++ ">Редактировать</button>"
                ++ nl ++ tb ++ tb ++ tb
                ++ "<button class=" ++ q ++ "delete-comment-btn" ++ q
                ++ " data-comment-id=" ++ q ++ "<u>" ++ q
                ++ ">Удалить</button>"
                ++ nl ++ tb ++ tb ++ "</div>"
                ++ nl ++ tb)].
Proof.
  destruct (escapeHtml_spec (H := host)) as (_ & _ & Hadd & _).
  exists (snd (addCommentToDOM (H := host) (Some "7") markup_comment
                 comments_page)).
  destruct (Hadd (Some "7") markup_comment comments_page
              (snd (addCommentToDOM (H := host) (Some "7") markup_comment
                      comments_page))
              ltac:(vm_compute; reflexivity) ltac:(vm_compute; reflexivity)
              ltac:(vm_compute; reflexivity))
    as (t & id & created & idt & crt & Ht & Hid & Hidt & Hcr & Hcrt & Hattr
        & Hkids).
  vm_compute in Ht. injection Ht as <-.
  vm_compute in Hid. injection Hid as <-.
  vm_compute in Hidt. injection Hidt as <-.
  vm_compute in Hcr. injection Hcr as <-.
  vm_compute in Hcrt. injection Hcrt as <-.
  split; [vm_compute; reflexivity |].
  split; [exact Hattr | exact Hkids].
Defined.

(** ** The placeholder after the last comment is deleted *)

(** C10 fails on the page with one comment: after the successful deletion
    of that comment the list is empty, and no element with the class
    [no-comments] exists anywhere, in the document or detached from it. *)
Lemma delete_last_comment_leaves_list_empty :
  delete_comment_response (Some 11) (Parsed (VObj [("success", VBool true)]))
    comments_page
  = (Ok tt,
     snd (delete_comment_response (Some 11)
            (Parsed (VObj [("success", VBool true)])) comments_page))
  /\ Dom.kids_at 10
       (snd (delete_comment_response (Some 11)
               (Parsed (VObj [("success", VBool true)])) comments_page))
     = []
  /\ Tree.select_f (Tree.has_class "no-comments")
       (Dom.roots
          (snd (delete_comment_response (Some 11)
                  (Parsed (VObj [("success", VBool true)])) comments_page)))
     = [].
Proof. vm_compute. repeat split. Qed.

(** ** The further theorems on the example pages *)

Lemma escapeHtml_unchanged_witness :
  String.length "a<b" <= String.length (escapeHtml "a<b")
  /\ (escapeHtml "a<b" = "a<b"
      <-> forallb (fun c => negb (escape_class c)) (Str.to_list "a<b") = true)
  /\ (String.length (escapeHtml "a<b") = String.length "a<b"
      -> escapeHtml "a<b" = "a<b").
Proof. exact (escapeHtml_unchanged "a<b"). Defined.

Lemma escapeHtml_injective_witness : "Tom & Jerry" = "Tom & " ++ "Jerry".
Proof.
  apply (escapeHtml_injective "Tom & Jerry" ("Tom & " ++ "Jerry")).
  vm_compute. reflexivity.
Defined.

Lemma getCookie_absent_witness :
  getCookie "sessionid" news_page = (Ok None, news_page).
Proof. apply (getCookie_absent "sessionid" news_page). vm_compute. reflexivity. Defined.

Lemma getCookie_first_plain_witness :
  getCookie "csrftoken" (page [] 1 "a=b; csrftoken=tok; csrftoken=%zz")
  = (Ok (Some "tok"), page [] 1 "a=b; csrftoken=tok; csrftoken=%zz").
Proof.
  apply (getCookie_first_plain "csrftoken" "tok" ["a=b"] [" csrftoken=%zz"]
           " csrftoken=tok"); vm_compute; reflexivity.
Defined.


Lemma no_request_without_cookie_witness :
  requests (step (H := host) (AddCommentClick 22)
              (page [comments; form] 50 "csrftoken=%"))
  = requests (page [comments; form] 50 "csrftoken=%").
Proof.
  apply (no_request_without_cookie (H := host) (AddCommentClick 22) URIError);
    vm_compute; reflexivity.
Defined.

Lemma clicks_keep_page_witness :
  Frame.page_of (step (H := host) (EditCommentClick 14 (Some "x")) comments_page)
  = Frame.page_of comments_page.
Proof.
  apply (clicks_keep_page (H := host) (EditCommentClick 14 (Some "x"))).
  reflexivity.
Defined.

Lemma edit_click_prompts_witness :
  dialogs (snd (edit_comment_click (H := host) 14 None comments_page))
  = (dialogs comments_page
     ++ [Prompt "Редактировать комментарий:"
           (Str.trim (shown_text 12 comments_page))])%list.
Proof.
  apply (edit_click_prompts (H := host) 14 11 12 None comments_page);
    vm_compute; reflexivity.
Defined.

Lemma failure_is_reported_witness :
  reported NetworkError "Произошла ошибка при сохранении в избранное"
    news_page
    (step (H := host) (FavoriteResponse 2 (Rejected NetworkError)) news_page).
Proof.
  exact (proj1 (failure_is_reported (H := host)
                  (FavoriteResponse 2 (Rejected NetworkError)) _ NetworkError
                  news_page eq_refl) eq_refl).
Defined.

Lemma failure_alert_text_witness :
  dialogs (step (H := host) (DeleteCommentResponse (Some 11) (Parsed refused))
             comments_page)
  = [Alert "Ошибка: Комментарий не найден"]
  /\ dialogs (step (H := host)
                (DeleteCommentResponse (Some 11)
                   (Parsed (VObj [("success", VBool false)]))) comments_page)
     = [Alert "Ошибка: Неизвестная ошибка"]
  /\ reported TypeError "Произошла ошибка при удалении комментария"
       comments_page
       (step (H := host)
          (DeleteCommentResponse (Some 11) (Parsed refused_oddly))
          comments_page).
Proof.
  split; [| split].
  - apply (proj1 (proj2 (proj2
             (failure_alert_text (H := host)
                (DeleteCommentResponse (Some 11) (Parsed refused)) refused
                (VBool false) (VStr "Комментарий не найден")
                "Произошла ошибка при удалении комментария" comments_page
                ltac:(vm_compute; reflexivity) ltac:(vm_compute; reflexivity)
                ltac:(vm_compute; reflexivity) ltac:(vm_compute; reflexivity)
                ltac:(vm_compute; reflexivity))))
           "Комментарий не найден" eq_refl).
    discriminate.
  - apply (proj1
             (failure_alert_text (H := host)
                (DeleteCommentResponse (Some 11)
                   (Parsed (VObj [("success", VBool false)])))
                (VObj [("success", VBool false)])
                (VBool false) VUndefined
                "Произошла ошибка при удалении комментария" comments_page
                ltac:(vm_compute; reflexivity) ltac:(vm_compute; reflexivity)
                ltac:(vm_compute; reflexivity) ltac:(vm_compute; reflexivity)
                ltac:(vm_compute; reflexivity))).
    vm_compute. reflexivity.
  - apply (proj2 (proj2 (proj2
             (failure_alert_text (H := host)
                (DeleteCommentResponse (Some 11) (Parsed refused_oddly))
                refused_oddly
                (VBool false) (VObj [("toString", VNum (Some 1%Z))])
                "Произошла ошибка при удалении комментария" comments_page
                ltac:(vm_compute; reflexivity) ltac:(vm_compute; reflexivity)
                ltac:(vm_compute; reflexivity) ltac:(vm_compute; reflexivity)
                ltac:(vm_compute; reflexivity))))
           TypeError); vm_compute; reflexivity.
Defined.

Lemma favorite_success_without_icon_witness :
  exists st',
    favorite_response 4 (Parsed favorite_added) news_page = (Ok tt, st')
    /\ reported TypeError "Произошла ошибка при сохранении в избранное"
         news_page st'.
Proof.
  apply (favorite_success_without_icon (H := host) 4 favorite_added
           (VBool true) news_page); vm_compute; reflexivity.
Defined.

Lemma reaction_success_outside_card_witness :
  exists st',
    reaction_response 22 (Parsed favorite_added) comments_page = (Ok tt, st')
    /\ reported TypeError "Произошла ошибка при добавлении реакции"
         comments_page st'.
Proof.
  apply (reaction_success_outside_card (H := host) 22 favorite_added
           (VBool true) comments_page); vm_compute; reflexivity.
Defined.


Lemma add_comment_success_witness :
  exists st',
    add_comment_response (Some "7") 21 (Parsed comment_added) comments_page
    = (Ok tt, st')
    /\ Dom.kids_at 10 st'
       = (Dom.kids_at 10 comments_page
          ++ [Elem (comment_element 50 "3")
                [Text (let q := String Str.dquote "" in
                       let nl := String Str.newline "" in
                       let tb := String Str.tab "" in
                       nl ++ tb ++ tb
                       ++ "<div class=" ++ q ++ "comment-content" ++ q ++ ">"
                       ++ nl ++ tb ++ tb ++ tb
                       ++ "<p class=" ++ q ++ "comment-text" ++ q ++ ">"
                       ++ "new text" ++ "</p>"
                       ++ nl ++ tb ++ tb ++ tb
                       ++ "<span class=" ++ q ++ "comment-date" ++ q ++ ">"
                       ++ "01.03.2025 20:00" ++ "</span>"
                       ++ nl ++ tb ++ tb ++ "</div>"
                       ++ nl ++ tb ++ tb
                       ++ "<div class=" ++ q ++ "comment-actions" ++ q ++ ">"
                       ++ nl ++ tb ++ tb ++ tb
                       ++ "<button class=" ++ q ++ "edit-comment-btn" ++ q
                       ++ " data-comment-id=" ++ q ++ "3" ++ q
                       ++ ">Редактировать</button>"
                       ++ nl ++ tb ++ tb ++ tb
                       ++ "<button class=" ++ q ++ "delete-comment-btn" ++ q
                       ++ " data-comment-id=" ++ q ++ "3" ++ q
                       ++ ">Удалить</button>"
                       ++ nl ++ tb ++ tb ++ "</div>"
                       ++ nl ++ tb)]])%list
    /\ Dom.get_value 21 st' = (Ok (Some ""), st')
    /\ talk st' = talk comments_page.
Proof.
  destruct (add_comment_success (H := host) (Some "7") 21 10 comment_added
              (VBool true) saved_comment (VNum (Some 3%Z))
              (VStr "01.03.2025 20:00") "new text" "3" "01.03.2025 20:00"
              comments_page
              ltac:(vm_compute; reflexivity) ltac:(vm_compute; reflexivity)
              ltac:(vm_compute; reflexivity) ltac:(vm_compute; reflexivity)
              ltac:(vm_compute; reflexivity) ltac:(vm_compute; reflexivity)
              ltac:(vm_compute; reflexivity) ltac:(vm_compute; reflexivity)
              ltac:(vm_compute; reflexivity) ltac:(vm_compute; reflexivity)
              ltac:(vm_compute; reflexivity) ltac:(vm_compute; reflexivity)
              ltac:(vm_compute; reflexivity))
    as (st' & Hrun & Hkids & Hval & _ & Htalk).
  exists st'. split; [exact Hrun |]. split; [exact Hkids |].
  split; [exact Hval | exact Htalk].
Defined.

Lemma add_comment_success_without_list_witness :
  exists st',
    add_comment_response (Some "7") 2 (Parsed comment_added) news_page
    = (Ok tt, st')
    /\ reported TypeError "Произошла ошибка при добавлении комментария"
         news_page st'.
Proof.
  apply (add_comment_success_without_list (H := host) (Some "7") 2
           comment_added (VBool true) saved_comment news_page);
    vm_compute; reflexivity.
Defined.

Lemma edit_success_without_date_witness :
  exists st',
    edit_comment_response 40 41 (Parsed edit_saved) bare_page = (Ok tt, st')
    /\ shown_text 41 st' = "new text"
    /\ reported TypeError "Произошла ошибка при редактировании комментария"
         (Dom.replace_children 41 [Text "new text"] bare_page) st'.
Proof.
  apply (edit_success_without_date (H := host) 40 41 edit_saved (VBool true)
           saved_comment (VStr "new text") "new text" bare_page);
    vm_compute; reflexivity.
Defined.

Lemma delete_outside_item_witness :
  (exists st1,
     delete_comment_click 42 true bare_page = (Ok (Some None), st1)
     /\ requests st1
        = (requests bare_page
           ++ [mkFetch
                 ("/api/delete-comment/"
                  ++ Js.attr_string (attribute "data-comment-id" 42 bare_page) ++ "/")
                 "POST" (json_headers (Some "tok")) None])%list)
  /\ (forall st1, exists st',
        delete_comment_response None (Parsed favorite_added) st1 = (Ok tt, st')
        /\ reported TypeError "Произошла ошибка при удалении комментария"
             st1 st').
Proof.
  apply (delete_outside_item (H := host) 42 (Some "tok") favorite_added
           (VBool true) bare_page); vm_compute; reflexivity.
Defined.

Lemma flash_messages_go_witness :
  let alerts := Tree.select_f (Tree.has_class "alert") (document flash_page) in
  let w1 := fire_all (length alerts) (loaded flash_page) in
  let w2 := fire_all (2 * length alerts) (loaded flash_page) in
  dom (loaded flash_page) = flash_page
  /\ dom w1 = flash_page
  /\ (forall m, In m alerts -> opacity_of m w1 = Some "0")
  /\ timers w1 = map (fun m => (5000 + 300, Drop m)) alerts
  /\ timers w2 = []
  /\ document (dom w2)
     = fold_left (fun d m => Tree.prune_f m d) alerts (document flash_page)
  /\ (forall m, In m alerts -> ~ In m (Tree.ids_f (document (dom w2))))
  /\ talk (dom w2) = talk flash_page.
Proof. apply (flash_messages_go flash_page). vm_compute. reflexivity. Defined.

Lemma load_binds_once_witness :
  dom (loaded news_page) = news_page
  /\ delegated (loaded news_page) = [OnEdit; OnDelete]
  /\ listeners_at 2 (loaded news_page)
     = filter (fun l => in_document_with (button_class l) 2 news_page)
         [OnFavorite; OnReaction; OnAddComment].
Proof. apply (load_binds_once news_page 2). vm_compute. reflexivity. Defined.

Lemma click_stops_at_button_witness :
  click (H := host) 3 None false (loaded news_page)
  = invoke (listener_body (H := host) OnFavorite 2) (loaded news_page).
Proof.
  apply (click_stops_at_button (H := host) news_page OnFavorite 3 2 None false
           (loaded news_page)
           [el 1 "div" ["news-card"] [];
            el 2 "button" ["favorite-btn"]
              [("data-url", "u"); ("data-source", "{}")];
            el 3 "span" ["favorite-icon"] []]
           [3] [1]); vm_compute; reflexivity.
Defined.

(** The comment that a response has added after load is clicked. *)
Lemma click_reaches_document_witness :
  let w := with_dom
             (snd (add_comment_response (H := host) (Some "7") 21
                     (Parsed comment_added) comments_page))
             (loaded comments_page) in
  click (H := host) 50 (Some "x") true w
  = invoke (delete_comment_click 50 true ;; ret tt)
      (invoke (edit_comment_click (H := host) 50 (Some "x") ;; ret tt) w).
Proof.
  apply (click_reaches_document (H := host) comments_page 50 (Some "x") true
           (with_dom
              (snd (add_comment_response (H := host) (Some "7") 21
                      (Parsed comment_added) comments_page))
              (loaded comments_page))
           [el 10 "div" ["comments-list"] [("data-article-id", "7")];
            comment_element 50 "3"]); vm_compute; reflexivity.
Defined.
